(** * WindowsCrafted relay hub: connection registry, router and broadcaster

    A shallow embedding of [server/storage.ts] (class [MemStorage]) and of
    [server/routes.ts] (the [connectedClients] array, [broadcastToClients],
    [sendToDevice], the [POST /api/commands] handler and the WebSocket
    [connection] / [message] / [close] handlers), followed by the properties
    the specification states about them.

    Modelling decisions, all visible in the definitions below:
    - values that reach the server as parsed JSON keep their dynamic type
      ([JsVal]); truthiness and [===] against a string are written out;
    - a JavaScript [Map] is an insertion-ordered association list ([JsMap]),
      because [Array.from(map.values()).find(...)] depends on that order;
    - every [clientInfo] object lives in a heap ([clientInfos]) and the array
      [connectedClients] holds references to them, so that the assignment
      [clientInfo.deviceId = ...] is seen through the array;
    - [new Date()] reads the instant [now] handed to the handler;
    - each handler runs to completion before the next event is taken (the
      promises of [MemStorage] are already resolved when awaited);
    - [ws.send] on a socket whose [readyState] is [OPEN] appends to the log
      [wire] of frames handed to the transport. *)

From stdpp Require Import base option list sorting gmap strings.
From Stdlib Require Import ZArith Lia.

Local Open Scope string_scope.
Local Open Scope list_scope.

(** ** JavaScript values *)

Definition Time := Z.

(** What [JSON.parse] can put in a property, plus [undefined] for a property
    that is absent. [VNum] carries the integers: a fractional number is never
    the key of a [Map] here and is not zero, so it acts as an integer that is
    no key. [VObj] stands for any object or array. *)
Inductive JsVal :=
| VUndefined
| VNull
| VBool (b : bool)
| VNum (n : Z)
| VStr (s : string)
| VObj (json : string).

#[global] Instance JsVal_eq_dec : EqDecision JsVal.
Proof. solve_decision. Defined.

(** [if (v)]: the falsy values are [undefined], [null], [false], [0] and the
    empty string. Objects and arrays are always truthy. *)
Definition truthy (v : JsVal) : bool :=
  match v with
  | VUndefined | VNull => false
  | VBool b => b
  | VNum n => negb (n =? 0)%Z
  | VStr s => negb (String.eqb s "")
  | VObj _ => true
  end.

(** [v === s] for a string [s]. *)
Definition strict_eq_str (v : JsVal) (s : string) : bool :=
  match v with
  | VStr t => String.eqb t s
  | _ => false
  end.

(** [a === b] where [a] is a stored string and [b] any value. *)
Definition str_strict_eq (a : string) (b : JsVal) : bool := strict_eq_str b a.

(** [a || b]. *)
Definition js_or (a b : JsVal) : JsVal := if truthy a then a else b.

(** ** [Map<number, V>] with insertion order *)

Module JsMap.

Definition t (V : Type) := list (Z * V).

Definition empty {V} : t V := [].

Fixpoint get {V} (k : Z) (m : t V) : option V :=
  match m with
  | [] => None
  | (k', v) :: m' => if (k' =? k)%Z then Some v else get k m'
  end.

(** [map.get(k)] when [k] is any value: every key is a number, so only a
    number can hit. *)
Definition getv {V} (k : JsVal) (m : t V) : option V :=
  match k with
  | VNum n => get n m
  | _ => None
  end.

(** [map.set(k, v)]: an existing key keeps its position, a new key goes last. *)
Fixpoint set {V} (k : Z) (v : V) (m : t V) : t V :=
  match m with
  | [] => [(k, v)]
  | (k', v') :: m' => if (k' =? k)%Z then (k, v) :: m' else (k', v') :: set k v m'
  end.

Definition setv {V} (k : JsVal) (v : V) (m : t V) : t V :=
  match k with
  | VNum n => set n v m
  | _ => m
  end.

(** [map.delete(k)], with the boolean it returns. *)
Fixpoint delete {V} (k : Z) (m : t V) : t V :=
  match m with
  | [] => []
  | (k', v') :: m' => if (k' =? k)%Z then m' else (k', v') :: delete k m'
  end.

Definition has {V} (k : Z) (m : t V) : bool := bool_decide (is_Some (get k m)).

(** [Array.from(map.values())]. *)
Definition values {V} (m : t V) : list V := m.*2.

Definition keys {V} (m : t V) : list Z := m.*1.

End JsMap.

(** ** Entities of [shared/schema.ts] *)

Module Device.
Record t := mk {
  id : Z;
  deviceId : string;
  name : string;
  platform : string;
  os : string;
  ipAddress : option string;
  user : option string;
  status : string;
  lastActive : Time;
  registrationCode : option string;
  createdAt : Time;
  info : JsVal
}.

(** [Partial<Device>]: [None] is an absent property. *)
Record partial := mkPartial {
  p_id : option Z;
  p_deviceId : option string;
  p_name : option string;
  p_platform : option string;
  p_os : option string;
  p_ipAddress : option (option string);
  p_user : option (option string);
  p_status : option string;
  p_lastActive : option Time;
  p_registrationCode : option (option string);
  p_createdAt : option Time;
  p_info : option JsVal
}.

Definition no_fields : partial :=
  mkPartial None None None None None None None None None None None None.

(** [{ info: v }] *)
Definition only_info (v : JsVal) : partial :=
  mkPartial None None None None None None None None None None None (Some v).

(** [{ ...device, ...updatedFields }] *)
Definition spread (device : t) (updatedFields : partial) : t :=
  mk (default (id device) (p_id updatedFields))
     (default (deviceId device) (p_deviceId updatedFields))
     (default (name device) (p_name updatedFields))
     (default (platform device) (p_platform updatedFields))
     (default (os device) (p_os updatedFields))
     (default (ipAddress device) (p_ipAddress updatedFields))
     (default (user device) (p_user updatedFields))
     (default (status device) (p_status updatedFields))
     (default (lastActive device) (p_lastActive updatedFields))
     (default (registrationCode device) (p_registrationCode updatedFields))
     (default (createdAt device) (p_createdAt updatedFields))
     (default (info device) (p_info updatedFields)).

(** [{ ...device, status, lastActive: new Date() }] *)
Definition with_status (device : t) (st : string) (now : Time) : t :=
  mk (id device) (deviceId device) (name device) (platform device) (os device)
     (ipAddress device) (user device) st now (registrationCode device)
     (createdAt device) (info device).

(** [InsertDevice] *)
Record insert := mkInsert {
  i_name : string;
  i_deviceId : string;
  i_platform : string;
  i_os : string;
  i_ipAddress : option string;
  i_user : option string;
  i_status : string;
  i_registrationCode : option string
}.
End Device.

Module Command.
Record t := mk {
  id : Z;
  deviceId : string;
  command : string;
  parameters : JsVal;
  status : JsVal;
  result : JsVal;
  createdAt : Time;
  completedAt : option Time
}.

(** [Partial<Command>]: [None] is an absent property; a property that is
    present with the value [undefined] is [Some VUndefined]. *)
Record partial := mkPartial {
  p_id : option Z;
  p_deviceId : option string;
  p_command : option string;
  p_parameters : option JsVal;
  p_status : option JsVal;
  p_result : option JsVal;
  p_createdAt : option Time;
  p_completedAt : option (option Time)
}.

(** [{ ...command, ...updatedFields }] *)
Definition spread (command0 : t) (updatedFields : partial) : t :=
  mk (default (id command0) (p_id updatedFields))
     (default (deviceId command0) (p_deviceId updatedFields))
     (default (command command0) (p_command updatedFields))
     (default (parameters command0) (p_parameters updatedFields))
     (default (status command0) (p_status updatedFields))
     (default (result command0) (p_result updatedFields))
     (default (createdAt command0) (p_createdAt updatedFields))
     (default (completedAt command0) (p_completedAt updatedFields)).

(** [updatedCommand.completedAt = new Date()] *)
Definition with_completedAt (c : t) (now : Time) : t :=
  mk (id c) (deviceId c) (command c) (parameters c) (status c) (result c)
     (createdAt c) (Some now).

(** [InsertCommand] *)
Record insert := mkInsert {
  i_deviceId : string;
  i_command : string;
  i_parameters : JsVal
}.
End Command.

(** The [description] template literals, kept with their interpolated values. *)
Inductive Description :=
| DeviceRemoved
| DeviceConnected
| DeviceDisconnected
| CommandCreated (command : string)
| CommandStatus (status : JsVal) (command : string).

(** The [details] object literals. *)
Inductive Details :=
| NoDetails
| RemovedBy (username : string)
| CreatedDetails (commandId : Z) (parameters : JsVal)
| ResponseDetails (commandId result : JsVal).

Module Activity.
(** [InsertActivity] *)
Record insert := mkInsert {
  i_deviceId : JsVal;
  i_activityType : string;
  i_description : Description;
  i_status : JsVal;
  i_details : Details
}.

Record t := mk {
  id : Z;
  deviceId : JsVal;
  activityType : string;
  description : Description;
  status : JsVal;
  details : Details;
  createdAt : Time
}.
End Activity.

#[global] Instance Device_eq_dec : EqDecision Device.t.
Proof. solve_decision. Defined.
#[global] Instance Command_eq_dec : EqDecision Command.t.
Proof. solve_decision. Defined.
#[global] Instance Description_eq_dec : EqDecision Description.
Proof. solve_decision. Defined.
#[global] Instance Details_eq_dec : EqDecision Details.
Proof. solve_decision. Defined.
#[global] Instance Activity_eq_dec : EqDecision Activity.t.
Proof. solve_decision. Defined.

(** ** [server/storage.ts]: class [MemStorage]

    The [users] and [registrationCodes] maps and the session store are not
    read or written by any code modelled here and are left out. *)

Record MemStorage := mkStorage {
  devices : JsMap.t Device.t;
  commands : JsMap.t Command.t;
  activities : JsMap.t Activity.t;
  currentId_devices : Z;
  currentId_commands : Z;
  currentId_activities : Z
}.

(** [new MemStorage()] *)
Definition newStorage : MemStorage :=
  mkStorage JsMap.empty JsMap.empty JsMap.empty 1 1 1.

Definition set_devices (m : JsMap.t Device.t) (s : MemStorage) : MemStorage :=
  mkStorage m (commands s) (activities s)
            (currentId_devices s) (currentId_commands s) (currentId_activities s).

Definition set_commands (m : JsMap.t Command.t) (s : MemStorage) : MemStorage :=
  mkStorage (devices s) m (activities s)
            (currentId_devices s) (currentId_commands s) (currentId_activities s).

Definition getAllDevices (s : MemStorage) : list Device.t :=
  JsMap.values (devices s).

Definition getDeviceById (id : Z) (s : MemStorage) : option Device.t :=
  JsMap.get id (devices s).

Definition getDeviceByDeviceId (deviceId : JsVal) (s : MemStorage) : option Device.t :=
  List.find (fun device => str_strict_eq (Device.deviceId device) deviceId)
            (JsMap.values (devices s)).

Definition createDevice (device : Device.insert) (now : Time) (s : MemStorage)
  : Device.t * MemStorage :=
  let id := currentId_devices s in
  let newDevice :=
    Device.mk id (Device.i_deviceId device) (Device.i_name device)
              (Device.i_platform device) (Device.i_os device)
              (Device.i_ipAddress device) (Device.i_user device)
              (Device.i_status device) now (Device.i_registrationCode device)
              now (VObj "{}") in
  (newDevice,
   mkStorage (JsMap.set id newDevice (devices s)) (commands s) (activities s)
             (id + 1) (currentId_commands s) (currentId_activities s)).

Definition updateDevice (id : Z) (updatedFields : Device.partial) (s : MemStorage)
  : option Device.t * MemStorage :=
  match JsMap.get id (devices s) with
  | None => (None, s)
  | Some device =>
      let updatedDevice := Device.spread device updatedFields in
      (Some updatedDevice, set_devices (JsMap.set id updatedDevice (devices s)) s)
  end.

Definition updateDeviceStatus (deviceId : JsVal) (status : string) (now : Time)
  (s : MemStorage) : option Device.t * MemStorage :=
  match List.find (fun device => str_strict_eq (Device.deviceId device) deviceId)
                  (JsMap.values (devices s)) with
  | None => (None, s)
  | Some device =>
      let updatedDevice := Device.with_status device status now in
      (Some updatedDevice,
       set_devices (JsMap.set (Device.id device) updatedDevice (devices s)) s)
  end.

Definition removeDevice (id : Z) (s : MemStorage) : bool * MemStorage :=
  (JsMap.has id (devices s), set_devices (JsMap.delete id (devices s)) s).

Definition getAllCommands (s : MemStorage) : list Command.t :=
  JsMap.values (commands s).

Definition getCommandById (id : JsVal) (s : MemStorage) : option Command.t :=
  JsMap.getv id (commands s).

Definition createCommand (command : Command.insert) (now : Time) (s : MemStorage)
  : Command.t * MemStorage :=
  let id := currentId_commands s in
  let newCommand :=
    Command.mk id (Command.i_deviceId command) (Command.i_command command)
               (Command.i_parameters command) (VStr "pending") (VStr "") now None in
  (newCommand,
   mkStorage (devices s) (JsMap.set id newCommand (commands s)) (activities s)
             (currentId_devices s) (id + 1) (currentId_activities s)).

(** [updatedFields.status === "completed" || updatedFields.status === "failed"] *)
Definition terminal_status (v : JsVal) : bool :=
  strict_eq_str v "completed" || strict_eq_str v "failed".

Definition updateCommand (id : JsVal) (updatedFields : Command.partial) (now : Time)
  (s : MemStorage) : option Command.t * MemStorage :=
  match JsMap.getv id (commands s) with
  | None => (None, s)
  | Some command =>
      let updatedCommand := Command.spread command updatedFields in
      let updatedCommand :=
        if terminal_status (default VUndefined (Command.p_status updatedFields))
        then Command.with_completedAt updatedCommand now
        else updatedCommand in
      (Some updatedCommand, set_commands (JsMap.setv id updatedCommand (commands s)) s)
  end.

Definition createActivity (activity : Activity.insert) (now : Time) (s : MemStorage)
  : Activity.t * MemStorage :=
  let id := currentId_activities s in
  let newActivity :=
    Activity.mk id (Activity.i_deviceId activity) (Activity.i_activityType activity)
                (Activity.i_description activity) (Activity.i_status activity)
                (Activity.i_details activity) now in
  (newActivity,
   mkStorage (devices s) (commands s) (JsMap.set id newActivity (activities s))
             (currentId_devices s) (currentId_commands s) (id + 1)).

(** ** [server/routes.ts]: the connection registry *)

(** [ws.readyState] *)
Inductive ReadyState := CONNECTING | OPEN | CLOSING | CLOSED.

#[global] Instance ReadyState_eq_dec : EqDecision ReadyState.
Proof. solve_decision. Defined.

(** A WebSocket object is named by the number of the connection that
    created it. *)
Definition WebSocket := nat.

Module ConnectedClient.
Record t := mk {
  ws : WebSocket;
  deviceId : JsVal;
  userId : JsVal
}.
End ConnectedClient.

#[global] Instance ConnectedClient_eq_dec : EqDecision ConnectedClient.t.
Proof. solve_decision. Defined.

(** The object literals handed to [JSON.stringify] before [ws.send]. *)
Inductive Message :=
| COMMAND (command : Command.t)
| DEVICE_STATUS_CHANGED (deviceId : JsVal) (status : string)
| COMMAND_STATUS_CHANGED (commandId status result : JsVal)
| DEVICE_INFO_UPDATED (deviceId info : JsVal)
| DEVICE_REMOVED (deviceId : string).

#[global] Instance Message_eq_dec : EqDecision Message.
Proof. solve_decision. Defined.

(** The whole server: the store, the array [connectedClients] of references
    to [clientInfo] objects, the heap of those objects, the transport state
    of every socket and the frames written so far. The [clientInfo] object
    created by connection [n] has reference [n]. *)
Record Server := mkServer {
  storage : MemStorage;
  connectedClients : list nat;
  clientInfos : gmap nat ConnectedClient.t;
  sockets : gmap WebSocket ReadyState;
  wire : list (WebSocket * Message);
  nextSocket : nat
}.

Definition set_storage (s : MemStorage) (st : Server) : Server :=
  mkServer s (connectedClients st) (clientInfos st) (sockets st) (wire st) (nextSocket st).

Definition set_connectedClients (l : list nat) (st : Server) : Server :=
  mkServer (storage st) l (clientInfos st) (sockets st) (wire st) (nextSocket st).

Definition set_clientInfos (h : gmap nat ConnectedClient.t) (st : Server) : Server :=
  mkServer (storage st) (connectedClients st) h (sockets st) (wire st) (nextSocket st).

Definition set_sockets (k : gmap WebSocket ReadyState) (st : Server) : Server :=
  mkServer (storage st) (connectedClients st) (clientInfos st) k (wire st) (nextSocket st).

(** The array as the objects it refers to. *)
Definition clients (st : Server) : list ConnectedClient.t :=
  omap (fun r => clientInfos st !! r) (connectedClients st).

Definition readyState (st : Server) (w : WebSocket) : ReadyState :=
  default CLOSED (sockets st !! w).

Definition is_open (st : Server) (w : WebSocket) : bool :=
  bool_decide (readyState st w = OPEN).

(** [ws.send(JSON.stringify(data))] on an open socket. *)
Definition send (w : WebSocket) (data : Message) (st : Server) : Server :=
  mkServer (storage st) (connectedClients st) (clientInfos st) (sockets st)
           (wire st ++ [(w, data)]) (nextSocket st).

(** [client.ws !== excludeClient] *)
Definition not_excluded (w : WebSocket) (excludeClient : option WebSocket) : bool :=
  match excludeClient with
  | None => true
  | Some x => negb (Nat.eqb w x)
  end.

Definition broadcastToClients (data : Message) (excludeClient : option WebSocket)
  (st : Server) : Server :=
  foldl (fun st' client =>
           if not_excluded (ConnectedClient.ws client) excludeClient
              && is_open st' (ConnectedClient.ws client)
           then send (ConnectedClient.ws client) data st'
           else st')
        st (clients st).

(** [connectedClients.find(client => client.deviceId === deviceId)] *)
Definition findByDevice (deviceId : string) (st : Server) : option ConnectedClient.t :=
  List.find (fun client => strict_eq_str (ConnectedClient.deviceId client) deviceId)
            (clients st).

Definition sendToDevice (deviceId : string) (data : Message) (st : Server)
  : bool * Server :=
  match findByDevice deviceId st with
  | Some deviceClient =>
      if is_open st (ConnectedClient.ws deviceClient)
      then (true, send (ConnectedClient.ws deviceClient) data st)
      else (false, st)
  | None => (false, st)
  end.

(** ** [server/routes.ts]: HTTP handlers *)

Inductive Response :=
| NotFound
| Created (command : Command.t)
| Removed.

(** [POST /api/commands], for a request that passed [requireAuth] and
    [validateRequest(commandSchema)]; an absent [parameters] is [VUndefined]. *)
Definition postCommand (deviceId command : string) (parameters : JsVal) (now : Time)
  (st : Server) : Response * Server :=
  match getDeviceByDeviceId (VStr deviceId) (storage st) with
  | None => (NotFound, st)
  | Some device =>
      let '(newCommand, s1) :=
        createCommand (Command.mkInsert deviceId command (js_or parameters (VObj "{}")))
                      now (storage st) in
      let '(_, s2) :=
        createActivity
          (Activity.mkInsert (VStr deviceId) "command" (CommandCreated command)
                             (VStr "pending")
                             (CreatedDetails (Command.id newCommand) parameters))
          now s1 in
      let '(delivered, st1) :=
        sendToDevice deviceId (COMMAND newCommand) (set_storage s2 st) in
      let st2 :=
        if negb delivered && String.eqb (Device.status device) "online"
        then
          let '(_, s3) := updateDeviceStatus (VStr deviceId) "offline" now (storage st1) in
          broadcastToClients (DEVICE_STATUS_CHANGED (VStr deviceId) "offline") None
                             (set_storage s3 st1)
        else st1 in
      (Created newCommand, st2)
  end.

(** [DELETE /api/devices/:id] by the authenticated user [username]. *)
Definition deleteDevice (id : Z) (username : string) (now : Time) (st : Server)
  : Response * Server :=
  match getDeviceById id (storage st) with
  | None => (NotFound, st)
  | Some device =>
      let '(_, s1) := removeDevice id (storage st) in
      let '(_, s2) :=
        createActivity
          (Activity.mkInsert (VStr (Device.deviceId device)) "status" DeviceRemoved
                             (VStr "completed") (RemovedBy username))
          now s1 in
      (Removed,
       broadcastToClients (DEVICE_REMOVED (Device.deviceId device)) None
                          (set_storage s2 st))
  end.

(** ** [server/routes.ts]: WebSocket handlers *)

(** The parsed message, one field per property the handler reads; an absent
    property is [VUndefined]. *)
Module Data.
Record t := mk {
  type : JsVal;
  token : JsVal;
  deviceId : JsVal;
  userId : JsVal;
  commandId : JsVal;
  status : JsVal;
  result : JsVal;
  info : JsVal
}.
End Data.

(** [wss.on('connection', (ws) => ...)]: [const clientInfo = { ws }] and
    [connectedClients.push(clientInfo)]. *)
Definition onConnection (ws : WebSocket) (st : Server) : Server :=
  let clientInfo := ConnectedClient.mk ws VUndefined VUndefined in
  set_connectedClients (connectedClients st ++ [ws])
    (set_clientInfos (<[ws := clientInfo]> (clientInfos st)) st).

(** [clientInfo.deviceId = v] *)
Definition assign_deviceId (ws : WebSocket) (v : JsVal) (st : Server) : Server :=
  set_clientInfos
    (alter (fun c => ConnectedClient.mk (ConnectedClient.ws c) v (ConnectedClient.userId c))
           ws (clientInfos st)) st.

(** [clientInfo.userId = v] *)
Definition assign_userId (ws : WebSocket) (v : JsVal) (st : Server) : Server :=
  set_clientInfos
    (alter (fun c => ConnectedClient.mk (ConnectedClient.ws c) (ConnectedClient.deviceId c) v)
           ws (clientInfos st)) st.

(** [clientInfo.deviceId], read through the closure of connection [ws]. *)
Definition clientInfo_deviceId (ws : WebSocket) (st : Server) : JsVal :=
  match clientInfos st !! ws with
  | Some clientInfo => ConnectedClient.deviceId clientInfo
  | None => VUndefined
  end.

(** The body of [if (data.type === 'AUTH')]. *)
Definition onAuth (ws : WebSocket) (data : Data.t) (now : Time) (st : Server) : Server :=
  if truthy (Data.token data) then
    let st := assign_deviceId ws (Data.deviceId data) st in
    match getDeviceByDeviceId (Data.deviceId data) (storage st) with
    | Some device =>
        let '(_, s1) := updateDeviceStatus (Data.deviceId data) "online" now (storage st) in
        let '(_, s2) :=
          createActivity
            (Activity.mkInsert (Data.deviceId data) "status" DeviceConnected
                               (VStr "completed") NoDetails)
            now s1 in
        broadcastToClients (DEVICE_STATUS_CHANGED (Data.deviceId data) "online") (Some ws)
                           (set_storage s2 st)
    | None => st
    end
  else if truthy (Data.userId data) then assign_userId ws (Data.userId data) st
  else st.

(** The body of [if (data.type === 'COMMAND_RESPONSE' && clientInfo.deviceId)]. *)
Definition onCommandResponse (data : Data.t) (now : Time) (st : Server) : Server :=
  let commandId := Data.commandId data in
  let status := Data.status data in
  let result := Data.result data in
  let '(command, s1) :=
    updateCommand commandId
      (Command.mkPartial None None None None
         (Some status) (Some (js_or result (VStr ""))) None (Some (Some now)))
      now (storage st) in
  match command with
  | Some command =>
      let '(_, s2) :=
        createActivity
          (Activity.mkInsert (VStr (Command.deviceId command)) "command"
                             (CommandStatus status (Command.command command))
                             status (ResponseDetails commandId result))
          now s1 in
      broadcastToClients (COMMAND_STATUS_CHANGED commandId status result) None
                         (set_storage s2 st)
  | None => set_storage s1 st
  end.

(** The body of [if (data.type === 'DEVICE_INFO' && clientInfo.deviceId)]. *)
Definition onDeviceInfo (ws : WebSocket) (data : Data.t) (st : Server) : Server :=
  match getDeviceByDeviceId (clientInfo_deviceId ws st) (storage st) with
  | Some device =>
      let '(_, s1) :=
        updateDevice (Device.id device) (Device.only_info (Data.info data)) (storage st) in
      broadcastToClients (DEVICE_INFO_UPDATED (clientInfo_deviceId ws st) (Data.info data))
                         None (set_storage s1 st)
  | None => st
  end.

(** [ws.on('message', async (message) => ...)] for a message that
    [JSON.parse] turned into an object. The three [if]s run in order. *)
Definition onMessage (ws : WebSocket) (data : Data.t) (now : Time) (st : Server) : Server :=
  let st :=
    if strict_eq_str (Data.type data) "AUTH" then onAuth ws data now st else st in
  let st :=
    if strict_eq_str (Data.type data) "COMMAND_RESPONSE"
       && truthy (clientInfo_deviceId ws st)
    then onCommandResponse data now st else st in
  if strict_eq_str (Data.type data) "DEVICE_INFO" && truthy (clientInfo_deviceId ws st)
  then onDeviceInfo ws data st else st.

(** [c => c.ws !== ws], through the reference. *)
Definition other_socket (st : Server) (ws : WebSocket) (r : nat) : bool :=
  match clientInfos st !! r with
  | Some c => negb (Nat.eqb (ConnectedClient.ws c) ws)
  | None => false
  end.

(** [ws.on('close', async () => ...)] *)
Definition onClose (ws : WebSocket) (now : Time) (st : Server) : Server :=
  let deviceId := clientInfo_deviceId ws st in
  let st :=
    if truthy deviceId then
      let '(_, s1) := updateDeviceStatus deviceId "offline" now (storage st) in
      let '(_, s2) :=
        createActivity
          (Activity.mkInsert deviceId "status" DeviceDisconnected (VStr "completed") NoDetails)
          now s1 in
      broadcastToClients (DEVICE_STATUS_CHANGED deviceId "offline") None (set_storage s2 st)
    else st in
  set_connectedClients (List.filter (other_socket st ws) (connectedClients st)) st.

(** ** Events and runs

    What the environment can do to the server. A handler exists only for a
    connection that was accepted, so an event naming any other socket does
    nothing. The transport sets [readyState] to [OPEN] before ['connection']
    and to [CLOSED] before ['close']; in between it may change it at will.
    Runs may hold more than [ws] emits (a message or a second ['close'] after
    a ['close']); what is proved of all runs is proved of the real ones. *)
Inductive Event :=
| Connection
| Incoming (ws : WebSocket) (data : Data.t) (now : Time)
| Unparsable (ws : WebSocket)
| Transport (ws : WebSocket) (rs : ReadyState)
| Close (ws : WebSocket) (now : Time)
| PostCommand (deviceId command : string) (parameters : JsVal) (now : Time)
| DeleteDevice (id : Z) (username : string) (now : Time).

Definition accepted (ws : WebSocket) (st : Server) : bool :=
  bool_decide (is_Some (clientInfos st !! ws)).

Definition step (e : Event) (st : Server) : Server :=
  match e with
  | Connection =>
      let ws := nextSocket st in
      onConnection ws
        (mkServer (storage st) (connectedClients st) (clientInfos st)
                  (<[ws := OPEN]> (sockets st)) (wire st) (S ws))
  | Incoming ws data now =>
      if accepted ws st then onMessage ws data now st else st
  | Unparsable ws => st
  | Transport ws rs =>
      if accepted ws st then set_sockets (<[ws := rs]> (sockets st)) st else st
  | Close ws now =>
      if accepted ws st
      then onClose ws now (set_sockets (<[ws := CLOSED]> (sockets st)) st)
      else st
  | PostCommand deviceId command parameters now =>
      (postCommand deviceId command parameters now st).2
  | DeleteDevice id username now =>
      (deleteDevice id username now st).2
  end.

Definition run (tr : list Event) (st : Server) : Server :=
  foldl (fun st e => step e st) st tr.

(** The server right after start-up, over the store [s]. *)
Definition boot (s : MemStorage) : Server :=
  mkServer s [] ∅ ∅ [] 0.

(** ** Auxiliary definitions for the statements *)

(** Well-formed device maps: every entry of [devices] is stored under its
    own [id], and no [id] occurs twice. Every method of [MemStorage] keeps
    it so. *)
Definition devices_wf (m : JsMap.t Device.t) : Prop :=
  NoDup (JsMap.keys m) ∧ Forall (fun kv => Device.id kv.2 = kv.1) m.

(** [(device) => device.deviceId === deviceId] *)
Definition same_device (deviceId : JsVal) (device : Device.t) : bool :=
  str_strict_eq (Device.deviceId device) deviceId.

(** The connections a broadcast writes to, in array order. *)
Definition recipients (excludeClient : option WebSocket) (st : Server)
  : list ConnectedClient.t :=
  List.filter
    (fun client => not_excluded (ConnectedClient.ws client) excludeClient
                   && is_open st (ConnectedClient.ws client))
    (clients st).

(** The frame [data] written to the socket of [client]. *)
Definition frame (data : Message) (client : ConnectedClient.t) : WebSocket * Message :=
  (ConnectedClient.ws client, data).

(** What a handler leaves alone. *)
Definition same_registry (st st' : Server) : Prop :=
  connectedClients st' = connectedClients st ∧
  clientInfos st' = clientInfos st ∧
  sockets st' = sockets st ∧
  nextSocket st' = nextSocket st.

(** [onAuth] changes the registry only through the two assignments. *)
Definition auth_binding (ws : WebSocket) (data : Data.t) (st : Server) : Server :=
  if truthy (Data.token data) then assign_deviceId ws (Data.deviceId data) st
  else if truthy (Data.userId data) then assign_userId ws (Data.userId data) st
  else st.

(** [onMessage] changes the registry only through [onAuth]. *)
Definition message_binding (ws : WebSocket) (data : Data.t) (st : Server) : Server :=
  if strict_eq_str (Data.type data) "AUTH" then auth_binding ws data st else st.

(** Invariants of the registry: reference [r] points to the [clientInfo] of
    socket [r]; sockets are numbered in the order their connections were
    accepted; the array holds live references only, in registration order. *)
Record registry_wf (st : Server) : Prop := mk_registry_wf {
  wf_ws : ∀ r c, clientInfos st !! r = Some c → ConnectedClient.ws c = r;
  wf_fresh : ∀ r, is_Some (clientInfos st !! r) → r < nextSocket st;
  wf_refs : ∀ r, r ∈ connectedClients st → is_Some (clientInfos st !! r);
  wf_sorted : StronglySorted lt (connectedClients st)
}.

(** ** The Connection Registry of the specification (section 4.1)

    Written from the specification's words, to compare the array of
    [routes.ts] against: a finite map from live handles to their device
    binding ([VUndefined] while unbound). [Register] hands out the next
    handle; [BindDevice] overwrites and does nothing for an unknown handle;
    [Unregister] removes the entry; a device is found when some live handle
    is bound to it. *)
Module RegistrySpec.
Record t := mk {
  live : gmap nat JsVal;
  next : nat
}.

Definition empty : t := mk ∅ 0.

Definition Register (r : t) : t :=
  mk (<[next r := VUndefined]> (live r)) (S (next r)).

Definition BindDevice (handle : nat) (deviceId : JsVal) (r : t) : t :=
  mk (alter (fun _ => deviceId) handle (live r)) (next r).

Definition Unregister (handle : nat) (r : t) : t :=
  mk (delete handle (live r)) (next r).

Definition bound (deviceId : string) (r : t) : Prop :=
  ∃ handle, live r !! handle = Some (VStr deviceId).
End RegistrySpec.

(** The registry operation each event stands for. *)
Definition registry_op (r : RegistrySpec.t) (e : Event) : RegistrySpec.t :=
  match e with
  | Connection => RegistrySpec.Register r
  | Incoming ws data _ =>
      if strict_eq_str (Data.type data) "AUTH" && truthy (Data.token data)
      then RegistrySpec.BindDevice ws (Data.deviceId data) r
      else r
  | Close ws _ => RegistrySpec.Unregister ws r
  | _ => r
  end.

Definition registry_of (tr : list Event) : RegistrySpec.t :=
  foldl registry_op RegistrySpec.empty tr.

(** The array of [st] holds exactly the live handles of [r], with the same
    bindings. *)
Definition registry_sim (st : Server) (r : RegistrySpec.t) : Prop :=
  RegistrySpec.next r = nextSocket st ∧
  ∀ h, RegistrySpec.live r !! h =
       if decide (h ∈ connectedClients st)
       then ConnectedClient.deviceId <$> clientInfos st !! h
       else None.

(** [client] is bound to the device [d]. *)
Definition bound_to (d : string) (client : ConnectedClient.t) : Prop :=
  ConnectedClient.deviceId client = VStr d.

(** The lookup policy the specification words: among the registered
    connections bound to a device, the lookup returns the one registered
    last. *)
Definition most_recent_wins (st : Server) : Prop :=
  ∀ d c c', findByDevice d st = Some c →
            c' ∈ clients st → bound_to d c' →
            (ConnectedClient.ws c' ≤ ConnectedClient.ws c)%nat.

(** The frames a handler wrote: what [wire] gained from [st] to [st']. *)
Definition written (st st' : Server) : list (WebSocket * Message) :=
  drop (length (wire st)) (wire st').

(** The frames of a log that went to socket [w]. *)
Definition frames_to (w : WebSocket) (log : list (WebSocket * Message))
  : list (WebSocket * Message) :=
  List.filter (fun f => Nat.eqb f.1 w) log.

(** ** Concrete scenarios *)

Definition auth_device (d : string) : Data.t :=
  Data.mk (VStr "AUTH") (VStr "secret") (VStr d)
          VUndefined VUndefined VUndefined VUndefined VUndefined.

Definition auth_user (u : Z) : Data.t :=
  Data.mk (VStr "AUTH") VUndefined VUndefined (VNum u)
          VUndefined VUndefined VUndefined VUndefined.

Definition command_response (id : Z) (status result : string) : Data.t :=
  Data.mk (VStr "COMMAND_RESPONSE") VUndefined VUndefined VUndefined
          (VNum id) (VStr status) (VStr result) VUndefined.

Definition device_info (info : JsVal) : Data.t :=
  Data.mk (VStr "DEVICE_INFO") VUndefined VUndefined VUndefined
          VUndefined VUndefined VUndefined info.

Definition device_D1 (status : string) : Device.t :=
  Device.mk 1 "D1" "laptop" "windows" "Windows 11" None None status 0%Z None 0%Z
            (VObj "{}").

(** A store holding the one device [D1]. *)
Definition store_D1 (status : string) : MemStorage :=
  mkStorage [(1%Z, device_D1 status)] [] [] 2 1 1.

(** Two connections that both authenticate as [D1]. *)
Definition two_bound : list Event :=
  [Connection; Connection;
   Incoming 0 (auth_device "D1") 10%Z; Incoming 1 (auth_device "D1") 11%Z].

(** A dashboard on socket 0, the device [D1] on socket 1, a second dashboard
    on socket 2 whose socket is no longer open. *)
Definition three_clients : list Event :=
  [Connection; Connection; Connection;
   Incoming 0 (auth_user 7) 10%Z; Incoming 1 (auth_device "D1") 11%Z;
   Transport 2 CLOSING].

(** A dashboard on socket 0; the store says [D1] is online but no
    connection is bound to it. *)
Definition lone_dashboard : Server :=
  run [Connection; Incoming 0 (auth_user 7) 10%Z] (boot (store_D1 "online")).

(** The statements of the specification that the handlers are checked
    against, each as one proposition. *)



(** "Terminal states are final": no event changes a stored command whose
    status is [completed] or [failed]. *)
Definition terminal_states_final : Prop :=
  ∀ (s : MemStorage) (tr : list Event) (e : Event) (id : Z) (c : Command.t),
    let st := run tr (boot s) in
    getCommandById (VNum id) (storage st) = Some c →
    terminal_status (Command.status c) = true →
    getCommandById (VNum id) (storage (step e st)) = Some c.

(** "Every info update sets [lastActive] to the current time". *)
Definition info_update_sets_lastActive : Prop :=
  ∀ (s : MemStorage) (tr : list Event) (ws : WebSocket) (data : Data.t) (now : Time)
    (device : Device.t),
    let st := run tr (boot s) in
    devices_wf (devices s) →
    accepted ws st = true →
    Data.type data = VStr "DEVICE_INFO" →
    truthy (clientInfo_deviceId ws st) = true →
    getDeviceByDeviceId (clientInfo_deviceId ws st) (storage st) = Some device →
    ∃ device',
      getDeviceByDeviceId (clientInfo_deviceId ws st)
                          (storage (step (Incoming ws data now) st)) = Some device' ∧
      Device.lastActive device' = now.

(** "After an AUTH with a token, [sendToDevice] to that open connection
    returns [true]", in the case where no Device record matches. *)
Definition auth_makes_addressable : Prop :=
  ∀ (s : MemStorage) (tr : list Event) (ws : WebSocket) (data : Data.t) (now : Time)
    (d : string) (m : Message),
    let st := run tr (boot s) in
    ws ∈ connectedClients st →
    Data.type data = VStr "AUTH" → truthy (Data.token data) = true →
    Data.deviceId data = VStr d →
    getDeviceByDeviceId (VStr d) (storage st) = None →
    is_open st ws = true →
    (sendToDevice d m (step (Incoming ws data now) st)).1 = true.

(** The transport under [ws.send]. [ws.send(data)] is called with no
    callback and nothing it returns is looked at, so whether the write of a
    frame handed to socket [w] succeeds is known to the transport only; a
    failed write shows later, as an event on the socket. *)
Definition WriteOutcome := WebSocket → bool.

(** The frames handed over from [st] to [st'] whose write succeeded. *)
Definition succeeded (transport : WriteOutcome) (st st' : Server)
  : list (WebSocket * Message) :=
  List.filter (fun f => transport f.1) (written st st').

(** "[sendToDevice] returns [true] only when the write to that connection's
    transport succeeds". *)
Definition true_only_when_write_succeeds : Prop :=
  ∀ (s : MemStorage) (tr : list Event) (transport : WriteOutcome) (d : string)
    (data : Message),
    let st := run tr (boot s) in
    (sendToDevice d data st).1 = true →
    ∃ c, findByDevice d st = Some c ∧
         succeeded transport st (sendToDevice d data st).2
         = [(ConnectedClient.ws c, data)].

(** The device [D1] on socket 1 behind a dashboard on socket 0; the socket
    of the device has left [OPEN] but ['close'] has not fired yet. *)
Definition closing_device : list Event :=
  [Connection; Connection;
   Incoming 0 (auth_user 7) 10%Z; Incoming 1 (auth_device "D1") 11%Z;
   Transport 1 CLOSING].

(** The device [D1] answered command 1 with [completed]. *)
Definition answered : list Event :=
  [Connection; Connection;
   Incoming 0 (auth_user 7) 10%Z; Incoming 1 (auth_device "D1") 11%Z;
   PostCommand "D1" "ping" VUndefined 20%Z;
   Incoming 1 (command_response 1 "completed" "pong") 30%Z].

(** Socket 0 authenticated as [ghost], a device the store does not know,
    and its socket has left [OPEN]; socket 1 is a fresh connection. *)
Definition stale_ghost : list Event :=
  [Connection; Connection; Incoming 0 (auth_device "ghost") 10%Z; Transport 0 CLOSING].

(** A dashboard on socket 0 and, on socket 1, a connection authenticated as
    [ghost], a device the store does not know. *)
Definition ghost_device : list Event :=
  [Connection; Connection;
   Incoming 0 (auth_user 7) 10%Z; Incoming 1 (auth_device "ghost") 11%Z].

(** * The rest of [storage.ts] and [routes.ts] *)

(** ** Identifiers

    Every key of a map is below the counter that hands out its ids. With
    [devices_wf] this is what [new MemStorage()] establishes and every
    method keeps. *)
Definition keys_below {V} (n : Z) (m : JsMap.t V) : Prop :=
  Forall (fun k => (k < n)%Z) (JsMap.keys m).

Definition ids_fresh (s : MemStorage) : Prop :=
  keys_below (currentId_devices s) (devices s) ∧
  keys_below (currentId_commands s) (commands s) ∧
  keys_below (currentId_activities s) (activities s).

Definition storage_wf (s : MemStorage) : Prop :=
  devices_wf (devices s) ∧ ids_fresh s.

(** ** Queries of [MemStorage] *)

Definition getDeviceByRegistrationCode (code : string) (s : MemStorage)
  : option Device.t :=
  List.find (fun device => bool_decide (Device.registrationCode device = Some code))
            (JsMap.values (devices s)).

Definition getCommandsByDeviceId (deviceId : JsVal) (s : MemStorage) : list Command.t :=
  List.filter (fun command => str_strict_eq (Command.deviceId command) deviceId)
              (JsMap.values (commands s)).

(** [Array.prototype.sort(compare)]: the sort is stable, so for a consistent
    comparator its result is the stable sort, written here as insertion from
    the right: an element goes before the first one it does not compare
    greater than. *)
Fixpoint sort_insert {A} (compare : A → A → Z) (x : A) (l : list A) : list A :=
  match l with
  | [] => [x]
  | y :: l' =>
      if (compare x y <=? 0)%Z then x :: y :: l' else y :: sort_insert compare x l'
  end.

Definition js_sort {A} (compare : A → A → Z) (l : list A) : list A :=
  foldr (sort_insert compare) [] l.

(** [array.slice(0, end)] for an integer [end]: a negative [end] counts from
    the end of the array. *)
Definition slice0 {A} (end_ : Z) (l : list A) : list A :=
  let len := Z.of_nat (length l) in
  let k := if (end_ <? 0)%Z then Z.max (len + end_) 0 else Z.min end_ len in
  take (Z.to_nat k) l.

(** The optional [limit?: number]: absent, [NaN] (what [parseInt] gives for
    text that is no number) or an integer. *)
Inductive Limit :=
| NoLimit
| LimitNaN
| LimitNum (n : Z).

(** [if (limit)] *)
Definition limit_truthy (limit : Limit) : bool :=
  match limit with
  | LimitNum n => negb (n =? 0)%Z
  | _ => false
  end.

(** [(a, b) => new Date(b.createdAt).getTime() - new Date(a.createdAt).getTime()] *)
Definition newest_first (a b : Activity.t) : Z :=
  (Activity.createdAt b - Activity.createdAt a)%Z.

Definition getAllActivities (limit : Limit) (s : MemStorage) : list Activity.t :=
  let sorted := js_sort newest_first (JsMap.values (activities s)) in
  match limit with
  | LimitNum n => if limit_truthy limit then slice0 n sorted else sorted
  | _ => sorted
  end.

(** [a === b] for two values that did not come out of the same parse: an
    object or an array is identical to itself only. *)
Definition strict_eq (a b : JsVal) : bool :=
  match a, b with
  | VUndefined, VUndefined => true
  | VNull, VNull => true
  | VBool x, VBool y => Bool.eqb x y
  | VNum x, VNum y => (x =? y)%Z
  | VStr x, VStr y => String.eqb x y
  | _, _ => false
  end.

Definition getActivitiesByDeviceId (deviceId : JsVal) (s : MemStorage)
  : list Activity.t :=
  js_sort newest_first
    (List.filter (fun activity => strict_eq (Activity.deviceId activity) deviceId)
                 (JsMap.values (activities s))).

(** [a] was created no earlier than [b]. *)
Definition not_older (a b : Activity.t) : Prop :=
  (Activity.createdAt b ≤ Activity.createdAt a)%Z.

(** [a] was created at the instant [t]. *)
Definition created_at (t : Time) (a : Activity.t) : bool :=
  (Activity.createdAt a =? t)%Z.

(** ** The read-only routes *)

(** [GET /api/commands]: [deviceId] is [req.query.deviceId]. *)
Definition getCommands (deviceId : JsVal) (st : Server) : list Command.t :=
  if truthy deviceId then getCommandsByDeviceId deviceId (storage st)
  else getAllCommands (storage st).

(** [GET /api/activities]: [limit] is [req.query.limit] after [parseInt]
    ([NoLimit] when the query has none or an empty one), [deviceId] is
    [req.query.deviceId]. *)
Definition getActivities (limit : Limit) (deviceId : JsVal) (st : Server)
  : list Activity.t :=
  if truthy deviceId then getActivitiesByDeviceId deviceId (storage st)
  else getAllActivities limit (storage st).

(** [c => c.status === "pending"] *)
Definition is_pending (c : Command.t) : bool := strict_eq_str (Command.status c) "pending".

(** [GET /api/stats] *)
Record Stats := mkStats {
  totalDevices : nat;
  onlineDevices : nat;
  offlineDevices : nat;
  pendingCommands : nat
}.

Definition getStats (st : Server) : Stats :=
  let devices := getAllDevices (storage st) in
  let commands := getAllCommands (storage st) in
  mkStats (length devices)
          (length (List.filter (fun d => String.eqb (Device.status d) "online") devices))
          (length (List.filter (fun d => String.eqb (Device.status d) "offline") devices))
          (length (List.filter is_pending commands)).

(** The two statuses the server itself ever writes. *)
Definition status_known (device : Device.t) : Prop :=
  Device.status device = "online" ∨ Device.status device = "offline".

(** Socket [w] belongs to a registered connection and is open. *)
Definition open_registered (st : Server) (w : WebSocket) : Prop :=
  w ∈ (ConnectedClient.ws <$> clients st) ∧ is_open st w = true.

(** From [st] to [st'] the wire only grew, by frames for sockets that were
    registered and open in [st]. *)
Definition writes_only_to_open (st st' : Server) : Prop :=
  ∃ l, wire st' = wire st ++ l ∧ Forall (fun f => open_registered st f.1) l.

(** [st'] has the sockets of [st], in the same states, behind the same
    array positions. *)
Definition same_sockets (st st' : Server) : Prop :=
  sockets st' = sockets st ∧
  ConnectedClient.ws <$> clients st' = ConnectedClient.ws <$> clients st.

(** ** Registration codes

    The [registrationCodes] map of [MemStorage] with its counter; no method
    touches it together with another map. *)
Module RegistrationCode.
Record t := mk {
  id : Z;
  code : string;
  expiresAt : Time;
  isUsed : bool;
  createdAt : Time
}.

(** [InsertRegistrationCode] *)
Record insert := mkInsert {
  i_code : string;
  i_expiresAt : Time
}.

(** [{ ...regCode, isUsed: true }] *)
Definition used (regCode : t) : t :=
  mk (id regCode) (code regCode) (expiresAt regCode) true (createdAt regCode).
End RegistrationCode.

Record CodeStore := mkCodeStore {
  registrationCodes : JsMap.t RegistrationCode.t;
  currentId_registrationCodes : Z
}.

Definition newCodeStore : CodeStore := mkCodeStore JsMap.empty 1.

Definition createRegistrationCode (code : RegistrationCode.insert) (now : Time)
  (cs : CodeStore) : RegistrationCode.t * CodeStore :=
  let id := currentId_registrationCodes cs in
  let newCode :=
    RegistrationCode.mk id (RegistrationCode.i_code code)
                        (RegistrationCode.i_expiresAt code) false now in
  (newCode, mkCodeStore (JsMap.set id newCode (registrationCodes cs)) (id + 1)).

(** [regCode.code === code && !regCode.isUsed &&
     new Date(regCode.expiresAt) > new Date()] *)
Definition redeemable (code : string) (now : Time) (regCode : RegistrationCode.t) : bool :=
  String.eqb (RegistrationCode.code regCode) code
  && negb (RegistrationCode.isUsed regCode)
  && (now <? RegistrationCode.expiresAt regCode)%Z.

Definition getRegistrationCodeByCode (code : string) (now : Time) (cs : CodeStore)
  : option RegistrationCode.t :=
  List.find (redeemable code now) (JsMap.values (registrationCodes cs)).

Definition markRegistrationCodeAsUsed (code : string) (cs : CodeStore)
  : option RegistrationCode.t * CodeStore :=
  match List.find (fun regCode => String.eqb (RegistrationCode.code regCode) code)
                  (JsMap.values (registrationCodes cs)) with
  | None => (None, cs)
  | Some regCode =>
      let updatedCode := RegistrationCode.used regCode in
      (Some updatedCode,
       mkCodeStore (JsMap.set (RegistrationCode.id regCode) updatedCode
                              (registrationCodes cs))
                   (currentId_registrationCodes cs))
  end.

(** Codes are stored under their own id, no id twice, ids below the counter. *)
Definition codes_wf (cs : CodeStore) : Prop :=
  NoDup (JsMap.keys (registrationCodes cs)) ∧
  Forall (fun kv => RegistrationCode.id kv.2 = kv.1) (registrationCodes cs) ∧
  keys_below (currentId_registrationCodes cs) (registrationCodes cs).

(** No stored record carries the code [c]. *)
Definition code_unknown (c : string) (cs : CodeStore) : Prop :=
  Forall (fun r => RegistrationCode.code r ≠ c) (JsMap.values (registrationCodes cs)).

(** ** [generateRegistrationCode]

    A byte is a number below 256. [randomBytes i] is what the [i]-th call
    [randomBytes(segmentLength)] returned. *)
Definition hex_digit (n : N) : Ascii.ascii :=
  match String.get (N.to_nat n) "0123456789abcdef" with
  | Some c => c
  | None => Ascii.zero
  end.

(** [buffer.toString('hex')] *)
Fixpoint toString_hex (bytes : list N) : string :=
  match bytes with
  | [] => ""
  | b :: bytes' =>
      String.String (hex_digit (b / 16)) (String.String (hex_digit (b mod 16)) (toString_hex bytes'))
  end.

(** [toUpperCase] on a character of the ASCII range, which is all that
    [toString('hex')] produces. *)
Definition upper_char (c : Ascii.ascii) : Ascii.ascii :=
  let n := Ascii.nat_of_ascii c in
  if (97 <=? n)%nat && (n <=? 122)%nat then Ascii.ascii_of_nat (n - 32) else c.

Fixpoint toUpperCase (s : string) : string :=
  match s with
  | String.EmptyString => String.EmptyString
  | String.String c s' => String.String (upper_char c) (toUpperCase s')
  end.

Definition segments : nat := 4.
Definition segmentLength : nat := 4.

Definition generateRegistrationCode (randomBytes : nat → list N) : string :=
  let segments_arr :=
    (fun i => String.substring 0 segmentLength (toUpperCase (toString_hex (randomBytes i))))
      <$> seq 0 segments in
  String.concat "-" segments_arr.

(** [c] is one of [0-9A-F]. *)
Definition is_upper_hex (c : Ascii.ascii) : bool :=
  bool_decide (c ∈ String.list_ascii_of_string "0123456789ABCDEF").

(** The draws are what [randomBytes(4)] returns: four bytes each. *)
Definition four_bytes (randomBytes : nat → list N) : Prop :=
  ∀ i, (i < segments)%nat →
       length (randomBytes i) = segmentLength ∧ Forall (fun b => (b < 256)%N) (randomBytes i).

(** The value of a character of [0-9A-F]. *)
Definition unhex (c : Ascii.ascii) : N :=
  let k := Ascii.nat_of_ascii c in
  N.of_nat (if (k <? 58)%nat then k - 48 else k - 55).

(** The [i]-th entry of [segments_arr]. *)
Definition segment (randomBytes : nat → list N) (i : nat) : string :=
  String.substring 0 segmentLength (toUpperCase (toString_hex (randomBytes i))).

(** ** Users: the [users] map of [MemStorage] and [POST /api/register]

    The [users] map with its counter; no method touches it together with
    another map. The fields of a user are kept with their dynamic type: the
    register route stores what the request body carries, unchecked. *)
Module User.
(** [InsertUser] *)
Record insert := mkInsert {
  i_username : JsVal;
  i_password : JsVal;
  i_name : JsVal
}.

Record t := mk {
  username : JsVal;
  password : JsVal;
  name : JsVal;
  id : Z;
  role : string
}.

(** [{ ...user }] after [delete userWithoutPassword.password] *)
Record public := mkPublic {
  p_username : JsVal;
  p_name : JsVal;
  p_id : Z;
  p_role : string
}.

Definition without_password (user : t) : public :=
  mkPublic (username user) (name user) (id user) (role user).
End User.

Record UserStore := mkUserStore {
  users : JsMap.t User.t;
  currentId_users : Z
}.

(** [{ ...insertUser, id, role: "user" }] stored under [id]. *)
Definition createUser (insertUser : User.insert) (us : UserStore) : User.t * UserStore :=
  let id := currentId_users us in
  let user :=
    User.mk (User.i_username insertUser) (User.i_password insertUser)
            (User.i_name insertUser) id "user" in
  (user, mkUserStore (JsMap.set id user (users us)) (id + 1)).

Definition getUser (id : Z) (us : UserStore) : option User.t :=
  JsMap.get id (users us).

Definition getUserByUsername (username : JsVal) (us : UserStore) : option User.t :=
  List.find (fun user => strict_eq (User.username user) username)
            (JsMap.values (users us)).

Definition admin : User.insert :=
  User.mkInsert (VStr "admin") (VStr "admin123") (VStr "Admin User").

(** The user part of [new MemStorage()]: the body of [createUser] has no
    [await], so the default user is stored when the constructor returns. *)
Definition newUserStore : UserStore := (createUser admin (mkUserStore JsMap.empty 1)).2.

Inductive RegisterResponse :=
| BadRequest (message : string)
| Registered (userWithoutPassword : User.public)
| Failed.

(** [POST /api/register] up to [await hashPassword(password)]: the message
    of the 400 answer, if any. The fields are those of [req.body], an absent
    one being [VUndefined]. *)
Definition register_check (username password : JsVal) (us : UserStore) : option string :=
  if negb (truthy username) || negb (truthy password)
  then Some "Username and password are required"
  else match getUserByUsername username us with
       | Some _ => Some "Username already exists"
       | None => None
       end.

(** [POST /api/register] from the moment [hashPassword] has returned
    [hashedPassword]; [login] tells whether [req.login] called back without
    an error. *)
Definition register_create (username name : JsVal) (hashedPassword : string)
  (login : bool) (us : UserStore) : RegisterResponse * UserStore :=
  let '(user, us') :=
    createUser (User.mkInsert username (VStr hashedPassword) (js_or name username)) us in
  (if login then Registered (User.without_password user) else Failed, us').

(** The whole handler with no other request in between; [hashed] is what
    [hashPassword(password)] returned, [None] when it threw. *)
Definition register (username password name : JsVal) (hashed : option string)
  (login : bool) (us : UserStore) : RegisterResponse * UserStore :=
  match register_check username password us with
  | Some message => (BadRequest message, us)
  | None =>
      match hashed with
      | None => (Failed, us)
      | Some hashedPassword => register_create username name hashedPassword login us
      end
  end.

Record RegisterRequest := mkRegisterRequest {
  r_username : JsVal;
  r_password : JsVal;
  r_name : JsVal;
  r_hashed : option string;
  r_login : bool
}.

Definition register_step (us : UserStore) (r : RegisterRequest) : UserStore :=
  (register (r_username r) (r_password r) (r_name r) (r_hashed r) (r_login r) us).2.

(** Requests handled one after the other. *)
Definition register_run (rs : list RegisterRequest) (us : UserStore) : UserStore :=
  foldl register_step us rs.

(** Users are stored under their own id with the role [user], no id twice,
    ids below the counter. *)
Definition users_wf (us : UserStore) : Prop :=
  NoDup (JsMap.keys (users us)) ∧
  Forall (fun kv => User.id kv.2 = kv.1 ∧ User.role kv.2 = "user") (users us) ∧
  keys_below (currentId_users us) (users us).

(** No two stored users have identical ([===]) usernames. *)
Definition usernames_distinct (us : UserStore) : Prop :=
  ∀ i j u v,
    JsMap.values (users us) !! i = Some u →
    JsMap.values (users us) !! j = Some v →
    strict_eq (User.username u) (User.username v) = true → i = j.

(** ** The dashboard's [SocketClient]: the handler table

    [messageHandlers] is a [Map] from the message type to an array of
    handlers, read and written by key only. A handler is a function object;
    [h !== handler] compares identities, which the number stands for. *)
Module SocketClient.

Definition Handler := nat.

Definition t := gmap string (list Handler).

(** [this.messageHandlers.get(type) || []]: an array is truthy, also when
    empty. *)
Definition handlers_of (type : string) (messageHandlers : t) : list Handler :=
  default [] (messageHandlers !! type).

(** [on(type, handler)], the state it leaves. *)
Definition on (type : string) (handler : Handler) (messageHandlers : t) : t :=
  <[type := handlers_of type messageHandlers ++ [handler]]> messageHandlers.

(** The function [on(type, handler)] returns, called in the state
    [messageHandlers]. *)
Definition unsubscribe (type : string) (handler : Handler) (messageHandlers : t) : t :=
  <[type := List.filter (fun h => negb (Nat.eqb h handler)) (handlers_of type messageHandlers)]>
    messageHandlers.

(** [handleMessage(message)]: the handlers called with the message, in the
    order of the calls. *)
Definition handleMessage (type : string) (messageHandlers : t) : list Handler :=
  handlers_of type messageHandlers.

(** [this.messageHandlers.clear()] of [close()]. *)
Definition close (messageHandlers : t) : t := ∅.

End SocketClient.

(** * Properties *)

(** ** Facts about [JsMap] *)

Section JsMapFacts.
Context {V : Type}.
Implicit Types (m : JsMap.t V) (k : Z) (v : V).

Lemma JsMap_get_set_eq m k v : JsMap.get k (JsMap.set k v m) = Some v.
Proof.
  induction m as [|[k' v'] m IH]; simpl.
  - by rewrite Z.eqb_refl.
  - destruct (k' =? k)%Z eqn:E; simpl.
    + by rewrite Z.eqb_refl.
    + by rewrite E.
Qed.

Lemma JsMap_get_set_ne m k k' v :
  k ≠ k' → JsMap.get k' (JsMap.set k v m) = JsMap.get k' m.
Proof.
  intros Hne. induction m as [|[k0 v0] m IH]; simpl.
  - destruct (k =? k')%Z eqn:E; [apply Z.eqb_eq in E; done | done].
  - destruct (k0 =? k)%Z eqn:E; simpl.
    + apply Z.eqb_eq in E. subst k0.
      destruct (k =? k')%Z eqn:E'; [apply Z.eqb_eq in E'; done | done].
    + by rewrite IH.
Qed.

Lemma JsMap_get_Some_key m k v : JsMap.get k m = Some v → (k, v) ∈ m.
Proof.
  induction m as [|[k' v'] m IH]; simpl; [done|].
  destruct (k' =? k)%Z eqn:E.
  - apply Z.eqb_eq in E. intros [= ->]. subst. by left.
  - intros H. right. by apply IH.
Qed.

Lemma JsMap_keys_set_present m k v v0 :
  JsMap.get k m = Some v0 → JsMap.keys (JsMap.set k v m) = JsMap.keys m.
Proof.
  unfold JsMap.keys. induction m as [|[k' v'] m IH]; simpl; [done|].
  destruct (k' =? k)%Z eqn:E; csimpl.
  - apply Z.eqb_eq in E. by subst.
  - intros H. f_equal. by apply IH.
Qed.

Lemma JsMap_get_None_not_key m k : JsMap.get k m = None → k ∉ JsMap.keys m.
Proof.
  unfold JsMap.keys. induction m as [|[k' v'] m IH]; simpl.
  - intros _. apply not_elem_of_nil.
  - destruct (k' =? k)%Z eqn:E; [done|].
    intros H. apply not_elem_of_cons. split; [|by apply IH].
    intros ->. by rewrite Z.eqb_refl in E.
Qed.

Lemma JsMap_keys_set_absent m k v :
  JsMap.get k m = None → JsMap.keys (JsMap.set k v m) = JsMap.keys m ++ [k].
Proof.
  unfold JsMap.keys. induction m as [|[k' v'] m IH]; simpl; [done|].
  destruct (k' =? k)%Z eqn:E; [done|].
  intros H. csimpl. f_equal. by apply IH.
Qed.

Lemma JsMap_keys_delete_sublist m k :
  sublist (JsMap.keys (JsMap.delete k m)) (JsMap.keys m).
Proof.
  unfold JsMap.keys. induction m as [|[k' v'] m IH]; simpl; [done|].
  destruct (k' =? k)%Z; simpl.
  - by apply sublist_cons.
  - by apply sublist_skip.
Qed.

Lemma JsMap_set_Forall (P : Z * V → Prop) m k v :
  Forall P m → P (k, v) → Forall P (JsMap.set k v m).
Proof.
  intros Hm Hk. induction Hm as [|[k' v'] m Hx Hm IH]; simpl.
  - by constructor.
  - destruct (k' =? k)%Z; by constructor.
Qed.

End JsMapFacts.

(** ** Well-formed device maps *)

(** Closes [devices_wf] of a concrete device map. *)
Ltac concrete_devices_wf :=
  split; vm_compute; repeat constructor;
  let H := fresh in intros H; inversion H.

Lemma devices_wf_nil : devices_wf [].
Proof. split; constructor. Qed.

Lemma devices_wf_set m k v :
  devices_wf m → Device.id v = k → devices_wf (JsMap.set k v m).
Proof.
  intros [Hnd Hid] Hk. split.
  - destruct (JsMap.get k m) as [v0|] eqn:E.
    + by rewrite (JsMap_keys_set_present _ _ _ _ E).
    + rewrite (JsMap_keys_set_absent _ _ _ E).
      apply NoDup_app. split; [done|]. split; [|apply NoDup_singleton].
      intros x Hx ->%list_elem_of_singleton.
      by apply JsMap_get_None_not_key in E.
  - by apply JsMap_set_Forall.
Qed.

Lemma devices_wf_delete m k : devices_wf m → devices_wf (JsMap.delete k m).
Proof.
  intros [Hnd Hid]. split.
  - eapply sublist_NoDup; [done | apply JsMap_keys_delete_sublist].
  - clear Hnd. induction Hid as [|[k' v'] m Hx Hm IH]; simpl; [constructor|].
    destruct (k' =? k)%Z; [done | by constructor].
Qed.

(** After [devices.set(device.id, updated)] the lookup by [deviceId] returns
    the updated record, provided the update keeps the [deviceId]. *)
Lemma find_device_after_set (m : JsMap.t Device.t) deviceId device updated :
  devices_wf m →
  List.find (same_device deviceId) (JsMap.values m) = Some device →
  same_device deviceId updated = true →
  List.find (same_device deviceId) (JsMap.values (JsMap.set (Device.id device) updated m))
  = Some updated.
Proof.
  unfold JsMap.values. intros [Hnd Hid] Hf Hup.
  induction m as [|[k v] m IH]; simpl in *; [done|].
  apply NoDup_cons in Hnd as [Hk Hnd]. apply Forall_cons in Hid as [Hkv Hid].
  simpl in Hkv. destruct (same_device deviceId v) eqn:E.
  - injection Hf as ->. subst k. rewrite Z.eqb_refl. simpl. by rewrite Hup.
  - destruct (k =? Device.id device)%Z eqn:Ek.
    + apply Z.eqb_eq in Ek. exfalso. apply Hk. rewrite Ek.
      clear -Hf Hid. unfold JsMap.keys.
      induction Hid as [|[k' v'] m Hk' Hm IH]; simpl in *; [done|].
      destruct (same_device deviceId v').
      * injection Hf as ->. rewrite Hk'. by left.
      * right. by apply IH.
    + simpl. rewrite E. by apply IH.
Qed.


(** ** The broadcaster and the router, in closed form *)

Lemma broadcast_fold data excludeClient (l : list ConnectedClient.t) : ∀ st,
  foldl (fun st' client =>
           if not_excluded (ConnectedClient.ws client) excludeClient
              && is_open st' (ConnectedClient.ws client)
           then send (ConnectedClient.ws client) data st'
           else st') st l
  = mkServer (storage st) (connectedClients st) (clientInfos st) (sockets st)
      (wire st ++
         (frame data <$> List.filter
            (fun client => not_excluded (ConnectedClient.ws client) excludeClient
                           && is_open st (ConnectedClient.ws client)) l))
      (nextSocket st).
Proof.
  induction l as [|c l IH]; intros st; simpl.
  - rewrite app_nil_r. by destruct st.
  - destruct (not_excluded _ _ && is_open st _) eqn:E.
    + rewrite IH. simpl. rewrite <- app_assoc. reflexivity.
    + apply IH.
Qed.

Lemma broadcastToClients_eq data excludeClient st :
  broadcastToClients data excludeClient st
  = mkServer (storage st) (connectedClients st) (clientInfos st) (sockets st)
      (wire st ++ (frame data <$> recipients excludeClient st)) (nextSocket st).
Proof. apply broadcast_fold. Qed.

Lemma same_registry_refl st : same_registry st st.
Proof. by repeat split. Qed.

Lemma same_registry_trans st1 st2 st3 :
  same_registry st1 st2 → same_registry st2 st3 → same_registry st1 st3.
Proof. intros (?&?&?&?) (?&?&?&?). repeat split; congruence. Qed.

Lemma same_registry_clients st st' : same_registry st st' → clients st' = clients st.
Proof. intros (H1&H2&_). unfold clients. by rewrite H1, H2. Qed.

Lemma same_registry_find st st' d :
  same_registry st st' → findByDevice d st' = findByDevice d st.
Proof. intros H. unfold findByDevice. by rewrite (same_registry_clients _ _ H). Qed.

Lemma same_registry_is_open st st' w :
  same_registry st st' → is_open st' w = is_open st w.
Proof. intros (_&_&H&_). unfold is_open, readyState. by rewrite H. Qed.

Lemma same_registry_recipients st st' x :
  same_registry st st' → recipients x st' = recipients x st.
Proof.
  intros H. unfold recipients. rewrite (same_registry_clients _ _ H).
  apply List.filter_ext. intros c. by rewrite (same_registry_is_open _ _ _ H).
Qed.

Lemma set_storage_same_registry s st : same_registry st (set_storage s st).
Proof. by repeat split. Qed.

Lemma broadcast_same_registry data x st :
  same_registry st (broadcastToClients data x st).
Proof. rewrite broadcastToClients_eq. by repeat split. Qed.

Lemma broadcast_storage data x st :
  storage (broadcastToClients data x st) = storage st.
Proof. by rewrite broadcastToClients_eq. Qed.

Lemma broadcast_wire data x st :
  wire (broadcastToClients data x st) = wire st ++ (frame data <$> recipients x st).
Proof. by rewrite broadcastToClients_eq. Qed.

Lemma sendToDevice_same_registry d data st :
  same_registry st (sendToDevice d data st).2.
Proof.
  unfold sendToDevice. destruct (findByDevice d st); [|apply same_registry_refl].
  destruct (is_open st _); by repeat split.
Qed.

Lemma sendToDevice_storage d data st :
  storage (sendToDevice d data st).2 = storage st.
Proof.
  unfold sendToDevice. destruct (findByDevice d st); [|done].
  by destruct (is_open st _).
Qed.

Lemma same_registry_if (b : bool) (f : Server → Server) st :
  same_registry st (f st) → same_registry st (if b then f st else st).
Proof. destruct b; [done | intros _; apply same_registry_refl]. Qed.

Lemma postCommand_same_registry d c p now st :
  same_registry st (postCommand d c p now st).2.
Proof.
  unfold postCommand.
  destruct (getDeviceByDeviceId _ _); [|apply same_registry_refl].
  destruct (createCommand _ _ _) as [nc s1]. destruct (createActivity _ _ _) as [a s2].
  pose proof (sendToDevice_same_registry d (COMMAND nc) (set_storage s2 st)) as Hs.
  destruct (sendToDevice _ _ _) as [delivered st1]. simpl in *.
  assert (same_registry st st1) as H1.
  { eapply same_registry_trans; [apply set_storage_same_registry | exact Hs]. }
  destruct (negb delivered && _); [|done].
  destruct (updateDeviceStatus _ _ _ _) as [o s3].
  eapply same_registry_trans; [exact H1|].
  eapply same_registry_trans; [apply set_storage_same_registry | apply broadcast_same_registry].
Qed.

Lemma deleteDevice_same_registry id u now st :
  same_registry st (deleteDevice id u now st).2.
Proof.
  unfold deleteDevice. destruct (getDeviceById _ _); [|apply same_registry_refl].
  destruct (removeDevice _ _) as [b s1]. destruct (createActivity _ _ _) as [a s2]. simpl.
  eapply same_registry_trans; [apply set_storage_same_registry | apply broadcast_same_registry].
Qed.

Lemma onCommandResponse_same_registry data now st :
  same_registry st (onCommandResponse data now st).
Proof.
  unfold onCommandResponse. destruct (updateCommand _ _ _ _) as [[c|] s1].
  - destruct (createActivity _ _ _) as [a s2].
    eapply same_registry_trans; [apply set_storage_same_registry | apply broadcast_same_registry].
  - apply set_storage_same_registry.
Qed.

Lemma onDeviceInfo_same_registry ws data st :
  same_registry st (onDeviceInfo ws data st).
Proof.
  unfold onDeviceInfo. destruct (getDeviceByDeviceId _ _); [|apply same_registry_refl].
  destruct (updateDevice _ _ _) as [o s1].
  eapply same_registry_trans; [apply set_storage_same_registry | apply broadcast_same_registry].
Qed.

Lemma onAuth_same_registry ws data now st :
  same_registry (auth_binding ws data st) (onAuth ws data now st).
Proof.
  unfold onAuth, auth_binding. destruct (truthy (Data.token data)).
  - destruct (getDeviceByDeviceId _ _); [|apply same_registry_refl].
    destruct (updateDeviceStatus _ _ _ _) as [o s1].
    destruct (createActivity _ _ _) as [a s2].
    eapply same_registry_trans; [apply set_storage_same_registry | apply broadcast_same_registry].
  - destruct (truthy (Data.userId data)); apply same_registry_refl.
Qed.

Lemma onMessage_same_registry ws data now st :
  same_registry (message_binding ws data st) (onMessage ws data now st).
Proof.
  unfold onMessage, message_binding. cbv zeta.
  eapply same_registry_trans;
    [| apply (same_registry_if _ (onDeviceInfo ws data)), onDeviceInfo_same_registry].
  eapply same_registry_trans;
    [| apply (same_registry_if _ (onCommandResponse data now)),
         onCommandResponse_same_registry].
  destruct (strict_eq_str _ _); [apply onAuth_same_registry | apply same_registry_refl].
Qed.

(** ** Invariants of the registry *)

Lemma registry_wf_boot s : registry_wf (boot s).
Proof.
  split; simpl.
  - intros r c. by rewrite lookup_empty.
  - intros r [c Hc]. by rewrite lookup_empty in Hc.
  - intros r Hr. by apply elem_of_nil in Hr.
  - constructor.
Qed.

Lemma registry_wf_ext st st' :
  connectedClients st' = connectedClients st →
  clientInfos st' = clientInfos st →
  nextSocket st' = nextSocket st →
  registry_wf st → registry_wf st'.
Proof. intros H1 H2 H4 [A B C D]. split; rewrite ?H1, ?H2, ?H4; done. Qed.

Lemma registry_wf_same st st' : same_registry st st' → registry_wf st → registry_wf st'.
Proof. intros (H1&H2&_&H4). by apply registry_wf_ext. Qed.

Lemma filter_StronglySorted {A} (R : relation A) (f : A → bool) l :
  StronglySorted R l → StronglySorted R (List.filter f l).
Proof.
  induction 1 as [|x l Hl IH Hx]; simpl; [constructor|].
  destruct (f x); [|done]. constructor; [done|].
  apply Forall_forall. intros y Hy. apply list_elem_of_In, List.filter_In in Hy as [Hy _].
  rewrite Forall_forall in Hx. apply Hx. by apply list_elem_of_In.
Qed.

Lemma elem_of_filter_bool {A} (f : A → bool) (l : list A) x :
  x ∈ List.filter f l ↔ x ∈ l ∧ f x = true.
Proof. rewrite !list_elem_of_In. apply List.filter_In. Qed.

Lemma registry_wf_alter (f : ConnectedClient.t → ConnectedClient.t) ws st :
  (∀ c, ConnectedClient.ws (f c) = ConnectedClient.ws c) →
  registry_wf st → registry_wf (set_clientInfos (alter f ws (clientInfos st)) st).
Proof.
  intros Hf [A B C D]. split; simpl; [| | |done].
  - intros r c. rewrite lookup_alter. case_decide as E.
    + subst r. intros (c0 & Hc0 & ->)%fmap_Some. rewrite Hf. by apply A.
    + apply A.
  - intros r. rewrite lookup_alter. case_decide as E.
    + subst r. rewrite fmap_is_Some. apply B.
    + apply B.
  - intros r Hr. rewrite lookup_alter. case_decide as E.
    + subst r. rewrite fmap_is_Some. by apply C.
    + by apply C.
Qed.

Lemma registry_wf_message_binding ws data st :
  registry_wf st → registry_wf (message_binding ws data st).
Proof.
  intros H. unfold message_binding, auth_binding, assign_deviceId, assign_userId.
  repeat case_match; try done; by apply registry_wf_alter.
Qed.

Lemma registry_wf_onConnection st :
  registry_wf st →
  registry_wf (onConnection (nextSocket st)
    (mkServer (storage st) (connectedClients st) (clientInfos st)
              (<[nextSocket st := OPEN]> (sockets st)) (wire st) (S (nextSocket st)))).
Proof.
  intros [A B C D]. split; simpl.
  - intros r c. rewrite lookup_insert. case_decide as E.
    + intros [= <-]. done.
    + apply A.
  - intros r. rewrite lookup_insert. case_decide as E.
    + intros _. lia.
    + intros H. apply B in H. lia.
  - intros r [Hr| ->%list_elem_of_singleton]%elem_of_app.
    + rewrite lookup_insert. case_decide; [done | by apply C].
    + by rewrite lookup_insert_eq.
  - apply StronglySorted_app_2; [|done|repeat constructor].
    intros x1 x2 H1 ->%list_elem_of_singleton. apply B. by apply C.
Qed.

Lemma onClose_registry ws now st :
  connectedClients (onClose ws now st)
    = List.filter (other_socket st ws) (connectedClients st) ∧
  clientInfos (onClose ws now st) = clientInfos st ∧
  sockets (onClose ws now st) = sockets st ∧
  nextSocket (onClose ws now st) = nextSocket st.
Proof.
  unfold onClose. destruct (truthy _); [|done].
  destruct (updateDeviceStatus _ _ _ _) as [o s1]. destruct (createActivity _ _ _) as [a s2].
  rewrite broadcastToClients_eq. done.
Qed.

Lemma registry_wf_onClose ws now st : registry_wf st → registry_wf (onClose ws now st).
Proof.
  intros [A B C D]. destruct (onClose_registry ws now st) as (H1&H2&_&H4).
  split; rewrite ?H1, ?H2, ?H4; try done.
  - intros r [Hr _]%elem_of_filter_bool. by apply C.
  - by apply filter_StronglySorted.
Qed.

Lemma registry_wf_step e st : registry_wf st → registry_wf (step e st).
Proof.
  intros H. destruct e; simpl.
  - by apply registry_wf_onConnection.
  - case_match; [|done].
    eapply registry_wf_same; [apply onMessage_same_registry|].
    by apply registry_wf_message_binding.
  - done.
  - case_match; [|done]. by eapply registry_wf_ext; [..|exact H].
  - case_match; [|done]. apply registry_wf_onClose.
    by eapply registry_wf_ext; [..|exact H].
  - eapply registry_wf_same; [apply postCommand_same_registry | done].
  - eapply registry_wf_same; [apply deleteDevice_same_registry | done].
Qed.

Lemma registry_wf_run tr : ∀ st, registry_wf st → registry_wf (run tr st).
Proof.
  induction tr as [|e tr IH]; intros st H; [done|].
  simpl. apply IH. by apply registry_wf_step.
Qed.

(** Every state a run reaches from start-up. *)
Lemma registry_wf_reachable s tr : registry_wf (run tr (boot s)).
Proof. apply registry_wf_run, registry_wf_boot. Qed.

Lemma elem_of_clients st c :
  c ∈ clients st ↔ ∃ r, r ∈ connectedClients st ∧ clientInfos st !! r = Some c.
Proof. unfold clients. apply list_elem_of_omap. Qed.

Lemma clients_ws st :
  registry_wf st → ConnectedClient.ws <$> clients st = connectedClients st.
Proof.
  intros [A _ C _]. unfold clients.
  induction (connectedClients st) as [|r l IH]; [done|]. simpl.
  destruct (C r) as [c Hc]; [by left|]. rewrite Hc. csimpl.
  rewrite (A _ _ Hc). f_equal. apply IH. intros r' Hr'. apply C. by right.
Qed.

Lemma clients_NoDup_ws st : registry_wf st → NoDup (ConnectedClient.ws <$> clients st).
Proof.
  intros H. rewrite (clients_ws _ H). destruct H as [_ _ _ D].
  induction D as [|x l Hl IH Hx]; constructor; [|done].
  intros Hin. rewrite Forall_forall in Hx. specialize (Hx _ Hin). lia.
Qed.

(** ** [Array.prototype.find] *)

Lemma find_is_Some {A} (p : A → bool) (l : list A) :
  is_Some (List.find p l) ↔ ∃ x, x ∈ l ∧ p x = true.
Proof.
  split.
  - intros [x Hx]. apply List.find_some in Hx as [Hin Hp].
    exists x. by rewrite list_elem_of_In.
  - intros (x & Hin & Hp). destruct (List.find p l) eqn:E; [eauto|].
    apply list_elem_of_In in Hin. pose proof (List.find_none _ _ E _ Hin). congruence.
Qed.

Lemma find_first {A} (p : A → bool) (l : list A) x :
  List.find p l = Some x →
  ∃ l1 l2, l = l1 ++ x :: l2 ∧ Forall (fun y => p y = false) l1 ∧ p x = true.
Proof.
  induction l as [|y l IH]; simpl; [done|].
  destruct (p y) eqn:E.
  - intros [= ->]. exists [], l. by repeat split.
  - intros H. destruct (IH H) as (l1 & l2 & -> & Hl1 & Hx).
    exists (y :: l1), l2. repeat split; [|done]. by constructor.
Qed.

Lemma strict_eq_str_true v s : strict_eq_str v s = true ↔ v = VStr s.
Proof.
  destruct v; simpl; try (split; [done | intros [=]]).
  rewrite String.eqb_eq. split; [by intros -> | by intros [= ->]].
Qed.

(** ** The array refines the specification's registry *)

Lemma registry_sim_boot s : registry_sim (boot s) RegistrySpec.empty.
Proof. split; [done|]. intros h. simpl. by rewrite lookup_empty. Qed.

Lemma registry_sim_ext st st' r :
  connectedClients st' = connectedClients st →
  clientInfos st' = clientInfos st →
  nextSocket st' = nextSocket st →
  registry_sim st r → registry_sim st' r.
Proof. intros H1 H2 H3 [A B]. split; rewrite ?H1, ?H2, ?H3; done. Qed.

Lemma registry_sim_not_accepted st r ws :
  registry_wf st → registry_sim st r →
  clientInfos st !! ws = None → RegistrySpec.live r !! ws = None.
Proof.
  intros Hwf [_ B] Hn. rewrite B. case_decide as E; [|done]. by rewrite Hn.
Qed.

Lemma registry_sim_Register st r :
  registry_wf st → registry_sim st r →
  registry_sim
    (onConnection (nextSocket st)
       (mkServer (storage st) (connectedClients st) (clientInfos st)
                 (<[nextSocket st := OPEN]> (sockets st)) (wire st) (S (nextSocket st))))
    (RegistrySpec.Register r).
Proof.
  intros Hwf [A B]. split; simpl; [by rewrite A|].
  intros h. rewrite A. rewrite !lookup_insert. case_decide as E.
  - subst h. rewrite decide_True; [done|]. apply elem_of_app. right. by left.
  - rewrite B. case_decide as E1.
    + rewrite decide_True; [done|]. apply elem_of_app. by left.
    + rewrite decide_False; [done|].
      intros [?| ->%list_elem_of_singleton]%elem_of_app; done.
Qed.

Lemma registry_sim_assign_deviceId st r ws v :
  registry_wf st → registry_sim st r →
  registry_sim (assign_deviceId ws v st) (RegistrySpec.BindDevice ws v r).
Proof.
  intros Hwf [A B]. split; simpl; [done|].
  intros h. rewrite !lookup_alter. case_decide as E.
  - subst h. rewrite B. case_decide as E1; [|done].
    destruct (wf_refs _ Hwf _ E1) as [c Hc]. by rewrite Hc.
  - apply B.
Qed.

Lemma registry_sim_assign_userId st r ws v :
  registry_sim st r → registry_sim (assign_userId ws v st) r.
Proof.
  intros [A B]. split; simpl; [done|].
  intros h. rewrite B. case_decide as E1; [|done].
  rewrite lookup_alter. case_decide as E; [|done]. subst h.
  match goal with |- _ = _ <$> (_ <$> ?o) => by destruct o end.
Qed.

Lemma other_socket_wf st ws r :
  registry_wf st → r ∈ connectedClients st →
  other_socket st ws r = negb (Nat.eqb r ws).
Proof.
  intros Hwf Hr. unfold other_socket.
  destruct (wf_refs _ Hwf _ Hr) as [c Hc]. rewrite Hc.
  by rewrite (wf_ws _ Hwf _ _ Hc).
Qed.

Lemma registry_sim_Unregister st r ws now :
  registry_wf st → registry_sim st r →
  registry_sim (onClose ws now st) (RegistrySpec.Unregister ws r).
Proof.
  intros Hwf [A B]. destruct (onClose_registry ws now st) as (H1&H2&_&H4).
  split; [rewrite H4; exact A|].
  intros h. rewrite H1, H2. unfold RegistrySpec.Unregister. cbn [RegistrySpec.live].
  rewrite lookup_delete. case_decide as E.
  - subst h. rewrite decide_False; [done|].
    intros [Hin Ho]%elem_of_filter_bool.
    rewrite (other_socket_wf _ _ _ Hwf Hin), Nat.eqb_refl in Ho. done.
  - rewrite B. case_decide as E1.
    + rewrite decide_True; [done|]. apply elem_of_filter_bool. split; [done|].
      rewrite (other_socket_wf _ _ _ Hwf E1).
      apply negb_true_iff, Nat.eqb_neq. congruence.
    + rewrite decide_False; [done|]. by intros [Hin _]%elem_of_filter_bool.
Qed.

Lemma accepted_false st ws : accepted ws st = false → clientInfos st !! ws = None.
Proof.
  unfold accepted. intros H%bool_decide_eq_false.
  destruct (clientInfos st !! ws) eqn:E; [|done]. exfalso. apply H. eauto.
Qed.

Lemma registry_sim_step e st r :
  registry_wf st → registry_sim st r → registry_sim (step e st) (registry_op r e).
Proof.
  intros Hwf Hsim. destruct e; simpl.
  - by apply registry_sim_Register.
  - destruct (accepted ws st) eqn:Ea.
    + destruct (onMessage_same_registry ws data now st) as (H1&H2&_&H4).
      eapply registry_sim_ext; [exact H1 | exact H2 | exact H4 |].
      unfold message_binding, auth_binding.
      destruct (strict_eq_str (Data.type data) "AUTH"); simpl; [|done].
      destruct (truthy (Data.token data)); [by apply registry_sim_assign_deviceId|].
      destruct (truthy (Data.userId data)); [by apply registry_sim_assign_userId | done].
    + destruct (_ && _); [|done].
      apply accepted_false in Ea.
      pose proof (registry_sim_not_accepted _ _ _ Hwf Hsim Ea) as Hn.
      destruct Hsim as [A B]. split; [done|]. intros h. simpl.
      rewrite lookup_alter. case_decide as E; [|apply B].
      subst h. rewrite <- B, Hn. done.
  - done.
  - destruct (accepted ws st); [|done]. by eapply registry_sim_ext; [..|exact Hsim].
  - destruct (accepted ws st) eqn:Ea.
    + apply registry_sim_Unregister.
      * by eapply registry_wf_ext; [..|exact Hwf].
      * by eapply registry_sim_ext; [..|exact Hsim].
    + apply accepted_false in Ea.
      pose proof (registry_sim_not_accepted _ _ _ Hwf Hsim Ea) as Hn.
      destruct Hsim as [A B]. split; [done|]. intros h. simpl.
      rewrite lookup_delete. case_decide as E; [|apply B]. subst h. by rewrite <- B, Hn.
  - destruct (postCommand_same_registry deviceId command parameters now st) as (H1&H2&_&H4).
    by eapply registry_sim_ext; [..|exact Hsim].
  - destruct (deleteDevice_same_registry id username now st) as (H1&H2&_&H4).
    by eapply registry_sim_ext; [..|exact Hsim].
Qed.

Lemma registry_sim_run tr : ∀ st r,
  registry_wf st → registry_sim st r →
  registry_sim (run tr st) (foldl registry_op r tr).
Proof.
  induction tr as [|e tr IH]; intros st r Hwf Hsim; [done|].
  simpl. apply IH; [by apply registry_wf_step | by apply registry_sim_step].
Qed.

(** The lookup, read on the array itself: it succeeds exactly when an entry
    still in [connectedClients] has its [deviceId] equal to [d]. *)
Lemma findByDevice_iff_entry (st : Server) (d : string) :
  is_Some (findByDevice d st) ↔ ∃ c, c ∈ clients st ∧ bound_to d c.
Proof.
  unfold findByDevice, bound_to. rewrite find_is_Some.
  by setoid_rewrite strict_eq_str_true.
Qed.

(** C1. For every sequence of events (connections registering, AUTH messages
    binding a device, closes unregistering, and anything else in between),
    the lookup of [sendToDevice] finds a connection for [d] exactly when
    some entry still in [connectedClients] has its [deviceId] equal to [d],
    and that is exactly when the specification's registry, driven by the
    Register / BindDevice / Unregister calls of that sequence, holds a live
    handle bound to [d]. *)
Theorem findByDevice_iff_live_bound (s : MemStorage) (tr : list Event) (d : string) :
  let st := run tr (boot s) in
  (is_Some (findByDevice d st) ↔ ∃ c, c ∈ clients st ∧ bound_to d c) ∧
  (is_Some (findByDevice d st) ↔ RegistrySpec.bound d (registry_of tr)).
Proof.
  intros st. split; [apply findByDevice_iff_entry|]. subst st.
  pose proof (registry_wf_reachable s tr) as Hwf.
  destruct (registry_sim_run tr (boot s) RegistrySpec.empty
              (registry_wf_boot s) (registry_sim_boot s)) as [_ B].
  fold (registry_of tr) in B. unfold findByDevice, RegistrySpec.bound.
  rewrite find_is_Some. split.
  - intros (c & Hc & Hd). apply elem_of_clients in Hc as (h & Hh & Hc).
    exists h. rewrite B, decide_True by done. rewrite Hc. simpl.
    by apply strict_eq_str_true in Hd as ->.
  - intros (h & Hh). rewrite B in Hh. case_decide as E; [|done].
    apply fmap_Some in Hh as (c & Hc & Hd). exists c. split.
    + apply elem_of_clients. eauto.
    + apply strict_eq_str_true. done.
Qed.

(** ** C7: which of two connections bound to one device is addressed *)

(** The lookup returns the first match of the array, and the array is in
    registration order. *)
Lemma findByDevice_first (st : Server) (d : string) (c : ConnectedClient.t) :
  registry_wf st → findByDevice d st = Some c →
  c ∈ clients st ∧ bound_to d c ∧
  ∀ c', c' ∈ clients st → bound_to d c' →
        (ConnectedClient.ws c ≤ ConnectedClient.ws c')%nat.
Proof.
  intros Hwf Hf. unfold findByDevice in Hf.
  destruct (find_first _ _ _ Hf) as (l1 & l2 & Hl & Hl1 & Hc).
  apply strict_eq_str_true in Hc. split; [|split; [done|]].
  - rewrite Hl. apply elem_of_app. right. by left.
  - intros c' Hin Hb.
    pose proof (wf_sorted _ Hwf) as Hs. rewrite <- (clients_ws _ Hwf), Hl in Hs.
    rewrite Hl in Hin. apply elem_of_app in Hin as [Hin|Hin].
    + rewrite Forall_forall in Hl1. specialize (Hl1 _ Hin).
      unfold bound_to in Hb. rewrite Hb in Hl1. simpl in Hl1.
      by rewrite String.eqb_refl in Hl1.
    + apply elem_of_cons in Hin as [->|Hin]; [done|].
      rewrite fmap_app, fmap_cons in Hs.
      apply StronglySorted_app_1_r, StronglySorted_inv in Hs as [_ Hs].
      rewrite Forall_forall in Hs.
      assert (ConnectedClient.ws c' ∈ ConnectedClient.ws <$> l2) as Hw
        by (by apply list_elem_of_fmap_2).
      specialize (Hs _ Hw). lia.
Qed.

(** C7 (as amended). The lookup of [sendToDevice] returns the
    earliest-registered live connection bound to the device: sockets are
    numbered in registration order, and no registered connection bound to
    [d] has a smaller number than the one found. *)
Theorem findByDevice_earliest_registered (s : MemStorage) (tr : list Event)
  (d : string) (c : ConnectedClient.t) :
  findByDevice d (run tr (boot s)) = Some c →
  c ∈ clients (run tr (boot s)) ∧ bound_to d c ∧
  ∀ c', c' ∈ clients (run tr (boot s)) → bound_to d c' →
        (ConnectedClient.ws c ≤ ConnectedClient.ws c')%nat.
Proof. apply findByDevice_first, registry_wf_reachable. Qed.

Lemma findByDevice_earliest_registered_witness :
  findByDevice "D1" (run two_bound (boot (store_D1 "offline")))
    = Some (ConnectedClient.mk 0 (VStr "D1") VUndefined) ∧
  ∀ c', c' ∈ clients (run two_bound (boot (store_D1 "offline"))) → bound_to "D1" c' →
        (0 ≤ ConnectedClient.ws c')%nat.
Proof.
  split; [vm_compute; reflexivity|].
  apply (findByDevice_earliest_registered (store_D1 "offline") two_bound "D1"
           (ConnectedClient.mk 0 (VStr "D1") VUndefined)).
  vm_compute; reflexivity.
Defined.

(** C7 (as stated) fails: with connections 0 and 1 both bound to [D1], the
    lookup returns connection 0, not the most recently registered one. *)
Lemma most_recent_wins_counterexample :
  ¬ most_recent_wins (run two_bound (boot (store_D1 "offline"))).
Proof.
  intros H.
  specialize (H "D1" (ConnectedClient.mk 0 (VStr "D1") VUndefined)
                (ConnectedClient.mk 1 (VStr "D1") VUndefined)).
  assert (1 ≤ 0)%nat as Hle; [|lia].
  apply H.
  - vm_compute; reflexivity.
  - vm_compute. right. left.
  - reflexivity.
Qed.

(** ** C3: the router *)

(** C3. [sendToDevice] returns [false], and changes nothing, whenever no
    registered connection is bound to the device; when it returns [true],
    the lookup found a registered connection bound to the device, its socket
    is open and the message was handed to that socket, and nothing else was.
    The result is the same whatever the transport then does: of the frame
    handed over, the write succeeded exactly when the transport says so. *)
Theorem sendToDevice_false_unbound_true_handed_to_open (d : string) (data : Message)
  (st : Server) :
  ((∀ c, c ∈ clients st → ¬ bound_to d c) → sendToDevice d data st = (false, st)) ∧
  ((sendToDevice d data st).1 = true →
   ∃ c, findByDevice d st = Some c ∧ c ∈ clients st ∧ bound_to d c ∧
        readyState st (ConnectedClient.ws c) = OPEN ∧
        (sendToDevice d data st).2 = send (ConnectedClient.ws c) data st ∧
        written st (sendToDevice d data st).2 = [(ConnectedClient.ws c, data)] ∧
        ∀ transport : WriteOutcome,
          succeeded transport st (sendToDevice d data st).2
          = if transport (ConnectedClient.ws c)
            then [(ConnectedClient.ws c, data)] else []).
Proof.
  unfold sendToDevice, findByDevice. split.
  - intros Hnone.
    destruct (List.find _ _) as [c|] eqn:E; [|done].
    apply List.find_some in E as [Hin Hb]. apply list_elem_of_In in Hin.
    apply strict_eq_str_true in Hb. by destruct (Hnone c Hin).
  - destruct (List.find _ _) as [c|] eqn:E; [|done].
    destruct (is_open st _) eqn:Eo; [|done]. intros _.
    pose proof E as Efound.
    apply List.find_some in E as [Hin Hb]. apply list_elem_of_In in Hin.
    apply strict_eq_str_true in Hb.
    assert (written st (send (ConnectedClient.ws c) data st)
            = [(ConnectedClient.ws c, data)]) as Hw
      by (unfold written; simpl; by rewrite drop_app_length).
    exists c. repeat split; try done.
    + unfold is_open in Eo. by apply bool_decide_eq_true in Eo.
    + intros transport. unfold succeeded. cbn [snd]. rewrite Hw. simpl.
      by destruct (transport (ConnectedClient.ws c)).
Qed.

Lemma sendToDevice_false_unbound_true_handed_to_open_witness :
  (sendToDevice "D2" (DEVICE_REMOVED "x") (run two_bound (boot (store_D1 "offline")))).1
    = false ∧
  ∃ c, bound_to "D1" c ∧
       written (run two_bound (boot (store_D1 "offline")))
               (sendToDevice "D1" (DEVICE_REMOVED "x")
                  (run two_bound (boot (store_D1 "offline")))).2
       = [(ConnectedClient.ws c, DEVICE_REMOVED "x")].
Proof.
  pose proof (sendToDevice_false_unbound_true_handed_to_open "D2" (DEVICE_REMOVED "x")
                (run two_bound (boot (store_D1 "offline")))) as [H1 _].
  pose proof (sendToDevice_false_unbound_true_handed_to_open "D1" (DEVICE_REMOVED "x")
                (run two_bound (boot (store_D1 "offline")))) as [_ H2].
  split.
  - rewrite H1; [reflexivity|].
    intros c Hc Hb. vm_compute in Hc.
    apply elem_of_cons in Hc as [->|Hc]; [discriminate Hb|].
    apply elem_of_cons in Hc as [->|Hc]; [discriminate Hb|].
    by apply elem_of_nil in Hc.
  - destruct H2 as (c & _ & _ & Hb & _ & _ & Hw & _); [vm_compute; reflexivity|].
    exists c. by split.
Defined.

(** C3 (as stated) fails: [D1] is bound to an open socket and the transport
    fails the write. [sendToDevice("D1", m)] has handed the frame over and
    returned [true]; no write succeeded. *)
Lemma true_only_when_write_succeeds_counterexample : ¬ true_only_when_write_succeeds.
Proof.
  intros H.
  destruct (H (store_D1 "offline") two_bound (fun _ => false) "D1" (DEVICE_REMOVED "x"))
    as (c & _ & Hs).
  - vm_compute; reflexivity.
  - vm_compute in Hs. discriminate Hs.
Qed.

(** ** C2: the broadcaster *)

Lemma filter_bool_comm {A} (p q : A → bool) (l : list A) :
  List.filter q (List.filter p l) = List.filter p (List.filter q l).
Proof.
  induction l as [|x l IH]; simpl; [done|].
  destruct (p x) eqn:Ep, (q x) eqn:Eq; simpl; rewrite ?Ep, ?Eq, ?IH; done.
Qed.

Lemma filter_bool_nil {A} (p : A → bool) (l : list A) :
  (∀ x, x ∈ l → p x = false) → List.filter p l = [].
Proof.
  induction l as [|x l IH]; simpl; [done|]. intros H.
  rewrite (H x) by (by left). apply IH. intros y Hy. apply H. by right.
Qed.

Lemma filter_bool_fmap {A B} (f : A → B) (p : B → bool) (l : list A) :
  List.filter p (f <$> l) = f <$> List.filter (fun x => p (f x)) l.
Proof.
  induction l as [|x l IH]; csimpl; [done|].
  destruct (p (f x)); csimpl; by rewrite IH.
Qed.

(** In a list without two entries of the same socket, selecting by socket
    returns the one entry. *)
Lemma filter_by_ws_unique (l : list ConnectedClient.t) (c : ConnectedClient.t) :
  NoDup (ConnectedClient.ws <$> l) → c ∈ l →
  List.filter (fun c' => Nat.eqb (ConnectedClient.ws c') (ConnectedClient.ws c)) l = [c].
Proof.
  induction l as [|x l IH]; csimpl; intros Hnd Hin; [by apply elem_of_nil in Hin|].
  apply NoDup_cons in Hnd as [Hx Hnd]. apply elem_of_cons in Hin as [->|Hin].
  - rewrite Nat.eqb_refl. f_equal. apply filter_bool_nil.
    intros y Hy. apply Nat.eqb_neq. intros Heq. apply Hx. rewrite <- Heq.
    by apply list_elem_of_fmap_2.
  - destruct (Nat.eqb (ConnectedClient.ws x) (ConnectedClient.ws c)) eqn:E;
      [|by apply IH].
    apply Nat.eqb_eq in E. exfalso. apply Hx. rewrite E.
    by apply list_elem_of_fmap_2.
Qed.

Lemma written_app st st' l : wire st' = wire st ++ l → written st st' = l.
Proof. unfold written. intros ->. by rewrite drop_app_length. Qed.

Lemma written_broadcast data x st :
  written st (broadcastToClients data x st) = frame data <$> recipients x st.
Proof. apply written_app, broadcast_wire. Qed.

(** The frames one broadcast writes to one socket: none when the socket is
    excluded; exactly one when it belongs to a registered connection, is
    open and is not excluded. *)
Lemma broadcast_frames_excluded data w st :
  frames_to w (frame data <$> recipients (Some w) st) = [].
Proof.
  unfold frames_to. rewrite filter_bool_fmap. unfold recipients.
  rewrite filter_bool_comm. rewrite filter_bool_nil; [done|].
  intros c [_ Hc]%elem_of_filter_bool. simpl in *. by rewrite Hc.
Qed.

Lemma broadcast_frames_once data x st c :
  registry_wf st → c ∈ clients st →
  is_open st (ConnectedClient.ws c) = true → x ≠ Some (ConnectedClient.ws c) →
  frames_to (ConnectedClient.ws c) (frame data <$> recipients x st)
  = [(ConnectedClient.ws c, data)].
Proof.
  intros Hwf Hin Ho Hx. unfold frames_to. rewrite filter_bool_fmap. unfold recipients.
  rewrite filter_bool_comm. simpl.
  rewrite (filter_by_ws_unique _ _ (clients_NoDup_ws _ Hwf) Hin). simpl.
  rewrite Ho, andb_true_r.
  destruct x as [w|]; simpl; [|done].
  destruct (Nat.eqb (ConnectedClient.ws c) w) eqn:E; [|done].
  apply Nat.eqb_eq in E. congruence.
Qed.

(** C2. In every state in which the registry invariants hold, and so in
    every state the server reaches and at every call site inside a handler
    (handlers change the store and the wire around the call, not the
    registry), one call [broadcastToClients(data, excludeClient)] writes
    nothing to [excludeClient], and writes [data] exactly once, and nothing
    else, to every other registered connection whose socket is [OPEN]. *)
Theorem broadcastToClients_exactly_once (st : Server) (data : Message)
  (excludeClient : option WebSocket) :
  registry_wf st →
  let st' := broadcastToClients data excludeClient st in
  (∀ w, excludeClient = Some w → frames_to w (written st st') = []) ∧
  (∀ c, c ∈ clients st → is_open st (ConnectedClient.ws c) = true →
        excludeClient ≠ Some (ConnectedClient.ws c) →
        frames_to (ConnectedClient.ws c) (written st st')
        = [(ConnectedClient.ws c, data)]).
Proof.
  intros Hwf st'. subst st'. rewrite written_broadcast. split.
  - intros w ->. apply broadcast_frames_excluded.
  - intros c Hin Ho Hx. by apply broadcast_frames_once.
Qed.

Lemma broadcastToClients_exactly_once_witness :
  let st := run three_clients (boot (store_D1 "offline")) in
  let st' := broadcastToClients (DEVICE_REMOVED "D9") (Some 1) st in
  frames_to 1 (written st st') = [] ∧
  frames_to 0 (written st st') = [(0, DEVICE_REMOVED "D9")] ∧
  written st st' = [(0, DEVICE_REMOVED "D9")].
Proof.
  intros st st'.
  destruct (broadcastToClients_exactly_once st (DEVICE_REMOVED "D9") (Some 1)
              (registry_wf_reachable (store_D1 "offline") three_clients)) as [H1 H2].
  split; [by apply H1|]. split; [|vm_compute; reflexivity].
  apply (H2 (ConnectedClient.mk 0 VUndefined (VNum 7))).
  - vm_compute. left.
  - vm_compute; reflexivity.
  - discriminate.
Defined.

(** ** The store under the handlers *)

Lemma updateDeviceStatus_found deviceId status now s device :
  devices_wf (devices s) →
  getDeviceByDeviceId deviceId s = Some device →
  ∃ s', updateDeviceStatus deviceId status now s
          = (Some (Device.with_status device status now), s') ∧
        getDeviceByDeviceId deviceId s' = Some (Device.with_status device status now) ∧
        devices_wf (devices s') ∧
        commands s' = commands s ∧ activities s' = activities s.
Proof.
  unfold getDeviceByDeviceId, updateDeviceStatus. intros Hwf Hf.
  change (fun device0 : Device.t => str_strict_eq (Device.deviceId device0) deviceId)
    with (same_device deviceId) in *.
  rewrite Hf. eexists. split; [reflexivity|]. simpl. repeat split; try done.
  - apply find_device_after_set; try done.
    apply List.find_some in Hf as [_ Hf]. exact Hf.
  - by apply devices_wf_set.
  - by apply devices_wf_set.
Qed.

Lemma updateDeviceStatus_missing deviceId status now s :
  getDeviceByDeviceId deviceId s = None →
  updateDeviceStatus deviceId status now s = (None, s).
Proof. unfold getDeviceByDeviceId, updateDeviceStatus. by intros ->. Qed.

Lemma sendToDevice_set_storage s d data st :
  sendToDevice d data (set_storage s st)
  = ((sendToDevice d data st).1, set_storage s (sendToDevice d data st).2).
Proof.
  unfold sendToDevice, findByDevice.
  change (clients (set_storage s st)) with (clients st).
  destruct (List.find _ _) as [c|]; [|done].
  change (is_open (set_storage s st) (ConnectedClient.ws c))
    with (is_open st (ConnectedClient.ws c)).
  by destruct (is_open st _).
Qed.

Lemma sendToDevice_written d data st :
  ∃ l, wire (sendToDevice d data st).2 = wire st ++ l ∧
       Forall (fun f => f.2 = data) l ∧
       ((sendToDevice d data st).1 = false → l = []).
Proof.
  unfold sendToDevice. destruct (findByDevice d st) as [c|].
  - destruct (is_open st _).
    + exists [(ConnectedClient.ws c, data)]. simpl. repeat split; [|done].
      by repeat constructor.
    + exists []. by rewrite app_nil_r.
  - exists []. by rewrite app_nil_r.
Qed.

(** ** C4: [POST /api/commands] *)

(** C4. For a device that exists in the store, [POST /api/commands] answers
    with the created command, whose status is [pending] and which is still
    stored as [pending] when the handler is done, whatever the delivery
    outcome. If [sendToDevice] returned [false] and the stored status was
    [online], the device is stored as [offline] afterwards and the frames
    written are one [DEVICE_STATUS_CHANGED] broadcast to the open
    connections. If the stored status was not [online], the device map is
    untouched and nothing is written besides the delivery of the command
    itself (nothing at all when it was not delivered). *)
Theorem postCommand_pending_and_offline_once (st : Server) (d command : string)
  (parameters : JsVal) (now : Time) (device : Device.t) :
  devices_wf (devices (storage st)) →
  getDeviceByDeviceId (VStr d) (storage st) = Some device →
  let st' := (postCommand d command parameters now st).2 in
  ∃ newCommand,
    (postCommand d command parameters now st).1 = Created newCommand ∧
    Command.status newCommand = VStr "pending" ∧
    getCommandById (VNum (Command.id newCommand)) (storage st') = Some newCommand ∧
    let delivered := (sendToDevice d (COMMAND newCommand) st).1 in
    (delivered = false → Device.status device = "online" →
       (∃ device', getDeviceByDeviceId (VStr d) (storage st') = Some device' ∧
                   Device.status device' = "offline") ∧
       written st st'
       = frame (DEVICE_STATUS_CHANGED (VStr d) "offline") <$> recipients None st) ∧
    (Device.status device ≠ "online" →
       devices (storage st') = devices (storage st) ∧
       Forall (fun f => f.2 = COMMAND newCommand) (written st st') ∧
       (delivered = false → written st st' = [])).
Proof.
  intros Hwf Hdev st'. subst st'. unfold postCommand. rewrite Hdev.
  unfold createCommand, createActivity. cbv zeta.
  set (newCommand := Command.mk _ _ _ _ _ _ _ _).
  set (s2 := mkStorage _ _ _ _ _ _).
  rewrite sendToDevice_set_storage.
  destruct (sendToDevice_written d (COMMAND newCommand) st) as (l & Hl & Hall & Hnil).
  destruct (sendToDevice d (COMMAND newCommand) st) as [delivered st1] eqn:Es.
  simpl in Hl, Hnil.
  pose proof (sendToDevice_same_registry d (COMMAND newCommand) st) as Hreg.
  pose proof (sendToDevice_storage d (COMMAND newCommand) st) as Hsto.
  rewrite Es in Hreg, Hsto. simpl in Hreg, Hsto.
  exists newCommand. cbv zeta. rewrite Es. cbn [fst snd].
  split; [done|]. split; [done|].
  assert (getDeviceByDeviceId (VStr d) s2 = Some device) as Hdev2 by exact Hdev.
  assert (devices_wf (devices s2)) as Hwf2 by exact Hwf.
  destruct (updateDeviceStatus_found (VStr d) "offline" now s2 device Hwf2 Hdev2)
    as (s3 & Hup & Hget & _ & Hcmd & _).
  assert (JsMap.get (Command.id newCommand) (commands s2) = Some newCommand) as Hc
    by apply JsMap_get_set_eq.
  destruct (negb delivered && String.eqb (Device.status device) "online") eqn:Eb.
  - apply andb_true_iff in Eb as [Ed Eon]. apply negb_true_iff in Ed. subst delivered.
    apply String.eqb_eq in Eon.
    change (storage (set_storage s2 st1)) with s2. rewrite Hup.
    rewrite broadcast_storage. change (storage (set_storage s3 _)) with s3.
    split; [unfold getCommandById; simpl; by rewrite Hcmd|].
    split; [|intros Hne; by destruct Hne].
    intros _ _. split.
    + exists (Device.with_status device "offline" now). by split.
    + apply written_app. rewrite broadcast_wire. simpl.
      rewrite Hl, (Hnil eq_refl), app_nil_r. f_equal. f_equal.
      apply same_registry_recipients.
      eapply same_registry_trans; [exact Hreg|]. by repeat split.
  - assert (written st (set_storage s2 st1) = l) as Hw
      by (apply written_app; exact Hl).
    split; [exact Hc|]. split.
    + intros -> Hon. rewrite Hon in Eb. done.
    + intros Hne. rewrite Hw. split; [done|]. by split.
Qed.

Lemma postCommand_pending_and_offline_once_witness :
  let st' := (postCommand "D1" "ping" VUndefined 20%Z lone_dashboard).2 in
  (∃ device', getDeviceByDeviceId (VStr "D1") (storage st') = Some device' ∧
              Device.status device' = "offline") ∧
  written lone_dashboard st' = [(0, DEVICE_STATUS_CHANGED (VStr "D1") "offline")].
Proof.
  intros st'.
  assert (devices_wf (devices (storage lone_dashboard))) as Hwf.
  { concrete_devices_wf. }
  destruct (postCommand_pending_and_offline_once lone_dashboard "D1" "ping" VUndefined
              20%Z (device_D1 "online") Hwf eq_refl) as (nc & _ & _ & _ & H & _).
  destruct H as [Hdev Hw]; [vm_compute; reflexivity | reflexivity |].
  subst st'. split; [exact Hdev|]. rewrite Hw. vm_compute. reflexivity.
Defined.

(** ** The device map stays well formed *)

Lemma devices_wf_updateDeviceStatus deviceId status now s :
  devices_wf (devices s) → devices_wf (devices (updateDeviceStatus deviceId status now s).2).
Proof.
  intros Hwf. destruct (getDeviceByDeviceId deviceId s) as [device|] eqn:E.
  - destruct (updateDeviceStatus_found deviceId status now s device Hwf E)
      as (s' & -> & _ & H & _). exact H.
  - by rewrite (updateDeviceStatus_missing _ _ _ _ E).
Qed.

Lemma devices_wf_updateDevice_info id v s :
  devices_wf (devices s) → devices_wf (devices (updateDevice id (Device.only_info v) s).2).
Proof.
  intros Hwf. unfold updateDevice. destruct (JsMap.get id (devices s)) as [device|] eqn:E;
    [|done].
  simpl. apply devices_wf_set; [done|]. simpl.
  destruct Hwf as [_ Hid]. rewrite Forall_forall in Hid.
  exact (Hid _ (JsMap_get_Some_key _ _ _ E)).
Qed.

Lemma devices_wf_createDevice device now s :
  devices_wf (devices s) → devices_wf (devices (createDevice device now s).2).
Proof. intros Hwf. simpl. by apply devices_wf_set. Qed.

Lemma devices_wf_newStorage : devices_wf (devices newStorage).
Proof. apply devices_wf_nil. Qed.

Lemma devices_wf_onAuth ws data now st :
  devices_wf (devices (storage st)) → devices_wf (devices (storage (onAuth ws data now st))).
Proof.
  intros Hwf. unfold onAuth. destruct (truthy (Data.token data)).
  - change (storage (assign_deviceId ws (Data.deviceId data) st)) with (storage st).
    destruct (getDeviceByDeviceId _ _); [|done].
    pose proof (devices_wf_updateDeviceStatus (Data.deviceId data) "online" now _ Hwf) as H.
    destruct (updateDeviceStatus _ _ _ _) as [o s1]. simpl in H.
    unfold createActivity. rewrite broadcast_storage. exact H.
  - by destruct (truthy (Data.userId data)).
Qed.

Lemma devices_onCommandResponse data now st :
  devices (storage (onCommandResponse data now st)) = devices (storage st).
Proof.
  unfold onCommandResponse, updateCommand.
  destruct (JsMap.getv _ _) as [c|]; [|done].
  unfold createActivity. by rewrite broadcast_storage.
Qed.

Lemma devices_wf_onDeviceInfo ws data st :
  devices_wf (devices (storage st)) → devices_wf (devices (storage (onDeviceInfo ws data st))).
Proof.
  intros Hwf. unfold onDeviceInfo. destruct (getDeviceByDeviceId _ _) as [device|]; [|done].
  pose proof (devices_wf_updateDevice_info (Device.id device) (Data.info data) _ Hwf) as H.
  destruct (updateDevice _ _ _) as [o s1]. rewrite broadcast_storage. exact H.
Qed.

Lemma devices_wf_onMessage ws data now st :
  devices_wf (devices (storage st)) →
  devices_wf (devices (storage (onMessage ws data now st))).
Proof.
  intros Hwf. unfold onMessage. cbv zeta.
  match goal with
  | |- context [if ?b then onDeviceInfo ws data ?x else _] =>
      assert (devices_wf (devices (storage x))) as H2
  end.
  { match goal with
    | |- context [if ?b then onCommandResponse data now ?x else _] =>
        assert (devices_wf (devices (storage x))) as H1
    end.
    { destruct (strict_eq_str _ _); [by apply devices_wf_onAuth | done]. }
    destruct (_ && _); [by rewrite devices_onCommandResponse | done]. }
  destruct (strict_eq_str (Data.type data) "DEVICE_INFO" && _);
    [by apply devices_wf_onDeviceInfo | done].
Qed.

Lemma devices_wf_onClose ws now st :
  devices_wf (devices (storage st)) → devices_wf (devices (storage (onClose ws now st))).
Proof.
  intros Hwf. unfold onClose. cbv zeta. destruct (truthy _); [|done].
  pose proof (devices_wf_updateDeviceStatus (clientInfo_deviceId ws st) "offline" now _ Hwf)
    as H.
  destruct (updateDeviceStatus _ _ _ _) as [o s1]. simpl in H.
  unfold createActivity. simpl. rewrite broadcast_storage. exact H.
Qed.

Lemma devices_wf_postCommand d c p now st :
  devices_wf (devices (storage st)) →
  devices_wf (devices (storage (postCommand d c p now st).2)).
Proof.
  intros Hwf. unfold postCommand. destruct (getDeviceByDeviceId _ _) as [device|]; [|done].
  unfold createCommand, createActivity. cbv zeta.
  rewrite sendToDevice_set_storage.
  pose proof (sendToDevice_storage d
    (COMMAND (Command.mk (currentId_commands (storage st)) d c (js_or p (VObj "{}"))
                         (VStr "pending") (VStr "") now None)) st) as Hs.
  destruct (sendToDevice _ _ st) as [delivered st1]. simpl in Hs. cbn [fst snd].
  destruct (negb delivered && _); [|exact Hwf].
  match goal with
  | |- context [updateDeviceStatus ?a ?b ?c ?s] =>
      pose proof (devices_wf_updateDeviceStatus a b c s Hwf) as H;
      destruct (updateDeviceStatus a b c s) as [o s3]
  end.
  rewrite broadcast_storage. exact H.
Qed.

Lemma devices_wf_deleteDevice id u now st :
  devices_wf (devices (storage st)) →
  devices_wf (devices (storage (deleteDevice id u now st).2)).
Proof.
  intros Hwf. unfold deleteDevice. destruct (getDeviceById _ _); [|done].
  unfold removeDevice, createActivity. cbn [snd]. rewrite broadcast_storage. simpl.
  by apply devices_wf_delete.
Qed.

Lemma devices_wf_step e st :
  devices_wf (devices (storage st)) → devices_wf (devices (storage (step e st))).
Proof.
  intros Hwf. destruct e; simpl; try done.
  - destruct (accepted ws st); [by apply devices_wf_onMessage | done].
  - by destruct (accepted ws st).
  - destruct (accepted ws st); [by apply devices_wf_onClose | done].
  - by apply devices_wf_postCommand.
  - by apply devices_wf_deleteDevice.
Qed.

(** Started over a well-formed store, the server keeps it well formed. *)
Lemma devices_wf_run tr : ∀ st,
  devices_wf (devices (storage st)) → devices_wf (devices (storage (run tr st))).
Proof.
  induction tr as [|e tr IH]; intros st H; [done|].
  simpl. apply IH. by apply devices_wf_step.
Qed.

(** ** C9: [lastActive] *)

Lemma JsMap_values_set_same {V B} (f : V → B) (m : JsMap.t V) k v v0 :
  JsMap.get k m = Some v0 → f v = f v0 →
  f <$> JsMap.values (JsMap.set k v m) = f <$> JsMap.values m.
Proof.
  unfold JsMap.values. induction m as [|[k' v'] m IH]; simpl; [done|].
  destruct (k' =? k)%Z; csimpl.
  - intros [= ->] Hf. by rewrite Hf.
  - intros Hg Hf. f_equal. by apply IH.
Qed.

Lemma onDeviceInfo_lastActive ws data st :
  Device.lastActive <$> getAllDevices (storage (onDeviceInfo ws data st))
  = Device.lastActive <$> getAllDevices (storage st).
Proof.
  unfold onDeviceInfo. destruct (getDeviceByDeviceId _ _) as [device|]; [|done].
  unfold updateDevice. destruct (JsMap.get _ _) as [device0|] eqn:E.
  - rewrite broadcast_storage. unfold getAllDevices. simpl.
    by apply JsMap_values_set_same with (v0 := device0).
  - by rewrite broadcast_storage.
Qed.

Lemma onMessage_device_info ws data now st :
  Data.type data = VStr "DEVICE_INFO" →
  onMessage ws data now st
  = if truthy (clientInfo_deviceId ws st) then onDeviceInfo ws data st else st.
Proof. intros H. unfold onMessage. rewrite H. reflexivity. Qed.

(** C9 (as amended). [updateDeviceStatus] on an existing device stores the
    new status together with [lastActive] set to the current time. Handling
    a [DEVICE_INFO] message leaves the [lastActive] of every stored device
    as it was: [updateDevice] is given the [info] property only. *)
Theorem lastActive_set_by_status_kept_by_info :
  (∀ (s : MemStorage) (deviceId : JsVal) (status : string) (now : Time)
     (device : Device.t),
     devices_wf (devices s) →
     getDeviceByDeviceId deviceId s = Some device →
     ∃ device',
       (updateDeviceStatus deviceId status now s).1 = Some device' ∧
       getDeviceByDeviceId deviceId (updateDeviceStatus deviceId status now s).2
         = Some device' ∧
       Device.status device' = status ∧ Device.lastActive device' = now) ∧
  (∀ (st : Server) (ws : WebSocket) (data : Data.t) (now : Time),
     Data.type data = VStr "DEVICE_INFO" →
     Device.lastActive <$> getAllDevices (storage (onMessage ws data now st))
     = Device.lastActive <$> getAllDevices (storage st)).
Proof.
  split.
  - intros s deviceId status now device Hwf Hdev.
    destruct (updateDeviceStatus_found deviceId status now s device Hwf Hdev)
      as (s' & -> & Hget & _).
    exists (Device.with_status device status now). by repeat split.
  - intros st ws data now Ht. rewrite (onMessage_device_info _ _ _ _ Ht).
    destruct (truthy _); [apply onDeviceInfo_lastActive | done].
Qed.

Lemma lastActive_set_by_status_kept_by_info_witness :
  (∃ device',
     getDeviceByDeviceId (VStr "D1")
       (updateDeviceStatus (VStr "D1") "online" 50%Z (store_D1 "offline")).2
       = Some device' ∧
     Device.status device' = "online" ∧ Device.lastActive device' = 50%Z) ∧
  Device.lastActive <$>
    getAllDevices (storage (onMessage 1 (device_info (VObj "{battery:80}")) 99%Z
                              (run three_clients (boot (store_D1 "offline")))))
  = [11%Z].
Proof.
  destruct lastActive_set_by_status_kept_by_info as [H1 H2]. split.
  - destruct (H1 (store_D1 "offline") (VStr "D1") "online" 50%Z (device_D1 "offline"))
      as (device' & _ & Hg & Hs & Hl).
    + concrete_devices_wf.
    + reflexivity.
    + exists device'. by repeat split.
  - rewrite H2 by reflexivity. vm_compute. reflexivity.
Defined.

(** C9 (as stated) fails on the info update: [D1] authenticated at instant
    11, its [DEVICE_INFO] message is handled at instant 99, and the stored
    [lastActive] is still 11. *)
Lemma info_update_sets_lastActive_counterexample : ¬ info_update_sets_lastActive.
Proof.
  intros H.
  destruct (H (store_D1 "offline") three_clients 1%nat
              (device_info (VObj "{battery:80}")) 99%Z
              (Device.with_status (device_D1 "offline") "online" 11%Z))
    as (device' & Hget & Hlast).
  - concrete_devices_wf.
  - vm_compute; reflexivity.
  - reflexivity.
  - vm_compute; reflexivity.
  - vm_compute; reflexivity.
  - vm_compute in Hget. injection Hget as <-. discriminate Hlast.
Qed.

(** ** C6: command responses *)

Lemma onMessage_command_response ws data now st :
  Data.type data = VStr "COMMAND_RESPONSE" →
  onMessage ws data now st
  = if truthy (clientInfo_deviceId ws st) then onCommandResponse data now st else st.
Proof.
  intros H. unfold onMessage. rewrite H. cbn [strict_eq_str String.eqb Ascii.eqb Bool.eqb].
  cbn [andb]. by destruct (truthy _).
Qed.

(** The command a response leaves in the store. *)
Lemma updateCommand_response id status result now s c :
  getCommandById (VNum id) s = Some c →
  updateCommand (VNum id)
    (Command.mkPartial None None None None (Some status) (Some result) None
                       (Some (Some now))) now s
  = (Some (Command.mk (Command.id c) (Command.deviceId c) (Command.command c)
                      (Command.parameters c) status result (Command.createdAt c)
                      (Some now)),
     set_commands
       (JsMap.set id
          (Command.mk (Command.id c) (Command.deviceId c) (Command.command c)
                      (Command.parameters c) status result (Command.createdAt c)
                      (Some now)) (commands s)) s).
Proof.
  unfold getCommandById, updateCommand. intros ->. simpl.
  by destruct (terminal_status status).
Qed.

(** C6 (as amended). [updateCommand] does not look at the stored status: it
    stores the spread of the stored command and the given fields (with
    [completedAt] set when the given status is terminal) under the same id.
    Hence a [COMMAND_RESPONSE] on a device-bound connection overwrites
    [status], [result] and [completedAt] of the command it names, whatever
    state that command was in, terminal states included. *)
Theorem command_response_overwrites_any_state :
  (∀ (s : MemStorage) (id : Z) (updatedFields : Command.partial) (now : Time)
     (c : Command.t),
     getCommandById (VNum id) s = Some c →
     let updated :=
       if terminal_status (default VUndefined (Command.p_status updatedFields))
       then Command.with_completedAt (Command.spread c updatedFields) now
       else Command.spread c updatedFields in
     (updateCommand (VNum id) updatedFields now s).1 = Some updated ∧
     getCommandById (VNum id) (updateCommand (VNum id) updatedFields now s).2
       = Some updated) ∧
  (∀ (st : Server) (ws : WebSocket) (data : Data.t) (now : Time) (id : Z)
     (c : Command.t),
     truthy (clientInfo_deviceId ws st) = true →
     Data.type data = VStr "COMMAND_RESPONSE" →
     Data.commandId data = VNum id →
     getCommandById (VNum id) (storage st) = Some c →
     getCommandById (VNum id) (storage (onMessage ws data now st))
     = Some (Command.mk (Command.id c) (Command.deviceId c) (Command.command c)
                        (Command.parameters c) (Data.status data)
                        (js_or (Data.result data) (VStr "")) (Command.createdAt c)
                        (Some now))).
Proof.
  split.
  - intros s id updatedFields now c Hc updated. subst updated.
    unfold getCommandById, updateCommand in *. simpl in *. rewrite Hc. simpl.
    split; [done|]. apply JsMap_get_set_eq.
  - intros st ws data now id c Hb Ht Hid Hc.
    rewrite (onMessage_command_response _ _ _ _ Ht), Hb.
    unfold onCommandResponse. rewrite Hid.
    rewrite (updateCommand_response _ _ _ _ _ _ Hc).
    unfold createActivity. rewrite broadcast_storage. simpl.
    apply JsMap_get_set_eq.
Qed.

Lemma command_response_overwrites_any_state_witness :
  getCommandById (VNum 1)
    (storage (onMessage 1 (command_response 1 "failed" "late") 40%Z
                (run answered (boot (store_D1 "offline")))))
  = Some (Command.mk 1 "D1" "ping" (VObj "{}") (VStr "failed") (VStr "late") 20%Z
                     (Some 40%Z)).
Proof.
  destruct command_response_overwrites_any_state as [_ H].
  apply (H (run answered (boot (store_D1 "offline"))) 1%nat
           (command_response 1 "failed" "late") 40%Z 1%Z
           (Command.mk 1 "D1" "ping" (VObj "{}") (VStr "completed") (VStr "pong") 20%Z
                       (Some 30%Z))).
  - vm_compute; reflexivity.
  - reflexivity.
  - reflexivity.
  - vm_compute; reflexivity.
Defined.

(** C6 (as stated) fails: command 1 is [completed] with result [pong]; a
    second [COMMAND_RESPONSE] for it turns it into [failed] with result
    [late] and a new [completedAt]. *)
Lemma terminal_states_final_counterexample : ¬ terminal_states_final.
Proof.
  intros H.
  specialize (H (store_D1 "offline") answered
                (Incoming 1 (command_response 1 "failed" "late") 40%Z) 1%Z
                (Command.mk 1 "D1" "ping" (VObj "{}") (VStr "completed") (VStr "pong")
                            20%Z (Some 30%Z))).
  vm_compute in H. specialize (H eq_refl eq_refl). discriminate H.
Qed.

(** ** C5: the close handler *)




(** ** C8: unknown entities *)

(** A [COMMAND_RESPONSE] naming no stored command changes neither the store
    nor the wire. *)
Lemma command_response_unknown_noop (st : Server) (ws : WebSocket) (data : Data.t)
  (now : Time) :
  Data.type data = VStr "COMMAND_RESPONSE" →
  getCommandById (Data.commandId data) (storage st) = None →
  onMessage ws data now st = st.
Proof.
  intros Ht Hc. rewrite (onMessage_command_response _ _ _ _ Ht).
  destruct (truthy _); [|done].
  unfold onCommandResponse, updateCommand. unfold getCommandById in Hc. rewrite Hc.
  by destruct st.
Qed.

(** C8, at the failing input. Socket 1 authenticated as [ghost], a device
    with no Device record: the AUTH wrote nothing to the store and nothing
    to the wire. When socket 1 closes, the handler appends the activity
    "Device disconnected" to the store and broadcasts
    [DEVICE_STATUS_CHANGED(ghost, offline)] to the dashboard on socket 0. *)
Theorem close_unknown_device_mutates_and_broadcasts :
  let st := run ghost_device (boot newStorage) in
  let st' := step (Close 1 30%Z) st in
  getDeviceByDeviceId (VStr "ghost") (storage st) = None ∧
  storage st = newStorage ∧ wire st = [] ∧
  activities (storage st')
    = [(1%Z, Activity.mk 1 (VStr "ghost") "status" DeviceDisconnected (VStr "completed")
                         NoDetails 30%Z)] ∧
  written st st' = [(0, DEVICE_STATUS_CHANGED (VStr "ghost") "offline")].
Proof. vm_compute. by repeat split. Qed.

(** ** C10: AUTH with a token *)

Lemma onMessage_auth ws data now st :
  Data.type data = VStr "AUTH" → onMessage ws data now st = onAuth ws data now st.
Proof. intros H. unfold onMessage. rewrite H. reflexivity. Qed.

Lemma clientInfo_deviceId_assign ws v st c0 :
  clientInfos st !! ws = Some c0 →
  clientInfos (assign_deviceId ws v st) !! ws
  = Some (ConnectedClient.mk (ConnectedClient.ws c0) v (ConnectedClient.userId c0)).
Proof. intros H. simpl. by rewrite lookup_alter_eq, H. Qed.

Lemma clients_assign_other ws v st c :
  registry_wf (assign_deviceId ws v st) →
  c ∈ clients (assign_deviceId ws v st) → ConnectedClient.ws c ≠ ws → c ∈ clients st.
Proof.
  intros Hwf (r & Hr & Hc)%elem_of_clients Hne. apply elem_of_clients.
  exists r. split; [done|].
  pose proof (wf_ws _ Hwf _ _ Hc) as Hws. simpl in Hc.
  rewrite lookup_alter_ne in Hc; [done | congruence].
Qed.

(** C10 (as amended). On an accepted connection, an AUTH message whose
    [token] is truthy assigns [data.deviceId] to the connection whatever it
    was bound to before and whether or not a Device record matches. When no
    record matches, the store and the wire are left as they were. The
    connection is then the one [sendToDevice] addresses, and the call
    returns [true], provided it is still registered, its socket is open and
    no earlier-registered connection is bound to the same [deviceId]. *)
Theorem auth_token_binds_without_device (st : Server) (ws : WebSocket) (data : Data.t)
  (now : Time) (c0 : ConnectedClient.t) :
  registry_wf st →
  clientInfos st !! ws = Some c0 →
  Data.type data = VStr "AUTH" →
  truthy (Data.token data) = true →
  let st' := onMessage ws data now st in
  clientInfo_deviceId ws st' = Data.deviceId data ∧
  (getDeviceByDeviceId (Data.deviceId data) (storage st) = None →
   storage st' = storage st ∧ wire st' = wire st) ∧
  (∀ (d : string) (m : Message),
     Data.deviceId data = VStr d →
     ws ∈ connectedClients st → is_open st ws = true →
     (∀ c, c ∈ clients st → (ConnectedClient.ws c < ws)%nat → ¬ bound_to d c) →
     sendToDevice d m st' = (true, send ws m st')).
Proof.
  intros Hwf Hc0 Ht Htok st'. subst st'. rewrite (onMessage_auth _ _ _ _ Ht).
  pose proof (onAuth_same_registry ws data now st) as Hreg.
  unfold auth_binding in Hreg. rewrite Htok in Hreg.
  set (sa := assign_deviceId ws (Data.deviceId data) st) in *.
  assert (registry_wf sa) as Hwfa.
  { apply registry_wf_alter; [done | exact Hwf]. }
  pose proof (clientInfo_deviceId_assign ws (Data.deviceId data) st c0 Hc0) as Ha.
  fold sa in Ha. rewrite (wf_ws _ Hwf _ _ Hc0) in Ha.
  split; [|split].
  - unfold clientInfo_deviceId. destruct Hreg as (_ & -> & _). by rewrite Ha.
  - intros Hnone. unfold onAuth. rewrite Htok.
    change (storage (assign_deviceId ws (Data.deviceId data) st)) with (storage st).
    by rewrite Hnone.
  - intros d m Hd Hin Ho Hearlier.
    set (e := ConnectedClient.mk ws (Data.deviceId data) (ConnectedClient.userId c0)) in *.
    assert (e ∈ clients sa) as He by (apply elem_of_clients; eauto).
    assert (bound_to d e) as Hbe by exact Hd.
    unfold sendToDevice. rewrite (same_registry_find _ _ d Hreg).
    destruct (proj2 (findByDevice_iff_entry sa d)) as [c Hf]; [eauto|].
    rewrite Hf.
    destruct (findByDevice_first sa d c Hwfa Hf) as (Hcin & Hcb & Hmin).
    specialize (Hmin e He Hbe). simpl in Hmin.
    assert (ConnectedClient.ws c = ws) as Hws.
    { destruct (decide (ConnectedClient.ws c = ws)) as [|Hne]; [done|].
      exfalso. apply (Hearlier c); [|lia|done].
      by apply (clients_assign_other ws (Data.deviceId data)). }
    rewrite Hws, (same_registry_is_open _ _ _ Hreg).
    change (is_open sa ws) with (is_open st ws). by rewrite Ho.
Qed.

Lemma auth_token_binds_without_device_witness :
  let st := run [Connection; Connection] (boot newStorage) in
  let st' := onMessage 1 (auth_device "ghost") 11%Z st in
  clientInfo_deviceId 1 st' = VStr "ghost" ∧
  storage st' = storage st ∧ wire st' = wire st ∧
  sendToDevice "ghost" (DEVICE_REMOVED "x") st' = (true, send 1 (DEVICE_REMOVED "x") st').
Proof.
  intros st st'.
  destruct (auth_token_binds_without_device st 1 (auth_device "ghost") 11%Z
              (ConnectedClient.mk 1 VUndefined VUndefined)) as (H1 & H2 & H3).
  - apply registry_wf_reachable.
  - vm_compute; reflexivity.
  - reflexivity.
  - reflexivity.
  - split; [exact H1|]. destruct H2 as [H2 H2']; [vm_compute; reflexivity|].
    split; [exact H2|]. split; [exact H2'|].
    apply H3.
    + reflexivity.
    + vm_compute. right. left.
    + vm_compute; reflexivity.
    + intros c Hc Hlt Hb. vm_compute in Hc.
      apply elem_of_cons in Hc as [->|Hc]; [discriminate Hb|].
      apply elem_of_cons in Hc as [->|Hc]; [discriminate Hb|].
      by apply elem_of_nil in Hc.
Defined.

(** C10 (as stated) fails: socket 0 authenticated as [ghost] earlier and its
    socket has left [OPEN] while it is still registered. Socket 1 now
    authenticates as [ghost] with a token; it is bound and open, yet
    [sendToDevice("ghost", m)] finds socket 0 first and returns [false]. *)
Lemma auth_makes_addressable_counterexample : ¬ auth_makes_addressable.
Proof.
  intros H.
  specialize (H newStorage stale_ghost 1%nat (auth_device "ghost") 20%Z "ghost"
                (DEVICE_REMOVED "x")).
  cbv zeta in H.
  assert ((sendToDevice "ghost" (DEVICE_REMOVED "x")
             (step (Incoming 1 (auth_device "ghost") 20%Z)
                (run stale_ghost (boot newStorage)))).1 = false) as H2
    by (vm_compute; reflexivity).
  rewrite H in H2; [discriminate H2 | | | | | |].
  - vm_compute. right. left.
  - reflexivity.
  - reflexivity.
  - reflexivity.
  - vm_compute; reflexivity.
  - vm_compute; reflexivity.
Qed.

(** * Further properties *)

(** ** Identifiers are fresh and never reused *)

Lemma JsMap_set_absent {V} (m : JsMap.t V) k v :
  k ∉ JsMap.keys m → JsMap.set k v m = m ++ [(k, v)].
Proof.
  unfold JsMap.keys. induction m as [|[k' v'] m IH]; csimpl; [done|].
  intros [Hne Hn]%not_elem_of_cons.
  destruct (k' =? k)%Z eqn:E; [apply Z.eqb_eq in E; congruence|].
  by rewrite IH.
Qed.

Lemma keys_below_not_key {V} (m : JsMap.t V) n : keys_below n m → n ∉ JsMap.keys m.
Proof.
  unfold keys_below. rewrite Forall_forall. intros H Hin. specialize (H _ Hin). lia.
Qed.

Lemma keys_below_set_counter {V} (m : JsMap.t V) n v :
  keys_below n m → keys_below (n + 1) (JsMap.set n v m).
Proof.
  intros H. rewrite (JsMap_set_absent _ _ _ (keys_below_not_key _ _ H)).
  unfold keys_below, JsMap.keys in *. rewrite fmap_app. apply Forall_app. split.
  - eapply Forall_impl; [exact H|]. simpl. lia.
  - repeat constructor. simpl. lia.
Qed.

Lemma keys_below_set_present {V} (m : JsMap.t V) n k v v0 :
  JsMap.get k m = Some v0 → keys_below n m → keys_below n (JsMap.set k v m).
Proof. intros Hg H. unfold keys_below. by rewrite (JsMap_keys_set_present _ _ _ _ Hg). Qed.

Lemma keys_below_delete {V} (m : JsMap.t V) n k :
  keys_below n m → keys_below n (JsMap.delete k m).
Proof.
  unfold keys_below. intros H. rewrite Forall_forall in *. intros x Hx. apply H.
  eapply elem_of_sublist; [exact Hx | apply JsMap_keys_delete_sublist].
Qed.

Lemma find_device_key (m : JsMap.t Device.t) deviceId device :
  devices_wf m →
  List.find (same_device deviceId) (JsMap.values m) = Some device →
  JsMap.get (Device.id device) m = Some device.
Proof.
  unfold JsMap.values. intros [Hnd Hid] Hf.
  induction m as [|[k v] m IH]; simpl in *; [done|].
  apply NoDup_cons in Hnd as [Hk Hnd]. apply Forall_cons in Hid as [Hkv Hid].
  simpl in Hkv. destruct (same_device deviceId v) eqn:E.
  - injection Hf as ->. subst k. by rewrite Z.eqb_refl.
  - destruct (k =? Device.id device)%Z eqn:Ek; [|by apply IH].
    apply Z.eqb_eq in Ek. exfalso. apply Hk. rewrite Ek.
    specialize (IH Hnd Hid Hf). apply JsMap_get_Some_key in IH.
    unfold JsMap.keys. by apply (list_elem_of_fmap_2 fst) in IH.
Qed.

Lemma storage_wf_newStorage : storage_wf newStorage.
Proof. split; [apply devices_wf_nil|]. repeat split; constructor. Qed.

Lemma storage_wf_createDevice device now s :
  storage_wf s → storage_wf (createDevice device now s).2.
Proof.
  intros [Hd (H1 & H2 & H3)]. split; [by apply devices_wf_createDevice|].
  repeat split; simpl; try done. by apply keys_below_set_counter.
Qed.

Lemma storage_wf_createCommand command now s :
  storage_wf s → storage_wf (createCommand command now s).2.
Proof.
  intros [Hd (H1 & H2 & H3)]. split; [done|].
  repeat split; simpl; try done. by apply keys_below_set_counter.
Qed.

Lemma storage_wf_createActivity activity now s :
  storage_wf s → storage_wf (createActivity activity now s).2.
Proof.
  intros [Hd (H1 & H2 & H3)]. split; [done|].
  repeat split; simpl; try done. by apply keys_below_set_counter.
Qed.

Lemma storage_wf_updateDeviceStatus deviceId status now s :
  storage_wf s → storage_wf (updateDeviceStatus deviceId status now s).2.
Proof.
  intros [Hd (H1 & H2 & H3)]. split; [by apply devices_wf_updateDeviceStatus|].
  unfold updateDeviceStatus.
  change (fun device : Device.t => str_strict_eq (Device.deviceId device) deviceId)
    with (same_device deviceId).
  destruct (List.find _ _) as [device|] eqn:E; [|done].
  repeat split; simpl; try done.
  eapply keys_below_set_present; [by apply (find_device_key _ deviceId) | done].
Qed.

Lemma storage_wf_updateDevice_info id v s :
  storage_wf s → storage_wf (updateDevice id (Device.only_info v) s).2.
Proof.
  intros [Hd (H1 & H2 & H3)]. split; [by apply devices_wf_updateDevice_info|].
  unfold updateDevice. destruct (JsMap.get id (devices s)) as [device|] eqn:E; [|done].
  repeat split; simpl; try done. by eapply keys_below_set_present.
Qed.

Lemma storage_wf_removeDevice id s : storage_wf s → storage_wf (removeDevice id s).2.
Proof.
  intros [Hd (H1 & H2 & H3)]. split; [by apply devices_wf_delete|].
  repeat split; simpl; try done. by apply keys_below_delete.
Qed.

Lemma storage_wf_updateCommand id fields now s :
  storage_wf s → storage_wf (updateCommand id fields now s).2.
Proof.
  intros [Hd (H1 & H2 & H3)]. unfold updateCommand.
  destruct (JsMap.getv id (commands s)) as [c|] eqn:E; [|done].
  split; [done|]. repeat split; simpl; try done.
  destruct id; simpl in *; try done. by eapply keys_below_set_present.
Qed.

(** ** What every handler keeps true of the store

    A handler touches the store through six methods only, and writes no
    status but [online] and [offline]; whatever these calls keep, every
    event keeps. *)
Section StoreInvariant.
Variable P : MemStorage → Prop.
Hypothesis P_updateDeviceStatus : ∀ deviceId status now s,
  status = "online" ∨ status = "offline" →
  P s → P (updateDeviceStatus deviceId status now s).2.
Hypothesis P_updateDevice : ∀ id v s, P s → P (updateDevice id (Device.only_info v) s).2.
Hypothesis P_removeDevice : ∀ id s, P s → P (removeDevice id s).2.
Hypothesis P_createCommand : ∀ c now s, P s → P (createCommand c now s).2.
Hypothesis P_updateCommand : ∀ id fields now s, P s → P (updateCommand id fields now s).2.
Hypothesis P_createActivity : ∀ a now s, P s → P (createActivity a now s).2.

Ltac store_call :=
  match goal with
  | H : P ?s |- context [createActivity ?a ?n ?s] =>
      let H' := fresh "H" in
      pose proof (P_createActivity a n s H) as H';
      destruct (createActivity a n s) as [? ?]; simpl in H'
  | H : P ?s |- context [createCommand ?a ?n ?s] =>
      let H' := fresh "H" in
      pose proof (P_createCommand a n s H) as H';
      destruct (createCommand a n s) as [? ?]; simpl in H'
  | H : P ?s |- context [updateCommand ?i ?f ?n ?s] =>
      let H' := fresh "H" in
      pose proof (P_updateCommand i f n s H) as H';
      destruct (updateCommand i f n s) as [[?|] ?]; simpl in H'
  | H : P ?s |- context [updateDevice ?i (Device.only_info ?v) ?s] =>
      let H' := fresh "H" in
      pose proof (P_updateDevice i v s H) as H';
      destruct (updateDevice i (Device.only_info v) s) as [? ?]; simpl in H'
  | H : P ?s |- context [removeDevice ?i ?s] =>
      let H' := fresh "H" in
      pose proof (P_removeDevice i s H) as H';
      destruct (removeDevice i s) as [? ?]; simpl in H'
  | H : P ?s |- context [updateDeviceStatus ?d "online" ?n ?s] =>
      let H' := fresh "H" in
      pose proof (P_updateDeviceStatus d "online" n s (or_introl eq_refl) H) as H';
      destruct (updateDeviceStatus d "online" n s) as [? ?]; simpl in H'
  | H : P ?s |- context [updateDeviceStatus ?d "offline" ?n ?s] =>
      let H' := fresh "H" in
      pose proof (P_updateDeviceStatus d "offline" n s (or_intror eq_refl) H) as H';
      destruct (updateDeviceStatus d "offline" n s) as [? ?]; simpl in H'
  end.

Lemma invariant_onAuth ws data now st :
  P (storage st) → P (storage (onAuth ws data now st)).
Proof.
  intros H. unfold onAuth. destruct (truthy (Data.token data)).
  - change (storage (assign_deviceId ws (Data.deviceId data) st)) with (storage st).
    destruct (getDeviceByDeviceId _ _); [|done].
    repeat store_call. by rewrite broadcast_storage.
  - by destruct (truthy (Data.userId data)).
Qed.

Lemma invariant_onCommandResponse data now st :
  P (storage st) → P (storage (onCommandResponse data now st)).
Proof.
  intros H. unfold onCommandResponse. cbv zeta.
  store_call; [|done]. store_call. by rewrite broadcast_storage.
Qed.

Lemma invariant_onDeviceInfo ws data st :
  P (storage st) → P (storage (onDeviceInfo ws data st)).
Proof.
  intros H. unfold onDeviceInfo. destruct (getDeviceByDeviceId _ _) as [device|]; [|done].
  store_call. by rewrite broadcast_storage.
Qed.

Lemma invariant_onMessage ws data now st :
  P (storage st) → P (storage (onMessage ws data now st)).
Proof.
  intros H. unfold onMessage. cbv zeta.
  match goal with
  | |- context [if ?b then onDeviceInfo ws data ?x else _] =>
      assert (P (storage x)) as H2
  end.
  { match goal with
    | |- context [if ?b then onCommandResponse data now ?x else _] =>
        assert (P (storage x)) as H1
    end.
    { destruct (strict_eq_str _ _); [by apply invariant_onAuth | done]. }
    destruct (_ && _); [by apply invariant_onCommandResponse | done]. }
  destruct (strict_eq_str (Data.type data) "DEVICE_INFO" && _);
    [by apply invariant_onDeviceInfo | done].
Qed.

Lemma invariant_onClose ws now st :
  P (storage st) → P (storage (onClose ws now st)).
Proof.
  intros H. unfold onClose. cbv zeta. destruct (truthy _); [|done].
  repeat store_call. simpl. by rewrite broadcast_storage.
Qed.

Lemma invariant_postCommand d c p now st :
  P (storage st) → P (storage (postCommand d c p now st).2).
Proof.
  intros H. unfold postCommand. destruct (getDeviceByDeviceId _ _) as [device|]; [|done].
  repeat store_call. rewrite sendToDevice_set_storage.
  destruct (sendToDevice _ _ st) as [delivered st1]. cbn [fst snd].
  destruct (negb delivered && _); [|done].
  match goal with |- context [set_storage ?s st1] =>
    change (storage (set_storage s st1)) with s end.
  store_call. by rewrite broadcast_storage.
Qed.

Lemma invariant_deleteDevice id u now st :
  P (storage st) → P (storage (deleteDevice id u now st).2).
Proof.
  intros H. unfold deleteDevice. destruct (getDeviceById _ _); [|done].
  repeat store_call. cbn [snd]. by rewrite broadcast_storage.
Qed.

Lemma invariant_step e st : P (storage st) → P (storage (step e st)).
Proof.
  intros H. destruct e; simpl; try done.
  - destruct (accepted ws st); [by apply invariant_onMessage | done].
  - by destruct (accepted ws st).
  - destruct (accepted ws st); [by apply invariant_onClose | done].
  - by apply invariant_postCommand.
  - by apply invariant_deleteDevice.
Qed.

Lemma invariant_run tr : ∀ st, P (storage st) → P (storage (run tr st)).
Proof.
  induction tr as [|e tr IH]; intros st H; [done|].
  simpl. apply IH. by apply invariant_step.
Qed.

End StoreInvariant.

(** X1. Over a well-formed store (entities stored under their own id, no id
    twice, every id below its counter), as [new MemStorage()] is, every
    event of the server leaves the store well formed. *)
Theorem storage_wf_run (tr : list Event) (st : Server) :
  storage_wf (storage st) → storage_wf (storage (run tr st)).
Proof.
  apply (invariant_run storage_wf).
  - intros deviceId status now s _. apply storage_wf_updateDeviceStatus.
  - apply storage_wf_updateDevice_info.
  - apply storage_wf_removeDevice.
  - apply storage_wf_createCommand.
  - apply storage_wf_updateCommand.
  - apply storage_wf_createActivity.
Qed.

Lemma storage_wf_run_witness :
  storage_wf (storage (run answered (boot (store_D1 "offline")))).
Proof.
  apply storage_wf_run. split; [concrete_devices_wf|].
  repeat split; vm_compute; repeat constructor.
Defined.

(** X2. In a store whose ids are below the counters, [createDevice],
    [createCommand] and [createActivity] overwrite nothing: the new record
    gets the counter as its id and goes last, after every record that was
    there, the counter grows by one, and the ids of the new store are below
    its counters again, so the next creation gets another id. In particular
    two creations in a row store two records, and the id of a removed
    device is not handed out again. *)
Theorem create_appends_with_fresh_id (s : MemStorage) (now : Time) :
  ids_fresh s →
  (∀ device,
     Device.id (createDevice device now s).1 = currentId_devices s ∧
     currentId_devices (createDevice device now s).2 = (currentId_devices s + 1)%Z ∧
     getAllDevices (createDevice device now s).2
     = getAllDevices s ++ [(createDevice device now s).1] ∧
     ids_fresh (createDevice device now s).2) ∧
  (∀ command,
     Command.id (createCommand command now s).1 = currentId_commands s ∧
     currentId_commands (createCommand command now s).2 = (currentId_commands s + 1)%Z ∧
     getAllCommands (createCommand command now s).2
     = getAllCommands s ++ [(createCommand command now s).1] ∧
     ids_fresh (createCommand command now s).2) ∧
  (∀ activity,
     Activity.id (createActivity activity now s).1 = currentId_activities s ∧
     currentId_activities (createActivity activity now s).2
     = (currentId_activities s + 1)%Z ∧
     JsMap.values (activities (createActivity activity now s).2)
     = JsMap.values (activities s) ++ [(createActivity activity now s).1] ∧
     ids_fresh (createActivity activity now s).2) ∧
  (∀ command command' now',
     let s1 := (createCommand command now s).2 in
     Command.id (createCommand command' now' s1).1 = (currentId_commands s + 1)%Z ∧
     getAllCommands (createCommand command' now' s1).2
     = getAllCommands s
       ++ [(createCommand command now s).1; (createCommand command' now' s1).1]) ∧
  (∀ id device,
     is_Some (getDeviceById id s) →
     Device.id (createDevice device now (removeDevice id s).2).1 ≠ id).
Proof.
  intros (H1 & H2 & H3).
  assert (∀ command now0,
            getAllCommands (createCommand command now0 s).2
            = getAllCommands s ++ [(createCommand command now0 s).1]) as Hc.
  { intros command now0. unfold getAllCommands, JsMap.values. simpl.
    rewrite (JsMap_set_absent _ _ _ (keys_below_not_key _ _ H2)).
    by rewrite fmap_app. }
  assert (∀ command now0, ids_fresh (createCommand command now0 s).2) as Hcf.
  { intros command now0. repeat split; simpl; [done| |done].
    by apply keys_below_set_counter. }
  split; [|split; [|split; [|split]]].
  - intros device. split; [done|]. split; [done|]. split.
    + unfold getAllDevices, JsMap.values. simpl.
      rewrite (JsMap_set_absent _ _ _ (keys_below_not_key _ _ H1)).
      by rewrite fmap_app.
    + repeat split; simpl; [|done|done]. by apply keys_below_set_counter.
  - intros command. split; [done|]. split; [done|]. split; [apply Hc | apply Hcf].
  - intros activity. split; [done|]. split; [done|]. split.
    + unfold JsMap.values. simpl.
      rewrite (JsMap_set_absent _ _ _ (keys_below_not_key _ _ H3)).
      by rewrite fmap_app.
    + repeat split; simpl; [done|done|]. by apply keys_below_set_counter.
  - intros command command' now'. cbv zeta. split; [done|].
    destruct (Hcf command now) as (_ & H2' & _).
    unfold getAllCommands, JsMap.values in *.
    cbn [createCommand snd fst commands currentId_commands] in *.
    rewrite (JsMap_set_absent _ _ _ (keys_below_not_key _ _ H2')).
    rewrite (JsMap_set_absent _ _ _ (keys_below_not_key _ _ H2)).
    by rewrite !fmap_app, <- app_assoc.
  - intros id device [d0 E]. unfold getDeviceById in E.
    simpl. apply JsMap_get_Some_key in E.
    apply (list_elem_of_fmap_2 fst) in E. simpl in E.
    unfold keys_below in H1. rewrite Forall_forall in H1. specialize (H1 _ E). lia.
Qed.

Lemma create_appends_with_fresh_id_witness :
  getAllCommands
    (createCommand (Command.mkInsert "D1" "wake" VUndefined) 6%Z
       (createCommand (Command.mkInsert "D1" "ping" VUndefined) 5%Z
          (storage (run answered (boot (store_D1 "offline"))))).2).2
  = getAllCommands (storage (run answered (boot (store_D1 "offline"))))
    ++ [Command.mk 2 "D1" "ping" VUndefined (VStr "pending") (VStr "") 5%Z None;
        Command.mk 3 "D1" "wake" VUndefined (VStr "pending") (VStr "") 6%Z None].
Proof.
  destruct (create_appends_with_fresh_id
              (storage (run answered (boot (store_D1 "offline")))) 5%Z)
    as (_ & _ & _ & H & _).
  - repeat split; vm_compute; repeat constructor.
  - destruct (H (Command.mkInsert "D1" "ping" VUndefined)
                (Command.mkInsert "D1" "wake" VUndefined) 6%Z) as [_ ->]. reflexivity.
Defined.

(** ** The activity log, newest first *)

Lemma sort_insert_Permutation {A} (compare : A → A → Z) x l :
  sort_insert compare x l ≡ₚ x :: l.
Proof.
  induction l as [|y l IH]; simpl; [done|].
  destruct (compare x y <=? 0)%Z; [done|].
  rewrite IH. apply Permutation_swap.
Qed.

Lemma js_sort_Permutation {A} (compare : A → A → Z) l : js_sort compare l ≡ₚ l.
Proof.
  induction l as [|x l IH]; simpl; [done|].
  rewrite sort_insert_Permutation. by rewrite IH.
Qed.

Lemma sort_insert_newest_first x l :
  StronglySorted not_older l → StronglySorted not_older (sort_insert newest_first x l).
Proof.
  induction 1 as [|y l Hl IH Hy]; simpl; [repeat constructor|].
  unfold newest_first at 1. destruct (_ <=? 0)%Z eqn:E.
  - apply Z.leb_le in E. constructor; [by constructor|].
    constructor; [unfold not_older; lia|].
    eapply Forall_impl; [exact Hy|]. unfold not_older. intros z Hz. simpl in *. lia.
  - apply Z.leb_gt in E. constructor; [done|].
    rewrite sort_insert_Permutation. constructor; [unfold not_older; lia | done].
Qed.

Lemma js_sort_newest_first l : StronglySorted not_older (js_sort newest_first l).
Proof.
  induction l as [|x l IH]; simpl; [constructor|]. by apply sort_insert_newest_first.
Qed.

Lemma sort_insert_stable t x l :
  List.filter (created_at t) (sort_insert newest_first x l)
  = List.filter (created_at t) (x :: l).
Proof.
  induction l as [|y l IH]; [done|]. cbn [sort_insert].
  unfold newest_first at 1. destruct (_ <=? 0)%Z eqn:E; [done|].
  apply Z.leb_gt in E. cbn [List.filter] in *. rewrite IH.
  unfold created_at.
  destruct (Activity.createdAt x =? t)%Z eqn:Ex; [|done].
  destruct (Activity.createdAt y =? t)%Z eqn:Ey; [|done].
  apply Z.eqb_eq in Ex, Ey. lia.
Qed.

Lemma js_sort_stable t l :
  List.filter (created_at t) (js_sort newest_first l) = List.filter (created_at t) l.
Proof.
  induction l as [|x l IH]; [done|]. simpl js_sort.
  rewrite sort_insert_stable. simpl. by rewrite IH.
Qed.

(** X3. [getAllActivities()] without a limit returns every stored activity
    once, ordered by [createdAt] from the newest to the oldest; activities
    created at the same instant keep the order in which they were stored. *)
Theorem getAllActivities_newest_first_stable (s : MemStorage) :
  getAllActivities NoLimit s ≡ₚ JsMap.values (activities s) ∧
  StronglySorted not_older (getAllActivities NoLimit s) ∧
  ∀ t, List.filter (created_at t) (getAllActivities NoLimit s)
       = List.filter (created_at t) (JsMap.values (activities s)).
Proof.
  unfold getAllActivities. split; [apply js_sort_Permutation|].
  split; [apply js_sort_newest_first|]. intros t. apply js_sort_stable.
Qed.

(** X4. The [limit] of [getAllActivities]: a positive limit [n] keeps the
    [n] newest activities (all of them when there are fewer); no limit, a
    limit that is [NaN] and the limit 0 all return the whole log; a negative
    limit [-k] returns the log without its [k] oldest entries. *)
Theorem getAllActivities_limit (s : MemStorage) :
  let all := getAllActivities NoLimit s in
  getAllActivities LimitNaN s = all ∧
  getAllActivities (LimitNum 0) s = all ∧
  (∀ n, (0 < n)%Z →
        getAllActivities (LimitNum n) s = take (Z.to_nat n) all ∧
        length (getAllActivities (LimitNum n) s) = (Z.to_nat n `min` length all)%nat) ∧
  (∀ k, (0 < k)%Z →
        getAllActivities (LimitNum (- k)) s = take (length all - Z.to_nat k) all).
Proof.
  intros all. subst all. unfold getAllActivities. cbn [limit_truthy].
  split; [done|]. split; [done|]. split.
  - intros n Hn. destruct (n =? 0)%Z eqn:E; [apply Z.eqb_eq in E; lia|]. simpl.
    unfold slice0. destruct (n <? 0)%Z eqn:E'; [apply Z.ltb_lt in E'; lia|].
    set (l := js_sort _ _).
    assert (take (Z.to_nat (n `min` Z.of_nat (length l))) l = take (Z.to_nat n) l) as ->.
    { destruct (Z.le_gt_cases n (Z.of_nat (length l))).
      - by rewrite Z.min_l.
      - rewrite Z.min_r by lia. rewrite Nat2Z.id.
        rewrite !take_ge; [done | lia | lia]. }
    split; [done|]. apply length_take.
  - intros k Hk. destruct (- k =? 0)%Z eqn:E; [apply Z.eqb_eq in E; lia|]. simpl.
    unfold slice0. destruct (- k <? 0)%Z eqn:E'; [|apply Z.ltb_ge in E'; lia].
    f_equal. lia.
Qed.

Lemma strict_eq_true_str v s : strict_eq v (VStr s) = true ↔ v = VStr s.
Proof.
  destruct v; simpl; try (split; [done | intros [=]]).
  rewrite String.eqb_eq. split; [by intros -> | by intros [= ->]].
Qed.

(** X5. [getActivitiesByDeviceId(deviceId)] returns exactly the stored
    activities whose [deviceId] is identical to the argument, each once,
    newest first; and [GET /api/activities] with a [deviceId] in the query
    returns that list whatever [limit] the query carries. *)
Theorem getActivitiesByDeviceId_exact (st : Server) (deviceId : JsVal) :
  getActivitiesByDeviceId deviceId (storage st)
    ≡ₚ List.filter (fun a => strict_eq (Activity.deviceId a) deviceId)
                   (JsMap.values (activities (storage st))) ∧
  (∀ a, a ∈ getActivitiesByDeviceId deviceId (storage st) ↔
        a ∈ JsMap.values (activities (storage st)) ∧
        strict_eq (Activity.deviceId a) deviceId = true) ∧
  StronglySorted not_older (getActivitiesByDeviceId deviceId (storage st)) ∧
  (truthy deviceId = true →
   ∀ limit, getActivities limit deviceId st
            = getActivitiesByDeviceId deviceId (storage st)).
Proof.
  unfold getActivitiesByDeviceId. split; [apply js_sort_Permutation|]. split.
  - intros a. rewrite js_sort_Permutation, elem_of_filter_bool. reflexivity.
  - split; [apply js_sort_newest_first|].
    intros Ht limit. unfold getActivities. by rewrite Ht.
Qed.

Lemma getActivitiesByDeviceId_exact_witness :
  getActivities (LimitNum 1) (VStr "D1") (run answered (boot (store_D1 "offline")))
  = getActivitiesByDeviceId (VStr "D1")
      (storage (run answered (boot (store_D1 "offline")))) ∧
  length (getActivitiesByDeviceId (VStr "D1")
            (storage (run answered (boot (store_D1 "offline"))))) = 3%nat.
Proof.
  destruct (getActivitiesByDeviceId_exact (run answered (boot (store_D1 "offline")))
              (VStr "D1")) as (_ & _ & _ & H).
  split; [by apply H | vm_compute; reflexivity].
Defined.

Lemma getAllActivities_limit_witness :
  getAllActivities (LimitNum 2) (storage (run answered (boot (store_D1 "offline"))))
  = take 2 (getAllActivities NoLimit (storage (run answered (boot (store_D1 "offline")))))
  ∧ getAllActivities (LimitNum (-1)) (storage (run answered (boot (store_D1 "offline"))))
  = take 2 (getAllActivities NoLimit (storage (run answered (boot (store_D1 "offline"))))).
Proof.
  destruct (getAllActivities_limit (storage (run answered (boot (store_D1 "offline")))))
    as (_ & _ & H1 & H2).
  split.
  - destruct (H1 2%Z) as [-> _]; [lia | reflexivity].
  - etrans; [exact (H2 1%Z ltac:(lia))|]. vm_compute. reflexivity.
Defined.

(** ** [POST /api/commands] and the command lists *)

(** The handler for a device the store has, with its steps spelled out. *)
Lemma postCommand_found d command parameters now st device :
  getDeviceByDeviceId (VStr d) (storage st) = Some device →
  let newCommand :=
    Command.mk (currentId_commands (storage st)) d command
               (js_or parameters (VObj "{}")) (VStr "pending") (VStr "") now None in
  let s2 :=
    (createActivity
       (Activity.mkInsert (VStr d) "command" (CommandCreated command) (VStr "pending")
          (CreatedDetails (currentId_commands (storage st)) parameters)) now
       (createCommand (Command.mkInsert d command (js_or parameters (VObj "{}"))) now
          (storage st)).2).2 in
  let delivered := (sendToDevice d (COMMAND newCommand) st).1 in
  let st1 := set_storage s2 (sendToDevice d (COMMAND newCommand) st).2 in
  postCommand d command parameters now st
  = (Created newCommand,
     if negb delivered && String.eqb (Device.status device) "online"
     then broadcastToClients (DEVICE_STATUS_CHANGED (VStr d) "offline") None
            (set_storage (updateDeviceStatus (VStr d) "offline" now s2).2 st1)
     else st1).
Proof.
  intros Hdev. cbv zeta. unfold postCommand. rewrite Hdev.
  unfold createCommand, createActivity. cbv zeta. rewrite sendToDevice_set_storage.
  destruct (sendToDevice d _ st) as [delivered st1]. cbn [fst snd].
  destruct (negb delivered && _); [|done].
  change (storage (set_storage ?s st1)) with s.
  by destruct (updateDeviceStatus _ _ _ _).
Qed.

Lemma updateDeviceStatus_other_maps deviceId status now s :
  commands (updateDeviceStatus deviceId status now s).2 = commands s ∧
  activities (updateDeviceStatus deviceId status now s).2 = activities s.
Proof. unfold updateDeviceStatus. by destruct (List.find _ _). Qed.

Lemma postCommand_commands d command parameters now st device :
  getDeviceByDeviceId (VStr d) (storage st) = Some device →
  commands (storage (postCommand d command parameters now st).2)
  = JsMap.set (currentId_commands (storage st))
      (Command.mk (currentId_commands (storage st)) d command
                  (js_or parameters (VObj "{}")) (VStr "pending") (VStr "") now None)
      (commands (storage st)).
Proof.
  intros Hdev. rewrite (postCommand_found _ _ _ _ _ _ Hdev). cbn [snd].
  destruct (negb _ && _); [|done].
  rewrite broadcast_storage. cbn [storage set_storage].
  by rewrite (proj1 (updateDeviceStatus_other_maps _ _ _ _)).
Qed.

Lemma filter_bool_app {A} (p : A → bool) (l k : list A) :
  List.filter p (l ++ k) = List.filter p l ++ List.filter p k.
Proof. apply List.filter_app. Qed.

(** X6. When [POST /api/commands] accepts a command for device [d], over a
    store with fresh ids, the list [getCommandsByDeviceId(d)] grows by
    exactly the new command, at its end, and the list of every other device
    is unchanged. Every command listed for a device was created for it. *)
Theorem postCommand_extends_device_list (st : Server) (d command : string)
  (parameters : JsVal) (now : Time) (device : Device.t) (newCommand : Command.t) :
  ids_fresh (storage st) →
  getDeviceByDeviceId (VStr d) (storage st) = Some device →
  (postCommand d command parameters now st).1 = Created newCommand →
  let st' := (postCommand d command parameters now st).2 in
  getCommandsByDeviceId (VStr d) (storage st')
    = getCommandsByDeviceId (VStr d) (storage st) ++ [newCommand] ∧
  (∀ d', d' ≠ d →
         getCommandsByDeviceId (VStr d') (storage st')
         = getCommandsByDeviceId (VStr d') (storage st)) ∧
  (∀ d' c, c ∈ getCommandsByDeviceId (VStr d') (storage st') → Command.deviceId c = d').
Proof.
  intros (_ & Hfresh & _) Hdev Hres st'. subst st'.
  pose proof (postCommand_commands d command parameters now st device Hdev) as Hc.
  rewrite (postCommand_found _ _ _ _ _ _ Hdev) in Hres. cbn [fst] in Hres.
  injection Hres as <-.
  rewrite (JsMap_set_absent _ _ _ (keys_below_not_key _ _ Hfresh)) in Hc.
  unfold getCommandsByDeviceId, JsMap.values. rewrite Hc, fmap_app, filter_bool_app.
  repeat split.
  - csimpl. unfold str_strict_eq. simpl. by rewrite String.eqb_refl.
  - intros d' Hne. rewrite filter_bool_app. csimpl. unfold str_strict_eq. simpl.
    destruct (String.eqb d' d) eqn:E; [apply String.eqb_eq in E; done|].
    by rewrite app_nil_r.
  - intros d' c. rewrite <- fmap_app, <- Hc.
    intros [_ H]%elem_of_filter_bool. unfold str_strict_eq in H. simpl in H.
    by apply String.eqb_eq in H.
Qed.

Lemma postCommand_extends_device_list_witness :
  getCommandsByDeviceId (VStr "D1")
    (storage (postCommand "D1" "reboot" VUndefined 50%Z
                (run answered (boot (store_D1 "offline")))).2)
  = [Command.mk 1 "D1" "ping" (VObj "{}") (VStr "completed") (VStr "pong") 20%Z
                (Some 30%Z);
     Command.mk 2 "D1" "reboot" (VObj "{}") (VStr "pending") (VStr "") 50%Z None].
Proof.
  destruct (postCommand_extends_device_list (run answered (boot (store_D1 "offline")))
              "D1" "reboot" VUndefined 50%Z
              (Device.with_status (device_D1 "offline") "online" 11%Z)
              (Command.mk 2 "D1" "reboot" (VObj "{}") (VStr "pending") (VStr "") 50%Z
                          None)) as (H & _).
  - repeat split; vm_compute; repeat constructor.
  - vm_compute; reflexivity.
  - vm_compute; reflexivity.
  - rewrite H. vm_compute. reflexivity.
Defined.

(** ** [GET /api/stats] *)

Lemma JsMap_values_set_Forall {V} (Q : V → Prop) (m : JsMap.t V) k v :
  Forall Q (JsMap.values m) → Q v → Forall Q (JsMap.values (JsMap.set k v m)).
Proof.
  unfold JsMap.values. induction m as [|[k' v'] m IH]; csimpl; intros Hm Hv.
  - by constructor.
  - apply Forall_cons in Hm as [Hv' Hm]. destruct (k' =? k)%Z; csimpl.
    + by constructor.
    + constructor; [done | by apply IH].
Qed.

Lemma JsMap_values_delete_Forall {V} (Q : V → Prop) (m : JsMap.t V) k :
  Forall Q (JsMap.values m) → Forall Q (JsMap.values (JsMap.delete k m)).
Proof.
  unfold JsMap.values. induction m as [|[k' v'] m IH]; csimpl; intros Hm; [done|].
  apply Forall_cons in Hm as [Hv' Hm]. destruct (k' =? k)%Z; csimpl; [done|].
  constructor; [done | by apply IH].
Qed.

Lemma online_offline_count (l : list Device.t) :
  (length (List.filter (fun d => String.eqb (Device.status d) "online") l)
   + length (List.filter (fun d => String.eqb (Device.status d) "offline") l)
   ≤ length l)%nat ∧
  (length (List.filter (fun d => String.eqb (Device.status d) "online") l)
   + length (List.filter (fun d => String.eqb (Device.status d) "offline") l)
   = length l ↔ Forall status_known l).
Proof.
  induction l as [|d l [IH1 IH2]]; simpl.
  - split; [lia|]. split; [constructor | done].
  - destruct (String.eqb (Device.status d) "online") eqn:E1.
    + apply String.eqb_eq in E1. rewrite E1. simpl. split; [lia|].
      rewrite Forall_cons. split.
      * intros H. split; [by left|]. apply IH2. lia.
      * intros [_ H]. apply IH2 in H. lia.
    + destruct (String.eqb (Device.status d) "offline") eqn:E2.
      * apply String.eqb_eq in E2. simpl. split; [lia|].
        rewrite Forall_cons. split.
        -- intros H. split; [by right|]. apply IH2. lia.
        -- intros [_ H]. apply IH2 in H. lia.
      * split; [lia|]. rewrite Forall_cons. split; [lia|].
        intros [[H|H] _]; rewrite H in *; done.
Qed.

Lemma status_known_run tr st :
  Forall status_known (getAllDevices (storage st)) →
  Forall status_known (getAllDevices (storage (run tr st))).
Proof.
  apply (invariant_run (fun s => Forall status_known (getAllDevices s)));
    unfold getAllDevices; try done.
  - intros deviceId status now s Hs H. unfold updateDeviceStatus.
    destruct (List.find _ _) as [device|]; [|done]. simpl.
    apply JsMap_values_set_Forall; [done|]. exact Hs.
  - intros id v s H. unfold updateDevice.
    destruct (JsMap.get id (devices s)) as [device|] eqn:E; [|done]. simpl.
    apply JsMap_values_set_Forall; [done|].
    rewrite Forall_forall in H. apply (H device).
    apply JsMap_get_Some_key in E. by apply (list_elem_of_fmap_2 snd) in E.
  - intros id s H. simpl. by apply JsMap_values_delete_Forall.
  - intros id fields now s H. unfold updateCommand. by destruct (JsMap.getv _ _).
Qed.

(** X7. The device counters of [GET /api/stats]: [onlineDevices] plus
    [offlineDevices] never exceeds [totalDevices], and equals it exactly
    when every stored status is [online] or [offline]. The handlers write no
    other status, so once the counters add up they add up after every run. *)
Theorem stats_online_offline_total (st : Server) (tr : list Event) :
  (onlineDevices (getStats st) + offlineDevices (getStats st)
   ≤ totalDevices (getStats st))%nat ∧
  ((onlineDevices (getStats st) + offlineDevices (getStats st)
    = totalDevices (getStats st))%nat ↔
   Forall status_known (getAllDevices (storage st))) ∧
  ((onlineDevices (getStats st) + offlineDevices (getStats st)
    = totalDevices (getStats st))%nat →
   (onlineDevices (getStats (run tr st)) + offlineDevices (getStats (run tr st))
    = totalDevices (getStats (run tr st)))%nat).
Proof.
  unfold getStats. simpl.
  destruct (online_offline_count (getAllDevices (storage st))) as [H1 H2].
  split; [done|]. split; [done|]. intros H.
  apply (online_offline_count (getAllDevices (storage (run tr st)))).
  apply status_known_run. by apply H2.
Qed.

Lemma stats_online_offline_total_witness :
  (onlineDevices (getStats (run closing_device (boot (store_D1 "offline"))))
   + offlineDevices (getStats (run closing_device (boot (store_D1 "offline"))))
   = totalDevices (getStats (run closing_device (boot (store_D1 "offline")))))%nat.
Proof.
  destruct (stats_online_offline_total (boot (store_D1 "offline")) closing_device)
    as (_ & _ & H).
  apply H. reflexivity.
Defined.

Lemma count_set_present {V} (p : V → bool) (m : JsMap.t V) k v v0 :
  JsMap.get k m = Some v0 →
  (length (List.filter p (JsMap.values (JsMap.set k v m))) + (if p v0 then 1 else 0)
   = length (List.filter p (JsMap.values m)) + (if p v then 1 else 0))%nat.
Proof.
  unfold JsMap.values. induction m as [|[k' v'] m IH]; csimpl; [done|].
  destruct (k' =? k)%Z; csimpl.
  - intros [= ->]. destruct (p v), (p v0); simpl; lia.
  - intros H. specialize (IH H). destruct (p v'); simpl; lia.
Qed.

(** X8. The counter [pendingCommands] of [GET /api/stats]: a command
    accepted by [POST /api/commands] (over fresh ids) raises it by one, and
    a [COMMAND_RESPONSE] on a device-bound connection for a stored pending
    command, carrying any status other than [pending], lowers it by one. *)
Theorem stats_pending_commands (st : Server) :
  (∀ d command parameters now device,
     ids_fresh (storage st) →
     getDeviceByDeviceId (VStr d) (storage st) = Some device →
     pendingCommands (getStats (postCommand d command parameters now st).2)
     = S (pendingCommands (getStats st))) ∧
  (∀ ws data now id c,
     truthy (clientInfo_deviceId ws st) = true →
     Data.type data = VStr "COMMAND_RESPONSE" →
     Data.commandId data = VNum id →
     getCommandById (VNum id) (storage st) = Some c →
     Command.status c = VStr "pending" →
     Data.status data ≠ VStr "pending" →
     S (pendingCommands (getStats (onMessage ws data now st)))
     = pendingCommands (getStats st)).
Proof.
  split.
  - intros d command parameters now device (_ & Hfresh & _) Hdev.
    unfold getStats. cbn [pendingCommands]. unfold getAllCommands, JsMap.values.
    rewrite (postCommand_commands _ _ _ _ _ _ Hdev).
    rewrite (JsMap_set_absent _ _ _ (keys_below_not_key _ _ Hfresh)).
    rewrite fmap_app, filter_bool_app, length_app. simpl. lia.
  - intros ws data now id c Hb Ht Hid Hc Hp Hnp.
    rewrite (onMessage_command_response _ _ _ _ Ht), Hb.
    unfold onCommandResponse. rewrite Hid.
    rewrite (updateCommand_response _ _ _ _ _ _ Hc).
    unfold createActivity. unfold getStats. cbn [pendingCommands].
    unfold getAllCommands. rewrite broadcast_storage.
    cbn [storage set_storage commands set_commands].
    unfold getCommandById in Hc. simpl in Hc.
    pose proof (count_set_present is_pending (commands (storage st)) id
      (Command.mk (Command.id c) (Command.deviceId c) (Command.command c)
                  (Command.parameters c) (Data.status data)
                  (js_or (Data.result data) (VStr "")) (Command.createdAt c) (Some now))
      c Hc) as Hcount.
    assert (is_pending c = true) as Hpc.
    { unfold is_pending. rewrite Hp. reflexivity. }
    rewrite Hpc in Hcount.
    match type of Hcount with
    | context [if is_pending ?x then _ else _] =>
        assert (is_pending x = false) as Hnew
    end.
    { unfold is_pending. cbn [Command.status].
      destruct (strict_eq_str (Data.status data) "pending") eqn:E; [|done].
      apply strict_eq_str_true in E. done. }
    rewrite Hnew in Hcount. lia.
Qed.

Lemma stats_pending_commands_witness :
  pendingCommands
    (getStats (postCommand "D1" "ping" VUndefined 20%Z
                 (run three_clients (boot (store_D1 "offline")))).2) = 1%nat ∧
  pendingCommands (getStats (run answered (boot (store_D1 "offline")))) = 0%nat.
Proof.
  split.
  - destruct (stats_pending_commands (run three_clients (boot (store_D1 "offline"))))
      as [H _].
    rewrite (H "D1" "ping" VUndefined 20%Z
               (Device.with_status (device_D1 "offline") "online" 11%Z)).
    + reflexivity.
    + repeat split; vm_compute; repeat constructor.
    + vm_compute; reflexivity.
  - vm_compute; reflexivity.
Defined.

(** ** [DELETE /api/devices/:id] *)

Lemma JsMap_get_delete_eq {V} (m : JsMap.t V) k :
  NoDup (JsMap.keys m) → JsMap.get k (JsMap.delete k m) = None.
Proof.
  unfold JsMap.keys. induction m as [|[k' v'] m IH]; csimpl; [done|].
  intros [Hk Hnd]%NoDup_cons. destruct (k' =? k)%Z eqn:E.
  - apply Z.eqb_eq in E. subst k'.
    destruct (JsMap.get k m) as [v|] eqn:Eg; [|done].
    apply JsMap_get_Some_key in Eg. apply (list_elem_of_fmap_2 fst) in Eg. done.
  - simpl. rewrite E. by apply IH.
Qed.

Lemma JsMap_get_delete_ne {V} (m : JsMap.t V) k k' :
  k ≠ k' → JsMap.get k' (JsMap.delete k m) = JsMap.get k' m.
Proof.
  intros Hne. induction m as [|[k0 v0] m IH]; simpl; [done|].
  destruct (k0 =? k)%Z eqn:E.
  - apply Z.eqb_eq in E. subst k0.
    destruct (k =? k')%Z eqn:E'; [apply Z.eqb_eq in E'; done | done].
  - simpl. by rewrite IH.
Qed.

(** X9. [DELETE /api/devices/:id]. For an id the store does not have, the
    answer is 404 and nothing changes. For a stored device (over a
    well-formed store) the device is gone, every other device is as before,
    one "Device removed" activity naming the user is appended, and
    [DEVICE_REMOVED] is broadcast to every open connection. The commands of
    the device stay in the store and the registry is not touched: a
    connection bound to the removed device stays registered. *)
Theorem deleteDevice_effect (st : Server) (id : Z) (username : string) (now : Time) :
  (getDeviceById id (storage st) = None →
   deleteDevice id username now st = (NotFound, st)) ∧
  (∀ device,
     storage_wf (storage st) →
     getDeviceById id (storage st) = Some device →
     let st' := (deleteDevice id username now st).2 in
     (deleteDevice id username now st).1 = Removed ∧
     getDeviceById id (storage st') = None ∧
     (∀ id', id' ≠ id → getDeviceById id' (storage st') = getDeviceById id' (storage st)) ∧
     commands (storage st') = commands (storage st) ∧
     JsMap.values (activities (storage st'))
     = JsMap.values (activities (storage st))
       ++ [Activity.mk (currentId_activities (storage st))
                       (VStr (Device.deviceId device)) "status" DeviceRemoved
                       (VStr "completed") (RemovedBy username) now] ∧
     written st st' = frame (DEVICE_REMOVED (Device.deviceId device)) <$> recipients None st ∧
     same_registry st st').
Proof.
  split.
  - intros H. unfold deleteDevice. by rewrite H.
  - intros device [[Hnd _] (_ & _ & Hfresh)] Hdev st'. subst st'.
    unfold deleteDevice. rewrite Hdev. unfold removeDevice, createActivity.
    cbn [fst snd]. rewrite broadcastToClients_eq. cbn [storage set_storage].
    repeat split.
    + unfold getDeviceById. simpl. by apply JsMap_get_delete_eq.
    + intros id' Hne. unfold getDeviceById. simpl. by apply JsMap_get_delete_ne.
    + unfold JsMap.values. simpl.
      rewrite (JsMap_set_absent _ _ _ (keys_below_not_key _ _ Hfresh)).
      by rewrite fmap_app.
    + apply written_app. reflexivity.
Qed.

Lemma deleteDevice_effect_witness :
  let st := run three_clients (boot (store_D1 "offline")) in
  let st' := (deleteDevice 1 "admin" 70%Z st).2 in
  getDeviceById 1 (storage st') = None ∧
  written st st' = [(0, DEVICE_REMOVED "D1"); (1, DEVICE_REMOVED "D1")] ∧
  findByDevice "D1" st' = Some (ConnectedClient.mk 1 (VStr "D1") VUndefined).
Proof.
  intros st st'.
  destruct (deleteDevice_effect st 1 "admin" 70%Z) as [_ H].
  destruct (H (Device.with_status (device_D1 "offline") "online" 11%Z))
    as (_ & H1 & _ & _ & _ & H2 & H3).
  - split; [concrete_devices_wf|].
    repeat split; vm_compute; repeat constructor.
  - vm_compute; reflexivity.
  - split; [exact H1|]. split.
    + subst st'. rewrite H2. vm_compute. reflexivity.
    + subst st'. rewrite (same_registry_find _ _ "D1" H3). vm_compute. reflexivity.
Defined.

(** ** [POST /api/commands]: refusal and delivery *)

(** X10. [POST /api/commands] for a [deviceId] the store does not have
    answers 404 and changes nothing, even when a connection is bound to that
    [deviceId]. For a stored device whose earliest bound connection is open,
    the only frame written is the [COMMAND] to that connection, and the
    device map is left as it was: a delivery does not mark an offline device
    online. *)
Theorem postCommand_refused_or_delivered (st : Server) (d command : string)
  (parameters : JsVal) (now : Time) :
  (getDeviceByDeviceId (VStr d) (storage st) = None →
   postCommand d command parameters now st = (NotFound, st)) ∧
  (∀ device c newCommand,
     getDeviceByDeviceId (VStr d) (storage st) = Some device →
     findByDevice d st = Some c →
     is_open st (ConnectedClient.ws c) = true →
     (postCommand d command parameters now st).1 = Created newCommand →
     let st' := (postCommand d command parameters now st).2 in
     written st st' = [(ConnectedClient.ws c, COMMAND newCommand)] ∧
     devices (storage st') = devices (storage st) ∧
     same_registry st st').
Proof.
  split.
  - intros H. unfold postCommand. by rewrite H.
  - intros device c newCommand Hdev Hf Ho Hres st'. subst st'.
    rewrite (postCommand_found _ _ _ _ _ _ Hdev) in *. cbn [fst snd] in *.
    injection Hres as <-.
    unfold sendToDevice. rewrite Hf, Ho. cbn [fst snd negb andb].
    repeat split. apply written_app. reflexivity.
Qed.

Lemma postCommand_refused_or_delivered_witness :
  let st := run three_clients (boot (store_D1 "offline")) in
  postCommand "D7" "ping" VUndefined 20%Z st = (NotFound, st) ∧
  written st (postCommand "D1" "ping" VUndefined 20%Z st).2
  = [(1, COMMAND (Command.mk 1 "D1" "ping" (VObj "{}") (VStr "pending") (VStr "") 20%Z
                             None))].
Proof.
  intros st.
  destruct (postCommand_refused_or_delivered st "D7" "ping" VUndefined 20%Z) as [H1 _].
  destruct (postCommand_refused_or_delivered st "D1" "ping" VUndefined 20%Z) as [_ H2].
  split; [apply H1; vm_compute; reflexivity|].
  destruct (H2 (Device.with_status (device_D1 "offline") "online" 11%Z)
              (ConnectedClient.mk 1 (VStr "D1") VUndefined)
              (Command.mk 1 "D1" "ping" (VObj "{}") (VStr "pending") (VStr "") 20%Z None))
    as (H & _).
  - vm_compute; reflexivity.
  - vm_compute; reflexivity.
  - vm_compute; reflexivity.
  - vm_compute; reflexivity.
  - exact H.
Defined.

(** ** What the message handler does, case by case *)

Lemma clients_ws_alter (f : ConnectedClient.t → ConnectedClient.t) ws st :
  (∀ c, ConnectedClient.ws (f c) = ConnectedClient.ws c) →
  ConnectedClient.ws <$> clients (set_clientInfos (alter f ws (clientInfos st)) st)
  = ConnectedClient.ws <$> clients st.
Proof.
  intros Hf. unfold clients. simpl.
  induction (connectedClients st) as [|r l IH]; [done|]. csimpl.
  rewrite lookup_alter. case_decide as E.
  - subst r. destruct (clientInfos st !! ws) as [c|]; csimpl; [|done].
    by rewrite Hf, IH.
  - destruct (clientInfos st !! r) as [c|]; csimpl; [|done]. by rewrite IH.
Qed.





(** X12. A [DEVICE_INFO] message on a connection bound to a stored device
    (over a well-formed device map) replaces the [info] of that device by
    [data.info] as a whole, also when the message has no [info], and leaves
    its other fields, the other devices, the commands and the activity log
    as they were; [DEVICE_INFO_UPDATED] is written once to every registered
    open connection, the sender included. *)
Theorem device_info_effect (st : Server) (ws : WebSocket) (data : Data.t) (now : Time)
  (device : Device.t) :
  devices_wf (devices (storage st)) →
  Data.type data = VStr "DEVICE_INFO" →
  truthy (clientInfo_deviceId ws st) = true →
  getDeviceByDeviceId (clientInfo_deviceId ws st) (storage st) = Some device →
  let st' := onMessage ws data now st in
  getDeviceByDeviceId (clientInfo_deviceId ws st) (storage st')
    = Some (Device.spread device (Device.only_info (Data.info data))) ∧
  (∀ id', id' ≠ Device.id device →
          getDeviceById id' (storage st') = getDeviceById id' (storage st)) ∧
  commands (storage st') = commands (storage st) ∧
  activities (storage st') = activities (storage st) ∧
  written st st'
    = frame (DEVICE_INFO_UPDATED (clientInfo_deviceId ws st) (Data.info data))
        <$> recipients None st.
Proof.
  intros Hdwf Ht Hb Hdev st'. subst st'.
  rewrite (onMessage_device_info _ _ _ _ Ht), Hb. unfold onDeviceInfo. rewrite Hdev.
  assert (JsMap.get (Device.id device) (devices (storage st)) = Some device) as Hget.
  { by apply (find_device_key _ (clientInfo_deviceId ws st)). }
  unfold updateDevice. rewrite Hget. rewrite broadcastToClients_eq.
  cbn [storage set_storage wire]. repeat split.
  - unfold getDeviceByDeviceId. simpl.
    apply (find_device_after_set _ (clientInfo_deviceId ws st)); try done.
    apply List.find_some in Hdev as [_ Hdev]. exact Hdev.
  - intros id' Hne. unfold getDeviceById. simpl. apply JsMap_get_set_ne. congruence.
  - apply written_app. reflexivity.
Qed.

Lemma device_info_effect_witness :
  let st := run three_clients (boot (store_D1 "offline")) in
  let st' := onMessage 1 (device_info VUndefined) 12%Z st in
  Device.info <$> getDeviceByDeviceId (VStr "D1") (storage st') = Some VUndefined ∧
  written st st' = [(0, DEVICE_INFO_UPDATED (VStr "D1") VUndefined);
                    (1, DEVICE_INFO_UPDATED (VStr "D1") VUndefined)].
Proof.
  intros st st'.
  destruct (device_info_effect st 1 (device_info VUndefined) 12%Z
              (Device.with_status (device_D1 "offline") "online" 11%Z))
    as (H1 & _ & _ & _ & H2).
  - apply devices_wf_run. concrete_devices_wf.
  - reflexivity.
  - vm_compute; reflexivity.
  - vm_compute; reflexivity.
  - split.
    + change (VStr "D1") with (clientInfo_deviceId 1 st). subst st'. rewrite H1.
      reflexivity.
    + subst st'. rewrite H2. vm_compute. reflexivity.
Defined.

(** X13. What the message handler ignores. A message whose [type] is none of
    [AUTH], [COMMAND_RESPONSE], [DEVICE_INFO] changes nothing; neither does
    a [COMMAND_RESPONSE] or a [DEVICE_INFO] on a connection whose [deviceId]
    is falsy (never bound, or bound to an empty [deviceId]); neither does an
    [AUTH] that carries neither a truthy token nor a truthy [userId]. *)
Theorem onMessage_ignored (st : Server) (ws : WebSocket) (data : Data.t) (now : Time) :
  (Data.type data ≠ VStr "AUTH" → Data.type data ≠ VStr "COMMAND_RESPONSE" →
   Data.type data ≠ VStr "DEVICE_INFO" → onMessage ws data now st = st) ∧
  (truthy (clientInfo_deviceId ws st) = false →
   Data.type data = VStr "COMMAND_RESPONSE" ∨ Data.type data = VStr "DEVICE_INFO" →
   onMessage ws data now st = st) ∧
  (Data.type data = VStr "AUTH" →
   truthy (Data.token data) = false → truthy (Data.userId data) = false →
   onMessage ws data now st = st).
Proof.
  split; [|split].
  - intros H1 H2 H3. unfold onMessage.
    destruct (strict_eq_str (Data.type data) "AUTH") eqn:E1;
      [apply strict_eq_str_true in E1; done|].
    destruct (strict_eq_str (Data.type data) "COMMAND_RESPONSE") eqn:E2;
      [apply strict_eq_str_true in E2; done|].
    destruct (strict_eq_str (Data.type data) "DEVICE_INFO") eqn:E3;
      [apply strict_eq_str_true in E3; done|].
    done.
  - intros Hb [Ht|Ht].
    + by rewrite (onMessage_command_response _ _ _ _ Ht), Hb.
    + by rewrite (onMessage_device_info _ _ _ _ Ht), Hb.
  - intros Ht H1 H2. rewrite (onMessage_auth _ _ _ _ Ht). unfold onAuth.
    by rewrite H1, H2.
Qed.

Lemma onMessage_ignored_witness :
  let st := run three_clients (boot (store_D1 "offline")) in
  onMessage 0 (command_response 1 "completed" "x") 12%Z st = st.
Proof.
  intros st.
  destruct (onMessage_ignored st 0 (command_response 1 "completed" "x") 12%Z)
    as (_ & H & _).
  apply H; [vm_compute; reflexivity | by left].
Defined.

(** X14. AUTH and the two bindings. With a truthy token the [userId] of the
    message is not looked at: the connection keeps the [userId] it had. With
    no truthy token and a truthy [userId], the message assigns that [userId]
    and nothing else: the store, the wire and the array are as before and
    the connection keeps its [deviceId], so a connection can carry both
    bindings. *)
Theorem auth_bindings (st : Server) (ws : WebSocket) (data : Data.t) (now : Time)
  (c0 : ConnectedClient.t) :
  clientInfos st !! ws = Some c0 →
  Data.type data = VStr "AUTH" →
  let st' := onMessage ws data now st in
  (truthy (Data.token data) = true →
   clientInfos st' !! ws
   = Some (ConnectedClient.mk (ConnectedClient.ws c0) (Data.deviceId data)
                              (ConnectedClient.userId c0))) ∧
  (truthy (Data.token data) = false → truthy (Data.userId data) = true →
   st' = assign_userId ws (Data.userId data) st ∧
   clientInfos st' !! ws
   = Some (ConnectedClient.mk (ConnectedClient.ws c0) (ConnectedClient.deviceId c0)
                              (Data.userId data)) ∧
   storage st' = storage st ∧ wire st' = wire st ∧
   connectedClients st' = connectedClients st).
Proof.
  intros Hc0 Ht st'. subst st'. rewrite (onMessage_auth _ _ _ _ Ht). split.
  - intros Htok.
    pose proof (onAuth_same_registry ws data now st) as (_ & -> & _).
    unfold auth_binding. rewrite Htok. by apply clientInfo_deviceId_assign.
  - intros Htok Hu. unfold onAuth. rewrite Htok, Hu. repeat split.
    simpl. by rewrite lookup_alter_eq, Hc0.
Qed.

Lemma auth_bindings_witness :
  let st := run three_clients (boot (store_D1 "offline")) in
  clientInfos (onMessage 1 (auth_user 9) 12%Z st) !! 1%nat
  = Some (ConnectedClient.mk 1 (VStr "D1") (VNum 9)).
Proof.
  intros st.
  destruct (auth_bindings st 1 (auth_user 9) 12%Z
              (ConnectedClient.mk 1 (VStr "D1") VUndefined)) as [_ H].
  - vm_compute; reflexivity.
  - reflexivity.
  - destruct H as (_ & H & _); [reflexivity | reflexivity | exact H].
Defined.

(** ** What the close handler does to the registry *)

Lemma find_filter {A} (p q : A → bool) (l : list A) :
  List.find p (List.filter q l) = List.find (fun x => q x && p x) l.
Proof.
  induction l as [|x l IH]; simpl; [done|].
  destruct (q x); simpl; [|done]. by destruct (p x).
Qed.

Lemma clients_filter_refs (q : nat → bool) st :
  registry_wf st →
  clients (set_connectedClients (List.filter q (connectedClients st)) st)
  = List.filter (fun c => q (ConnectedClient.ws c)) (clients st).
Proof.
  intros [A _ C _]. unfold clients. simpl.
  induction (connectedClients st) as [|r l IH]; [done|]. simpl.
  destruct (C r) as [c Hc]; [by left|].
  assert (∀ r', r' ∈ l → is_Some (clientInfos st !! r')) as C'
    by (intros r' Hr'; apply C; by right).
  specialize (IH C').
  destruct (q r) eqn:E; simpl; rewrite Hc; simpl; rewrite (A _ _ Hc), E;
    [f_equal|]; exact IH.
Qed.

(** X15. The close handler and the registry, in a state where the registry
    invariants hold. The closed connection leaves the array and every other
    connection stays, in the same order. The lookup by device then returns
    the earliest remaining connection bound to the device, so a later
    connection bound to the same device takes over. When the closed
    connection's [deviceId] is falsy (never bound, or bound to an empty
    [deviceId]) the store and the wire are not touched. *)
Theorem onClose_unregisters (st : Server) (ws : WebSocket) (now : Time) :
  registry_wf st →
  let st' := onClose ws now st in
  clients st'
    = List.filter (fun c => negb (Nat.eqb (ConnectedClient.ws c) ws)) (clients st) ∧
  (∀ d, findByDevice d st'
        = List.find (fun c => negb (Nat.eqb (ConnectedClient.ws c) ws)
                              && strict_eq_str (ConnectedClient.deviceId c) d)
                    (clients st)) ∧
  (truthy (clientInfo_deviceId ws st) = false →
   storage st' = storage st ∧ wire st' = wire st).
Proof.
  intros Hwf st'. subst st'.
  assert (clients (onClose ws now st)
          = List.filter (fun c => negb (Nat.eqb (ConnectedClient.ws c) ws)) (clients st))
    as Hcl.
  { destruct (onClose_registry ws now st) as (H1 & H2 & _).
    rewrite <- (clients_filter_refs (fun r => negb (Nat.eqb r ws)) st Hwf).
    unfold clients. rewrite H1, H2. simpl. f_equal.
    apply List.filter_ext_in. intros r Hr. apply other_socket_wf; [done|].
    by apply list_elem_of_In. }
  split; [exact Hcl|]. split.
  - intros d. unfold findByDevice. rewrite Hcl. apply find_filter.
  - intros Hf. unfold onClose. by rewrite Hf.
Qed.

Lemma onClose_unregisters_witness :
  let st := run two_bound (boot (store_D1 "offline")) in
  findByDevice "D1" (onClose 0 20%Z st)
  = Some (ConnectedClient.mk 1 (VStr "D1") VUndefined).
Proof.
  intros st.
  destruct (onClose_unregisters st 0 20%Z (registry_wf_reachable _ _)) as (_ & H & _).
  rewrite H. vm_compute. reflexivity.
Defined.

(** ** Where frames go *)

Lemma same_sockets_refl st : same_sockets st st.
Proof. by split. Qed.

Lemma same_sockets_trans st1 st2 st3 :
  same_sockets st1 st2 → same_sockets st2 st3 → same_sockets st1 st3.
Proof. intros [? ?] [? ?]. split; congruence. Qed.

Lemma same_registry_same_sockets st st' : same_registry st st' → same_sockets st st'.
Proof.
  intros H. split; [by destruct H as (_ & _ & ? & _)|].
  by rewrite (same_registry_clients _ _ H).
Qed.

Lemma same_sockets_open_registered st st' w :
  same_sockets st st' → open_registered st' w → open_registered st w.
Proof.
  intros [Hs Hw] [H1 H2]. split; [by rewrite <- Hw|].
  unfold is_open, readyState in *. by rewrite <- Hs.
Qed.

Lemma writes_refl st st' : wire st' = wire st → writes_only_to_open st st'.
Proof. intros H. exists []. by rewrite app_nil_r. Qed.

Lemma writes_trans st1 st2 st3 :
  same_sockets st1 st2 →
  writes_only_to_open st1 st2 → writes_only_to_open st2 st3 →
  writes_only_to_open st1 st3.
Proof.
  intros Hs (l1 & H1 & F1) (l2 & H2 & F2). exists (l1 ++ l2). split.
  - by rewrite H2, H1, app_assoc.
  - apply Forall_app. split; [done|].
    eapply Forall_impl; [exact F2|]. intros f. by apply same_sockets_open_registered.
Qed.

Lemma writes_broadcast data x st :
  writes_only_to_open st (broadcastToClients data x st).
Proof.
  exists (frame data <$> recipients x st). split; [apply broadcast_wire|].
  apply Forall_fmap, Forall_forall. intros c [Hc Hp]%elem_of_filter_bool.
  apply andb_true_iff in Hp as [_ Ho]. split; [|done].
  by apply (list_elem_of_fmap_2 ConnectedClient.ws).
Qed.

Lemma writes_sendToDevice d data st :
  writes_only_to_open st (sendToDevice d data st).2.
Proof.
  unfold sendToDevice. destruct (findByDevice d st) as [c|] eqn:E; [|by apply writes_refl].
  destruct (is_open st _) eqn:Eo; [|by apply writes_refl].
  exists [(ConnectedClient.ws c, data)]. split; [done|].
  repeat constructor; [|done]. simpl.
  apply List.find_some in E as [Hin _]. apply list_elem_of_In in Hin.
  by apply (list_elem_of_fmap_2 ConnectedClient.ws).
Qed.

(** The store plays no part in where frames go. *)
Lemma writes_set_storage_r s st st' :
  writes_only_to_open st st' → writes_only_to_open st (set_storage s st').
Proof. intros (l & H & F). exists l. by split. Qed.

Lemma same_sockets_set_storage_r s st st' :
  same_sockets st st' → same_sockets st (set_storage s st').
Proof. intros [H1 H2]. by split. Qed.

Lemma writes_broadcast_with_storage data x s st :
  writes_only_to_open st (broadcastToClients data x (set_storage s st)).
Proof. apply (writes_broadcast data x (set_storage s st)). Qed.

Lemma writes_postCommand d c p now st :
  writes_only_to_open st (postCommand d c p now st).2.
Proof.
  destruct (getDeviceByDeviceId (VStr d) (storage st)) as [device|] eqn:Hdev.
  - rewrite (postCommand_found _ _ _ _ _ _ Hdev). cbn [snd].
    set (nc := Command.mk _ _ _ _ _ _ _ _).
    pose proof (writes_sendToDevice d (COMMAND nc) st) as H1.
    pose proof (sendToDevice_same_registry d (COMMAND nc) st) as Hr.
    destruct (negb _ && _); [|by apply writes_set_storage_r].
    eapply writes_trans;
      [apply same_sockets_set_storage_r, same_registry_same_sockets, Hr
      | apply writes_set_storage_r, H1
      | apply writes_broadcast_with_storage].
  - unfold postCommand. rewrite Hdev. by apply writes_refl.
Qed.

Lemma writes_deleteDevice id u now st :
  writes_only_to_open st (deleteDevice id u now st).2.
Proof.
  unfold deleteDevice. destruct (getDeviceById _ _); [|by apply writes_refl].
  destruct (removeDevice _ _) as [b s1]. destruct (createActivity _ _ _) as [a s2].
  apply writes_broadcast_with_storage.
Qed.

Lemma same_sockets_assign_deviceId ws v st : same_sockets st (assign_deviceId ws v st).
Proof. split; [done|]. by apply clients_ws_alter. Qed.

Lemma same_sockets_assign_userId ws v st : same_sockets st (assign_userId ws v st).
Proof. split; [done|]. by apply clients_ws_alter. Qed.

Lemma writes_onAuth ws data now st : writes_only_to_open st (onAuth ws data now st).
Proof.
  unfold onAuth. destruct (truthy (Data.token data)).
  - destruct (getDeviceByDeviceId _ _); [|by apply writes_refl].
    destruct (updateDeviceStatus _ _ _ _) as [o s1].
    destruct (createActivity _ _ _) as [a s2].
    eapply writes_trans;
      [apply (same_sockets_assign_deviceId ws (Data.deviceId data))
      | by apply writes_refl
      | apply writes_broadcast_with_storage].
  - destruct (truthy (Data.userId data)); by apply writes_refl.
Qed.

Lemma same_sockets_onAuth ws data now st : same_sockets st (onAuth ws data now st).
Proof.
  eapply same_sockets_trans;
    [|apply same_registry_same_sockets, onAuth_same_registry].
  unfold auth_binding. destruct (truthy (Data.token data));
    [apply same_sockets_assign_deviceId|].
  destruct (truthy (Data.userId data));
    [apply same_sockets_assign_userId | apply same_sockets_refl].
Qed.

Lemma writes_onCommandResponse data now st :
  writes_only_to_open st (onCommandResponse data now st).
Proof.
  unfold onCommandResponse. destruct (updateCommand _ _ _ _) as [[c|] s1];
    [|by apply writes_refl].
  destruct (createActivity _ _ _) as [a s2]. apply writes_broadcast_with_storage.
Qed.

Lemma writes_onDeviceInfo ws data st : writes_only_to_open st (onDeviceInfo ws data st).
Proof.
  unfold onDeviceInfo. destruct (getDeviceByDeviceId _ _); [|by apply writes_refl].
  destruct (updateDevice _ _ _) as [o s1]. apply writes_broadcast_with_storage.
Qed.

Lemma writes_if (b : bool) (f : Server → Server) st :
  writes_only_to_open st (f st) → writes_only_to_open st (if b then f st else st).
Proof. destruct b; [done | intros _; by apply writes_refl]. Qed.

Lemma same_sockets_if (b : bool) (f : Server → Server) st :
  same_sockets st (f st) → same_sockets st (if b then f st else st).
Proof. destruct b; [done | intros _; apply same_sockets_refl]. Qed.

Lemma writes_onMessage ws data now st :
  writes_only_to_open st (onMessage ws data now st).
Proof.
  unfold onMessage. cbv zeta.
  set (st1 := if strict_eq_str (Data.type data) "AUTH" then onAuth ws data now st else st).
  assert (same_sockets st st1 ∧ writes_only_to_open st st1) as [S1 W1].
  { subst st1. split.
    - apply (same_sockets_if _ (onAuth ws data now)), same_sockets_onAuth.
    - apply (writes_if _ (onAuth ws data now)), writes_onAuth. }
  clearbody st1.
  set (b2 := strict_eq_str (Data.type data) "COMMAND_RESPONSE" && _).
  set (st2 := if b2 then onCommandResponse data now st1 else st1).
  assert (same_sockets st1 st2 ∧ writes_only_to_open st1 st2) as [S2 W2].
  { subst st2. split.
    - apply (same_sockets_if _ (onCommandResponse data now)),
        same_registry_same_sockets, onCommandResponse_same_registry.
    - apply (writes_if _ (onCommandResponse data now)), writes_onCommandResponse. }
  clearbody st2.
  eapply writes_trans; [exact S1 | exact W1 |].
  eapply writes_trans; [exact S2 | exact W2 |].
  apply (writes_if _ (onDeviceInfo ws data)), writes_onDeviceInfo.
Qed.

Lemma writes_onClose ws now st : writes_only_to_open st (onClose ws now st).
Proof.
  unfold onClose. cbv zeta. destruct (truthy _); [|by apply writes_refl].
  destruct (updateDeviceStatus _ _ _ _) as [o s1].
  destruct (createActivity _ _ _) as [a s2].
  apply (writes_broadcast_with_storage _ _ s2 st).
Qed.

Lemma writes_step_close ws now st :
  ∃ l, wire (onClose ws now (set_sockets (<[ws:=CLOSED]> (sockets st)) st)) = wire st ++ l ∧
       Forall (fun f => open_registered st f.1 ∧ f.1 ≠ ws) l.
Proof.
  set (st0 := set_sockets (<[ws:=CLOSED]> (sockets st)) st).
  destruct (writes_onClose ws now st0) as (l & Hl & Fl).
  exists l. split; [exact Hl|].
  eapply Forall_impl; [exact Fl|]. intros f [H1 H2].
  unfold is_open, readyState, st0, set_sockets in H2. cbn [sockets] in H2.
  destruct (decide (f.1 = ws)) as [Heq|Hne].
  - rewrite Heq, lookup_insert_eq in H2.
    by apply bool_decide_eq_true in H2.
  - rewrite lookup_insert_ne in H2 by done. by repeat split.
Qed.

Lemma writes_step e st : writes_only_to_open st (step e st).
Proof.
  destruct e; simpl.
  - by apply writes_refl.
  - destruct (accepted ws st); [apply writes_onMessage | by apply writes_refl].
  - by apply writes_refl.
  - destruct (accepted ws st); by apply writes_refl.
  - destruct (accepted ws st); [|by apply writes_refl].
    destruct (writes_step_close ws now st) as (l & Hl & Fl).
    exists l. split; [exact Hl|]. eapply Forall_impl; [exact Fl|]. by intros f [? _].
  - apply writes_postCommand.
  - apply writes_deleteDevice.
Qed.

(** X16. Whatever the event, the server only appends to the wire, and every
    frame it writes goes to the socket of a connection that is in
    [connectedClients] and whose [readyState] is [OPEN] when the event
    arrives; the close of a connection writes nothing to that connection,
    and accepting a connection or a change of transport state writes
    nothing at all. *)
Theorem step_writes_to_open_registered (e : Event) (st : Server) :
  (∃ l, wire (step e st) = wire st ++ l) ∧
  Forall (fun f => open_registered st f.1) (written st (step e st)) ∧
  (∀ ws now, e = Close ws now → frames_to ws (written st (step e st)) = []) ∧
  (e = Connection ∨ (∃ ws rs, e = Transport ws rs) → written st (step e st) = []).
Proof.
  destruct (writes_step e st) as (l & Hl & Fl).
  split; [eauto|]. rewrite (written_app _ _ _ Hl). split; [exact Fl|]. split.
  - intros ws now ->. simpl in Hl. destruct (accepted ws st).
    + destruct (writes_step_close ws now st) as (l' & Hl' & Fl').
      rewrite Hl' in Hl. apply app_inv_head in Hl. subst l'.
      unfold frames_to. apply filter_bool_nil. intros f Hf.
      rewrite Forall_forall in Fl'. destruct (Fl' _ Hf) as [_ Hne].
      by apply Nat.eqb_neq.
    + assert (l = []) as -> by (eapply app_inv_head; rewrite <- Hl; by rewrite app_nil_r).
      done.
  - intros [->|(ws & rs & ->)].
    + simpl in Hl. eapply app_inv_head. rewrite <- Hl. by rewrite app_nil_r.
    + simpl in Hl. destruct (accepted ws st); simpl in Hl;
        eapply app_inv_head; rewrite <- Hl; by rewrite app_nil_r.
Qed.

Lemma written_trans st1 st2 st3 l1 l2 :
  wire st2 = wire st1 ++ l1 → wire st3 = wire st2 ++ l2 →
  written st1 st3 = l1 ++ l2.
Proof. intros H1 H2. apply written_app. by rewrite H2, H1, app_assoc. Qed.

Lemma connectedClients_step e st r :
  r ∈ connectedClients (step e st) → r ∈ connectedClients st ∨ r = nextSocket st.
Proof.
  destruct e; simpl.
  - intros [H| ->%list_elem_of_singleton]%elem_of_app; [by left | by right].
  - destruct (accepted ws st); [|by left].
    destruct (onMessage_same_registry ws data now st) as (-> & _).
    unfold message_binding, auth_binding, assign_deviceId, assign_userId.
    repeat case_match; by left.
  - by left.
  - destruct (accepted ws st); by left.
  - destruct (accepted ws st); [|by left].
    destruct (onClose_registry ws now (set_sockets (<[ws:=CLOSED]> (sockets st)) st))
      as (-> & _).
    intros [H _]%elem_of_filter_bool. by left.
  - destruct (postCommand_same_registry deviceId command parameters now st) as (-> & _).
    by left.
  - destruct (deleteDevice_same_registry id username now st) as (-> & _). by left.
Qed.

Lemma nextSocket_step e st : (nextSocket st ≤ nextSocket (step e st))%nat.
Proof.
  destruct e; simpl.
  - lia.
  - destruct (accepted ws st); [|done].
    destruct (onMessage_same_registry ws data now st) as (_ & _ & _ & ->).
    unfold message_binding, auth_binding, assign_deviceId, assign_userId.
    repeat case_match; done.
  - done.
  - by destruct (accepted ws st).
  - destruct (accepted ws st); [|done].
    by destruct (onClose_registry ws now (set_sockets (<[ws:=CLOSED]> (sockets st)) st))
      as (_ & _ & _ & ->).
  - by destruct (postCommand_same_registry deviceId command parameters now st)
      as (_ & _ & _ & ->).
  - by destruct (deleteDevice_same_registry id username now st) as (_ & _ & _ & ->).
Qed.

Lemma unregistered_gets_nothing tr : ∀ st w,
  registry_wf st → w ∉ connectedClients st → (w < nextSocket st)%nat →
  frames_to w (written st (run tr st)) = [].
Proof.
  induction tr as [|e tr IH]; intros st w Hwf Hout Hlt.
  - unfold written. simpl. by rewrite drop_all.
  - simpl.
    assert (registry_wf (step e st)) as Hwf' by (by apply registry_wf_step).
    assert (w ∉ connectedClients (step e st)) as Hout'.
    { intros [H|H]%connectedClients_step; [done | lia]. }
    assert (w < nextSocket (step e st))%nat as Hlt'.
    { pose proof (nextSocket_step e st). lia. }
    specialize (IH (step e st) w Hwf' Hout' Hlt').
    destruct (writes_step e st) as (l1 & Hl1 & Fl1).
    assert (∃ l2, wire (run tr (step e st)) = wire (step e st) ++ l2) as [l2 Hl2].
    { clear. generalize (step e st). induction tr as [|e' tr IH']; intros st'.
      - exists []. by rewrite app_nil_r.
      - simpl. destruct (IH' (step e' st')) as [l2 Hl2].
        destruct (writes_step e' st') as (l1 & Hl1 & _).
        exists (l1 ++ l2). by rewrite Hl2, Hl1, app_assoc. }
    rewrite (written_app _ _ _ Hl2) in IH.
    rewrite (written_trans _ _ _ _ _ Hl1 Hl2). unfold frames_to in *.
    rewrite filter_bool_app, IH, app_nil_r.
    apply filter_bool_nil. intros f Hf. rewrite Forall_forall in Fl1.
    destruct (Fl1 _ Hf) as [Hreg _]. rewrite (clients_ws _ Hwf) in Hreg.
    apply Nat.eqb_neq. intros Heq. apply Hout. rewrite <- Heq. exact Hreg.
Qed.

(** X17. Once a connection has closed, the server never writes to its
    socket again: in every run from start-up, after the close of an accepted
    connection, no later event, whatever it is, produces a frame for that
    socket. *)
Theorem closed_connection_gets_nothing (s : MemStorage) (tr1 tr2 : list Event)
  (ws : WebSocket) (now : Time) :
  let st := run tr1 (boot s) in
  let st1 := step (Close ws now) st in
  accepted ws st = true →
  frames_to ws (written st1 (run tr2 st1)) = [].
Proof.
  intros st st1 Hacc. subst st1.
  pose proof (registry_wf_reachable s tr1) as Hwf. fold st in Hwf.
  apply unregistered_gets_nothing.
  - by apply registry_wf_step.
  - simpl. rewrite Hacc.
    destruct (onClose_registry ws now (set_sockets (<[ws:=CLOSED]> (sockets st)) st))
      as (-> & _).
    intros [Hin Ho]%elem_of_filter_bool.
    assert (registry_wf (set_sockets (<[ws:=CLOSED]> (sockets st)) st)) as Hwf0
      by (by eapply registry_wf_ext; [..|exact Hwf]).
    rewrite (other_socket_wf _ _ _ Hwf0 Hin), Nat.eqb_refl in Ho. done.
  - pose proof (nextSocket_step (Close ws now) st).
    assert (ws < nextSocket st)%nat; [|lia].
    apply (wf_fresh _ Hwf). unfold accepted in Hacc.
    by apply bool_decide_eq_true in Hacc.
Qed.

Lemma closed_connection_gets_nothing_witness :
  frames_to 1
    (written (step (Close 1 30%Z) (run three_clients (boot (store_D1 "offline"))))
       (run [PostCommand "D1" "ping" VUndefined 40%Z;
             Incoming 1 (device_info (VObj "{}")) 41%Z; Connection;
             DeleteDevice 1 "admin" 42%Z]
          (step (Close 1 30%Z) (run three_clients (boot (store_D1 "offline"))))))
  = [].
Proof.
  apply (closed_connection_gets_nothing (store_D1 "offline") three_clients).
  vm_compute; reflexivity.
Defined.

(** ** Registration codes *)

Lemma find_app_none {A} (p : A → bool) (l k : list A) :
  Forall (fun x => p x = false) l → List.find p (l ++ k) = List.find p k.
Proof. induction 1 as [|x l Hx Hl IH]; simpl; [done|]. by rewrite Hx. Qed.

Lemma JsMap_set_last {V} (m : JsMap.t V) k v v0 :
  k ∉ JsMap.keys m → JsMap.set k v (m ++ [(k, v0)]) = m ++ [(k, v)].
Proof.
  unfold JsMap.keys. induction m as [|[k' v'] m IH]; csimpl.
  - by rewrite Z.eqb_refl.
  - intros [Hne Hn]%not_elem_of_cons.
    destruct (k' =? k)%Z eqn:E; [apply Z.eqb_eq in E; congruence|].
    by rewrite IH.
Qed.

Lemma JsMap_find_key {V} (idf : V → Z) (p : V → bool) (m : JsMap.t V) v :
  NoDup (JsMap.keys m) → Forall (fun kv => idf kv.2 = kv.1) m →
  List.find p (JsMap.values m) = Some v → JsMap.get (idf v) m = Some v.
Proof.
  unfold JsMap.values. intros Hnd Hid Hf.
  induction m as [|[k x] m IH]; simpl in *; [done|].
  apply NoDup_cons in Hnd as [Hk Hnd]. apply Forall_cons in Hid as [Hkv Hid].
  simpl in Hkv. destruct (p x) eqn:E.
  - injection Hf as ->. subst k. by rewrite Z.eqb_refl.
  - destruct (k =? idf v)%Z eqn:Ek; [|by apply IH].
    apply Z.eqb_eq in Ek. exfalso. apply Hk. rewrite Ek.
    specialize (IH Hnd Hid Hf). apply JsMap_get_Some_key in IH.
    unfold JsMap.keys. by apply (list_elem_of_fmap_2 fst) in IH.
Qed.

Lemma JsMap_find_set_indifferent {V} (p : V → bool) (m : JsMap.t V) k v v0 :
  JsMap.get k m = Some v0 → p v0 = false → p v = false →
  List.find p (JsMap.values (JsMap.set k v m)) = List.find p (JsMap.values m).
Proof.
  unfold JsMap.values. induction m as [|[k' x] m IH]; csimpl; [done|].
  destruct (k' =? k)%Z; csimpl.
  - intros [= ->] H0 H1. by rewrite H0, H1.
  - intros Hg H0 H1. destruct (p x); [done|]. by apply IH.
Qed.

Lemma codes_wf_create code now cs :
  codes_wf cs → codes_wf (createRegistrationCode code now cs).2.
Proof.
  intros (Hnd & Hid & Hb). unfold codes_wf. simpl.
  rewrite (JsMap_set_absent _ _ _ (keys_below_not_key _ _ Hb)).
  split; [|split].
  - unfold JsMap.keys. rewrite fmap_app. apply NoDup_app. split; [done|].
    split; [|apply NoDup_singleton].
    intros x Hx ->%list_elem_of_singleton. by apply (keys_below_not_key _ _ Hb).
  - apply Forall_app. split; [done|]. by repeat constructor.
  - unfold keys_below, JsMap.keys in *. rewrite fmap_app. apply Forall_app. split.
    + eapply Forall_impl; [exact Hb|]. simpl. lia.
    + repeat constructor. simpl. lia.
Qed.

Lemma codes_wf_mark code cs :
  codes_wf cs → codes_wf (markRegistrationCodeAsUsed code cs).2.
Proof.
  intros (Hnd & Hid & Hb). unfold markRegistrationCodeAsUsed.
  destruct (List.find _ _) as [r|] eqn:E; [|done].
  pose proof (JsMap_find_key RegistrationCode.id _ _ _ Hnd Hid E) as Hg.
  unfold codes_wf. simpl. split; [|split].
  - by rewrite (JsMap_keys_set_present _ _ _ _ Hg).
  - by apply JsMap_set_Forall.
  - by eapply keys_below_set_present.
Qed.

(** X18. The life of a registration code, in a well-formed code store that
    holds no record with the code yet. Once created, the code is redeemable
    at every instant strictly before its expiry and at no later one (not at
    the expiry instant itself); [markRegistrationCodeAsUsed] returns its
    record with [isUsed] set, and from then on the code is redeemable at no
    instant. *)
Theorem registration_code_lifecycle (cs : CodeStore) (c : string) (expires now : Time) :
  codes_wf cs → code_unknown c cs →
  let r := (createRegistrationCode (RegistrationCode.mkInsert c expires) now cs).1 in
  let cs1 := (createRegistrationCode (RegistrationCode.mkInsert c expires) now cs).2 in
  let cs2 := (markRegistrationCodeAsUsed c cs1).2 in
  (∀ t, getRegistrationCodeByCode c t cs1 = if (t <? expires)%Z then Some r else None) ∧
  (markRegistrationCodeAsUsed c cs1).1 = Some (RegistrationCode.used r) ∧
  (∀ t, getRegistrationCodeByCode c t cs2 = None).
Proof.
  intros (Hnd & Hid & Hb) Hunk r cs1 cs2. subst r cs1 cs2.
  pose proof (keys_below_not_key _ _ Hb) as Hkey.
  assert (∀ t, Forall (fun x => redeemable c t x = false)
                 (JsMap.values (registrationCodes cs))) as Hold.
  { intros t. eapply Forall_impl; [exact Hunk|]. intros x Hx. unfold redeemable.
    destruct (String.eqb (RegistrationCode.code x) c) eqn:E; [|done].
    by apply String.eqb_eq in E. }
  assert (Forall (fun x => String.eqb (RegistrationCode.code x) c = false)
            (JsMap.values (registrationCodes cs))) as Hold'.
  { eapply Forall_impl; [exact Hunk|]. intros x Hx. by apply String.eqb_neq. }
  unfold getRegistrationCodeByCode, markRegistrationCodeAsUsed, createRegistrationCode.
  cbn [fst snd registrationCodes currentId_registrationCodes].
  rewrite (JsMap_set_absent _ _ _ Hkey).
  unfold JsMap.values in *. rewrite fmap_app. csimpl.
  split; [|split].
  - intros t. rewrite (find_app_none _ _ _ (Hold t)). simpl. unfold redeemable at 1.
    simpl. rewrite String.eqb_refl. simpl. by destruct (t <? expires)%Z.
  - rewrite (find_app_none _ _ _ Hold'). simpl. by rewrite String.eqb_refl.
  - intros t. rewrite (find_app_none _ _ _ Hold'). simpl. rewrite String.eqb_refl.
    cbn [fst snd registrationCodes RegistrationCode.id].
    rewrite (JsMap_set_last _ _ _ _ Hkey), fmap_app.
    rewrite (find_app_none _ _ _ (Hold t)). simpl. unfold redeemable. simpl.
    by rewrite String.eqb_refl.
Qed.

Lemma registration_code_lifecycle_witness :
  let cs := (createRegistrationCode (RegistrationCode.mkInsert "AAAA-0000-0000-0000" 50%Z)
               0%Z newCodeStore).2 in
  let cs1 := (createRegistrationCode (RegistrationCode.mkInsert "1A2B-3C4D-5E6F-7A8B" 100%Z)
                10%Z cs).2 in
  is_Some (getRegistrationCodeByCode "1A2B-3C4D-5E6F-7A8B" 99%Z cs1) ∧
  getRegistrationCodeByCode "1A2B-3C4D-5E6F-7A8B" 100%Z cs1 = None ∧
  getRegistrationCodeByCode "1A2B-3C4D-5E6F-7A8B" 20%Z
    (markRegistrationCodeAsUsed "1A2B-3C4D-5E6F-7A8B" cs1).2 = None.
Proof.
  intros cs cs1.
  destruct (registration_code_lifecycle cs "1A2B-3C4D-5E6F-7A8B" 100%Z 10%Z)
    as (H1 & _ & H3).
  - apply codes_wf_create. repeat split; constructor.
  - repeat constructor. simpl. discriminate.
  - subst cs1. split; [|split].
    + rewrite (H1 99%Z). simpl. eauto.
    + by rewrite (H1 100%Z).
    + apply H3.
Defined.

(** X19. [markRegistrationCodeAsUsed(code)] changes at most the one record it
    returns: the redeemability of every other code, at every instant, is as
    before, and for a code no record carries it returns nothing and leaves
    the store as it was. It keeps the code store well formed, as does
    [createRegistrationCode]. *)
Theorem markRegistrationCodeAsUsed_only_that_code (cs : CodeStore) (c : string) :
  codes_wf cs →
  (∀ c' t, c' ≠ c →
     getRegistrationCodeByCode c' t (markRegistrationCodeAsUsed c cs).2
     = getRegistrationCodeByCode c' t cs) ∧
  (code_unknown c cs → markRegistrationCodeAsUsed c cs = (None, cs)) ∧
  codes_wf (markRegistrationCodeAsUsed c cs).2 ∧
  (∀ code now, codes_wf (createRegistrationCode code now cs).2).
Proof.
  intros Hwf. split; [|split; [|split]].
  - intros c' t Hne. destruct Hwf as (Hnd & Hid & Hb).
    unfold getRegistrationCodeByCode, markRegistrationCodeAsUsed.
    match goal with
    | |- context [match ?f with Some _ => _ | None => _ end] =>
        destruct f as [r|] eqn:E; [|done]
    end.
    pose proof (JsMap_find_key RegistrationCode.id _ _ _ Hnd Hid E) as Hg.
    apply List.find_some in E as [_ E]. apply String.eqb_eq in E. simpl.
    assert (String.eqb c c' = false) as Hcc by (apply String.eqb_neq; congruence).
    apply JsMap_find_set_indifferent with (v0 := r); [done| |];
      unfold redeemable; simpl; by rewrite E, Hcc.
  - intros Hunk. unfold markRegistrationCodeAsUsed.
    destruct (List.find _ _) as [r|] eqn:E; [|done].
    apply List.find_some in E as [Hin E]. apply String.eqb_eq in E.
    unfold code_unknown in Hunk. rewrite Forall_forall in Hunk.
    apply list_elem_of_In in Hin. by destruct (Hunk _ Hin).
  - by apply codes_wf_mark.
  - intros code now. by apply codes_wf_create.
Qed.

Lemma markRegistrationCodeAsUsed_only_that_code_witness :
  let cs := (createRegistrationCode (RegistrationCode.mkInsert "AAAA-0000-0000-0000" 50%Z)
               0%Z newCodeStore).2 in
  getRegistrationCodeByCode "AAAA-0000-0000-0000" 20%Z
    (markRegistrationCodeAsUsed "BBBB-0000-0000-0000" cs).2
  = getRegistrationCodeByCode "AAAA-0000-0000-0000" 20%Z cs.
Proof.
  intros cs.
  destruct (markRegistrationCodeAsUsed_only_that_code cs "BBBB-0000-0000-0000")
    as (H & _).
  - apply codes_wf_create. repeat split; constructor.
  - apply H. discriminate.
Defined.

(** ** [generateRegistrationCode] *)

Lemma nibble_cases (n : N) (Q : N → Prop) :
  (n < 16)%N →
  Q 0%N → Q 1%N → Q 2%N → Q 3%N → Q 4%N → Q 5%N → Q 6%N → Q 7%N →
  Q 8%N → Q 9%N → Q 10%N → Q 11%N → Q 12%N → Q 13%N → Q 14%N → Q 15%N → Q n.
Proof.
  intros H. rewrite <- (N2Nat.id n). assert (N.to_nat n < 16)%nat as Hk by lia.
  generalize dependent (N.to_nat n). clear. intros k Hk.
  do 16 (destruct k as [|k]; [tauto|]). lia.
Qed.

Lemma upper_hex_digit (n : N) :
  (n < 16)%N → is_upper_hex (upper_char (hex_digit n)) = true.
Proof. intros H. apply (nibble_cases n); try done; intros; vm_compute; reflexivity. Qed.

Lemma unhex_upper_hex_digit (n : N) :
  (n < 16)%N → unhex (upper_char (hex_digit n)) = n.
Proof. intros H. apply (nibble_cases n); try done; intros; vm_compute; reflexivity. Qed.

Lemma byte_nibbles (b : N) : (b < 256)%N → (b / 16 < 16)%N ∧ (b mod 16 < 16)%N.
Proof.
  intros H. split.
  - apply N.Div0.div_lt_upper_bound. lia.
  - apply N.mod_lt. lia.
Qed.

Lemma four_bytes_inv (randomBytes : nat → list N) (i : nat) :
  four_bytes randomBytes → (i < 4)%nat →
  ∃ a b c d, randomBytes i = [a; b; c; d] ∧ (a < 256)%N ∧ (b < 256)%N.
Proof.
  intros H Hi. destruct (H i Hi) as [Hlen Hb].
  destruct (randomBytes i) as [|a [|b [|c [|d [|? ?]]]]]; try done.
  exists a, b, c, d. split; [done|].
  apply Forall_cons in Hb as [Ha Hb]. apply Forall_cons in Hb as [Hb' _]. done.
Qed.

(** The four characters a draw contributes. *)
Lemma segment_of_draw (a b c d : N) :
  String.substring 0 segmentLength (toUpperCase (toString_hex [a; b; c; d]))
  = String.String (upper_char (hex_digit (a / 16)))
      (String.String (upper_char (hex_digit (a mod 16)))
         (String.String (upper_char (hex_digit (b / 16)))
            (String.String (upper_char (hex_digit (b mod 16))) String.EmptyString))).
Proof. reflexivity. Qed.

Lemma segment_upper_hex (a b : N) :
  (a < 256)%N → (b < 256)%N →
  Forall (fun ch => is_upper_hex ch = true)
    [upper_char (hex_digit (a / 16)); upper_char (hex_digit (a mod 16));
     upper_char (hex_digit (b / 16)); upper_char (hex_digit (b mod 16))].
Proof.
  intros Ha Hb. repeat constructor; apply upper_hex_digit; by apply byte_nibbles.
Qed.

(** X20. Whatever bytes [randomBytes] returns, the code has 19 characters:
    the four segments joined by ["-"], each segment being four characters of
    [0-9A-F]. *)
Theorem generateRegistrationCode_format (randomBytes : nat → list N) :
  four_bytes randomBytes →
  String.length (generateRegistrationCode randomBytes) = 19%nat ∧
  generateRegistrationCode randomBytes
  = String.append (segment randomBytes 0) (String.append "-"
      (String.append (segment randomBytes 1) (String.append "-"
         (String.append (segment randomBytes 2) (String.append "-"
            (segment randomBytes 3)))))) ∧
  ∀ i, (i < 4)%nat →
       String.length (segment randomBytes i) = 4%nat ∧
       Forall (fun ch => is_upper_hex ch = true)
              (String.list_ascii_of_string (segment randomBytes i)).
Proof.
  intros H.
  destruct (four_bytes_inv _ 0 H) as (a0 & b0 & c0 & d0 & E0 & Ha0 & Hb0); [lia|].
  destruct (four_bytes_inv _ 1 H) as (a1 & b1 & c1 & d1 & E1 & Ha1 & Hb1); [lia|].
  destruct (four_bytes_inv _ 2 H) as (a2 & b2 & c2 & d2 & E2 & Ha2 & Hb2); [lia|].
  destruct (four_bytes_inv _ 3 H) as (a3 & b3 & c3 & d3 & E3 & Ha3 & Hb3); [lia|].
  unfold generateRegistrationCode, segment, segments. cbn [seq fmap list_fmap].
  rewrite E0, E1, E2, E3, !segment_of_draw.
  split; [reflexivity|]. split; [reflexivity|].
  intros i Hi.
  destruct i as [|[|[|[|i]]]]; [| | | |lia];
    rewrite ?E0, ?E1, ?E2, ?E3, segment_of_draw;
    (split; [reflexivity | by apply segment_upper_hex]).
Qed.

Lemma draw_example_four_bytes :
  four_bytes (fun i => [N.of_nat (16 * i + 10); 255; 0; 7]%N).
Proof.
  intros i Hi. unfold segments in Hi. split; [reflexivity|].
  repeat (apply Forall_cons; split; [lia|]). by apply Forall_nil.
Qed.

Lemma generateRegistrationCode_format_witness :
  String.length (generateRegistrationCode (fun i => [N.of_nat (16 * i + 10); 255; 0; 7]%N))
  = 19%nat ∧
  generateRegistrationCode (fun i => [N.of_nat (16 * i + 10); 255; 0; 7]%N)
  = "0AFF-1AFF-2AFF-3AFF".
Proof.
  destruct (generateRegistrationCode_format _ draw_example_four_bytes) as [H _].
  split; [exact H | vm_compute; reflexivity].
Defined.

Lemma byte_of_nibbles (a b : N) :
  (a / 16 = b / 16)%N → (a mod 16 = b mod 16)%N → a = b.
Proof.
  intros H1 H2. rewrite (N.div_mod a 16), (N.div_mod b 16) by lia. by rewrite H1, H2.
Qed.

Lemma upper_hex_digit_inj (n m : N) :
  (n < 16)%N → (m < 16)%N →
  upper_char (hex_digit n) = upper_char (hex_digit m) → n = m.
Proof.
  intros Hn Hm H. rewrite <- (unhex_upper_hex_digit n Hn), <- (unhex_upper_hex_digit m Hm).
  by rewrite H.
Qed.

(** X21. The code keeps two of the four bytes of each draw: two runs of
    [generateRegistrationCode] return the same code exactly when, in each of
    the four draws, the first two bytes agree. The last two bytes of a draw
    never reach the code, and the first two can be read back from it, so
    the code carries 64 random bits. *)
Theorem generateRegistrationCode_first_two_bytes (r r' : nat → list N) :
  four_bytes r → four_bytes r' →
  (generateRegistrationCode r = generateRegistrationCode r' ↔
   ∀ i, (i < 4)%nat → take 2 (r i) = take 2 (r' i)).
Proof.
  intros H H'.
  destruct (four_bytes_inv _ 0 H) as (a0 & b0 & c0 & d0 & E0 & Ha0 & Hb0); [lia|].
  destruct (four_bytes_inv _ 1 H) as (a1 & b1 & c1 & d1 & E1 & Ha1 & Hb1); [lia|].
  destruct (four_bytes_inv _ 2 H) as (a2 & b2 & c2 & d2 & E2 & Ha2 & Hb2); [lia|].
  destruct (four_bytes_inv _ 3 H) as (a3 & b3 & c3 & d3 & E3 & Ha3 & Hb3); [lia|].
  destruct (four_bytes_inv _ 0 H') as (a0' & b0' & c0' & d0' & E0' & Ha0' & Hb0'); [lia|].
  destruct (four_bytes_inv _ 1 H') as (a1' & b1' & c1' & d1' & E1' & Ha1' & Hb1'); [lia|].
  destruct (four_bytes_inv _ 2 H') as (a2' & b2' & c2' & d2' & E2' & Ha2' & Hb2'); [lia|].
  destruct (four_bytes_inv _ 3 H') as (a3' & b3' & c3' & d3' & E3' & Ha3' & Hb3'); [lia|].
  unfold generateRegistrationCode, segments. cbn [seq fmap list_fmap].
  rewrite E0, E1, E2, E3, E0', E1', E2', E3', !segment_of_draw.
  cbn [String.concat String.append].
  split.
  - intros Heq. injection Heq as ? ? ? ? ? ? ? ? ? ? ? ? ? ? ? ?.
    repeat match goal with
    | Hc : upper_char (hex_digit ?x) = upper_char (hex_digit ?y) |- _ =>
        apply upper_hex_digit_inj in Hc; [|by apply byte_nibbles..]
    end.
    intros i Hi.
    destruct i as [|[|[|[|i]]]]; [| | | |lia];
      rewrite ?E0, ?E1, ?E2, ?E3, ?E0', ?E1', ?E2', ?E3'; cbn [take];
      f_equal; [|f_equal| |f_equal| |f_equal| |f_equal]; by apply byte_of_nibbles.
  - intros Ht.
    pose proof (Ht 0%nat ltac:(lia)) as T0. pose proof (Ht 1%nat ltac:(lia)) as T1.
    pose proof (Ht 2%nat ltac:(lia)) as T2. pose proof (Ht 3%nat ltac:(lia)) as T3.
    rewrite E0, E0' in T0. rewrite E1, E1' in T1.
    rewrite E2, E2' in T2. rewrite E3, E3' in T3.
    cbn [take] in *.
    injection T0 as -> ->. injection T1 as -> ->.
    injection T2 as -> ->. injection T3 as -> ->. reflexivity.
Qed.

Lemma generateRegistrationCode_first_two_bytes_witness :
  generateRegistrationCode (fun i => [N.of_nat (16 * i + 10); 255; 0; 7]%N)
  = generateRegistrationCode (fun i => [N.of_nat (16 * i + 10); 255; 99; 100]%N).
Proof.
  apply generateRegistrationCode_first_two_bytes.
  - apply draw_example_four_bytes.
  - intros i Hi. unfold segments in Hi. split; [reflexivity|].
    repeat (apply Forall_cons; split; [lia|]). by apply Forall_nil.
  - intros i Hi. reflexivity.
Defined.

(** ** Users and [POST /api/register] *)

Lemma strict_eq_sym (a b : JsVal) : strict_eq a b = strict_eq b a.
Proof.
  destruct a, b; simpl; try done.
  - by destruct b, b0.
  - apply Z.eqb_sym.
  - apply String.eqb_sym.
Qed.

Lemma createUser_users insertUser us :
  keys_below (currentId_users us) (users us) →
  users (createUser insertUser us).2
  = users us ++ [(currentId_users us, (createUser insertUser us).1)].
Proof. intros Hb. simpl. apply JsMap_set_absent. by apply keys_below_not_key. Qed.

Lemma users_wf_createUser insertUser us :
  users_wf us → users_wf (createUser insertUser us).2.
Proof.
  intros (Hnd & Hid & Hb). unfold users_wf. rewrite createUser_users by done.
  cbn [currentId_users createUser snd fst].
  split; [|split].
  - unfold JsMap.keys. rewrite fmap_app. apply NoDup_app. split; [done|].
    split; [|apply NoDup_singleton].
    intros x Hx ->%list_elem_of_singleton. by apply (keys_below_not_key _ _ Hb).
  - apply Forall_app. split; [done|]. by repeat constructor.
  - unfold keys_below, JsMap.keys in *. rewrite fmap_app. apply Forall_app. split.
    + eapply Forall_impl; [exact Hb|]. simpl. lia.
    + repeat constructor. simpl. lia.
Qed.

Lemma find_none_Forall {A} (p : A → bool) (l : list A) :
  List.find p l = None → Forall (fun x => p x = false) l.
Proof.
  induction l as [|x l IH]; simpl; [by constructor|].
  destruct (p x) eqn:E; [done|]. intros H. constructor; [done | by apply IH].
Qed.

Lemma usernames_distinct_createUser insertUser us :
  keys_below (currentId_users us) (users us) →
  getUserByUsername (User.i_username insertUser) us = None →
  usernames_distinct us → usernames_distinct (createUser insertUser us).2.
Proof.
  intros Hb Hnone Hd. unfold usernames_distinct. rewrite createUser_users by done.
  apply find_none_Forall in Hnone. rewrite Forall_forall in Hnone.
  unfold JsMap.values in *. rewrite fmap_app. csimpl.
  intros i j u v Hi Hj Heq.
  apply lookup_app_Some in Hi as [Hi|[Hil Hi]];
    apply lookup_app_Some in Hj as [Hj|[Hjl Hj]].
  - by eapply Hd.
  - apply list_lookup_singleton_Some in Hj as [_ <-]. cbn [User.username] in Heq.
    apply list_elem_of_lookup_2 in Hi. specialize (Hnone _ Hi). congruence.
  - apply list_lookup_singleton_Some in Hi as [_ <-]. cbn [User.username] in Heq.
    apply list_elem_of_lookup_2 in Hj. specialize (Hnone _ Hj).
    rewrite strict_eq_sym in Heq. congruence.
  - apply list_lookup_singleton_Some in Hi as [Hi _].
    apply list_lookup_singleton_Some in Hj as [Hj _]. lia.
Qed.

Lemma register_check_None username password us :
  register_check username password us = None →
  truthy username = true ∧ truthy password = true ∧
  getUserByUsername username us = None.
Proof.
  unfold register_check.
  destruct (truthy username), (truthy password); simpl; try done.
  by destruct (getUserByUsername username us).
Qed.

Lemma register_step_cases r us :
  register_step us r = us ∨
  (getUserByUsername (r_username r) us = None ∧
   ∃ insertUser, User.i_username insertUser = r_username r ∧
                 register_step us r = (createUser insertUser us).2).
Proof.
  unfold register_step, register.
  destruct (register_check _ _ _) as [m|] eqn:E; [by left|].
  apply register_check_None in E as (_ & _ & E).
  destruct (r_hashed r) as [h|]; [|by left].
  right. split; [done|]. eexists. split; [|reflexivity]. done.
Qed.

Lemma register_step_users_wf r us : users_wf us → users_wf (register_step us r).
Proof.
  intros Hwf. destruct (register_step_cases r us) as [->|(Hn & i & Hi & ->)]; [done|].
  by apply users_wf_createUser.
Qed.

Lemma register_step_wf r us :
  users_wf us → usernames_distinct us →
  users_wf (register_step us r) ∧ usernames_distinct (register_step us r).
Proof.
  intros Hwf Hd. split; [by apply register_step_users_wf|].
  destruct (register_step_cases r us) as [->|(Hn & i & Hi & ->)]; [done|].
  apply usernames_distinct_createUser; [apply Hwf | by rewrite Hi | done].
Qed.

Lemma register_step_extends r us :
  users_wf us → ∃ k, users (register_step us r) = users us ++ k.
Proof.
  intros Hwf. destruct (register_step_cases r us) as [->|(Hn & i & Hi & ->)].
  - exists []. by rewrite app_nil_r.
  - eexists. apply createUser_users. apply Hwf.
Qed.

Lemma register_run_extends rs us :
  users_wf us → ∃ k, users (register_run rs us) = users us ++ k.
Proof.
  revert us. induction rs as [|r rs IH]; intros us Hwf.
  - exists []. by rewrite app_nil_r.
  - destruct (IH _ (register_step_users_wf r us Hwf)) as [k Hk].
    destruct (register_step_extends r us Hwf) as [k0 Hk0].
    exists (k0 ++ k). cbn [register_run foldl] in *. unfold register_run in Hk.
    by rewrite Hk, Hk0, <- app_assoc.
Qed.

Lemma JsMap_get_app_Some {V} (m k : JsMap.t V) id v :
  JsMap.get id m = Some v → JsMap.get id (m ++ k) = Some v.
Proof.
  induction m as [|[k' v'] m IH]; simpl; [done|].
  destruct (k' =? id)%Z; [done | apply IH].
Qed.

Lemma find_app_Some {A} (p : A → bool) (l k : list A) x :
  List.find p l = Some x → List.find p (l ++ k) = Some x.
Proof.
  induction l as [|y l IH]; simpl; [done|]. destruct (p y); [done | apply IH].
Qed.

Lemma users_wf_newUserStore : users_wf newUserStore.
Proof.
  split; [|split].
  - apply NoDup_singleton.
  - by repeat constructor.
  - by repeat constructor.
Qed.

Lemma usernames_distinct_newUserStore : usernames_distinct newUserStore.
Proof. intros [|i] [|j] u v Hi Hj _; done. Qed.

Lemma strict_eq_same (a : JsVal) : (∀ json, a ≠ VObj json) → strict_eq a a = true.
Proof.
  destruct a; simpl; intros H; try done.
  - by destruct b.
  - apply Z.eqb_refl.
  - apply String.eqb_refl.
  - by destruct (H json).
Qed.

Lemma strict_eq_object (a : JsVal) (json : string) : strict_eq a (VObj json) = false.
Proof. by destruct a. Qed.

Lemma getUserByUsername_object (json : string) (us : UserStore) :
  getUserByUsername (VObj json) us = None.
Proof.
  unfold getUserByUsername. induction (JsMap.values (users us)) as [|u l IH]; simpl; [done|].
  by rewrite strict_eq_object.
Qed.

(** X22. Handled one after the other, registrations keep the users well
    formed (every user stored under its own id with the role [user], ids
    never reused) and never store two users with the same username when
    that username is a string, a number or a boolean. A username that is an
    object or an array is identical to no stored username: with a truthy
    password that [hashPassword] accepts, such a registration is stored
    every time, so the same array can become the username of several
    users. *)
Theorem register_run_primitive_usernames_distinct (rs : list RegisterRequest)
  (us : UserStore) :
  users_wf us → usernames_distinct us →
  users_wf (register_run rs us) ∧
  usernames_distinct (register_run rs us) ∧
  (∀ i j u v,
     JsMap.values (users (register_run rs us)) !! i = Some u →
     JsMap.values (users (register_run rs us)) !! j = Some v →
     User.username u = User.username v →
     (∀ json, User.username u ≠ VObj json) → i = j) ∧
  (∀ json password name hashedPassword login,
     truthy password = true →
     users (register (VObj json) password name (Some hashedPassword) login
              (register_run rs us)).2
     = users (register_run rs us)
       ++ [(currentId_users (register_run rs us),
            User.mk (VObj json) (VStr hashedPassword) (js_or name (VObj json))
                    (currentId_users (register_run rs us)) "user")]).
Proof.
  intros Hwf Hd.
  assert (users_wf (register_run rs us) ∧ usernames_distinct (register_run rs us))
    as [Hwf' Hd'].
  { revert us Hwf Hd. induction rs as [|r rs IH]; intros us Hwf Hd; [done|].
    destruct (register_step_wf r us Hwf Hd) as [Hwf' Hd'].
    exact (IH _ Hwf' Hd'). }
  split; [done|]. split; [done|]. split.
  - intros i j u v Hi Hj Heq Hprim. apply (Hd' i j u v Hi Hj).
    rewrite <- Heq. by apply strict_eq_same.
  - intros json password name h login Hp.
    unfold register, register_check. cbn [truthy negb orb]. rewrite Hp. cbn [negb].
    rewrite getUserByUsername_object. unfold register_create.
    pose proof (createUser_users
                  (User.mkInsert (VObj json) (VStr h) (js_or name (VObj json)))
                  (register_run rs us) (proj2 (proj2 Hwf'))) as Hus.
    destruct (createUser _ _) as [user us'] eqn:E. cbn [fst snd] in *.
    rewrite Hus. unfold createUser in E. cbv zeta in E. by injection E as <- _.
Qed.

Lemma register_run_primitive_usernames_distinct_witness :
  users
    (register (VObj "[1]") (VStr "pw") VUndefined (Some "h2.s") true
       (register_run
          [mkRegisterRequest (VStr "ann") (VStr "pw") VUndefined (Some "h.s") true;
           mkRegisterRequest (VStr "ann") (VStr "pw2") (VStr "Ann") (Some "h.s") true;
           mkRegisterRequest (VObj "[1]") (VStr "pw") VUndefined (Some "h1.s") true]
          newUserStore)).2
  = [(1%Z, User.mk (VStr "admin") (VStr "admin123") (VStr "Admin User") 1 "user");
     (2%Z, User.mk (VStr "ann") (VStr "h.s") (VStr "ann") 2 "user");
     (3%Z, User.mk (VObj "[1]") (VStr "h1.s") (VObj "[1]") 3 "user");
     (4%Z, User.mk (VObj "[1]") (VStr "h2.s") (VObj "[1]") 4 "user")].
Proof.
  destruct (register_run_primitive_usernames_distinct
              [mkRegisterRequest (VStr "ann") (VStr "pw") VUndefined (Some "h.s") true;
               mkRegisterRequest (VStr "ann") (VStr "pw2") (VStr "Ann") (Some "h.s") true;
               mkRegisterRequest (VObj "[1]") (VStr "pw") VUndefined (Some "h1.s") true]
              newUserStore users_wf_newUserStore usernames_distinct_newUserStore)
    as (_ & _ & _ & H).
  rewrite H by reflexivity. reflexivity.
Defined.

(** X23. No request changes or removes a stored user: after any sequence of
    registrations every user is still found under its id, unchanged, the
    users stored before come first in the same order, and a username that
    found a user finds the same user. The default user [admin] therefore
    keeps the role [user] and its password as written in the constructor. *)
Theorem registered_user_stays (rs : list RegisterRequest) (us : UserStore) :
  users_wf us →
  JsMap.values (users us) `prefix_of` JsMap.values (users (register_run rs us)) ∧
  (∀ id u, getUser id us = Some u → getUser id (register_run rs us) = Some u) ∧
  (∀ username u, getUserByUsername username us = Some u →
                 getUserByUsername username (register_run rs us) = Some u).
Proof.
  intros Hwf. destruct (register_run_extends rs us Hwf) as [k Hk].
  unfold getUser, getUserByUsername, JsMap.values. rewrite Hk, fmap_app.
  split; [|split].
  - by eexists.
  - intros id u. apply JsMap_get_app_Some.
  - intros username u. apply find_app_Some.
Qed.

Lemma registered_user_stays_witness :
  getUserByUsername (VStr "admin")
    (register_run
       [mkRegisterRequest (VStr "admin") (VStr "x") VUndefined (Some "h.s") true;
        mkRegisterRequest (VStr "root") (VStr "y") VUndefined (Some "h.s") true]
       newUserStore)
  = Some (User.mk (VStr "admin") (VStr "admin123") (VStr "Admin User") 1 "user").
Proof.
  apply (registered_user_stays _ newUserStore users_wf_newUserStore).
  reflexivity.
Defined.

Lemma getUserByUsername_created insertUser us :
  keys_below (currentId_users us) (users us) →
  getUserByUsername (User.i_username insertUser) us = None →
  strict_eq (User.i_username insertUser) (User.i_username insertUser) = true →
  getUserByUsername (User.i_username insertUser) (createUser insertUser us).2
  = Some (createUser insertUser us).1.
Proof.
  intros Hb Hn Hrefl. unfold getUserByUsername. rewrite createUser_users by done.
  unfold JsMap.values. rewrite fmap_app.
  rewrite find_app_none by (by apply find_none_Forall).
  csimpl. cbn [User.username]. by rewrite Hrefl.
Qed.

(** X24. What [POST /api/register] does. A falsy username or password, or a
    username some stored user has, is answered 400 and stores nothing; so
    does a failure of [hashPassword]. Otherwise one user is appended under
    the next id, with the role [user], the hashed password, and the username
    as its name when the body has no truthy [name]; it is stored also when
    [req.login] fails afterwards. For a username that is identical to
    itself (any string, number or boolean), the stored user is then found
    by that username and a second registration of it is refused. *)
Theorem register_outcome (username password name : JsVal) (hashed : option string)
  (login : bool) (us : UserStore) :
  users_wf us →
  (truthy username = false ∨ truthy password = false →
   register username password name hashed login us
   = (BadRequest "Username and password are required", us)) ∧
  (truthy username = true → truthy password = true →
   is_Some (getUserByUsername username us) →
   register username password name hashed login us
   = (BadRequest "Username already exists", us)) ∧
  (register_check username password us = None → hashed = None →
   register username password name hashed login us = (Failed, us)) ∧
  (∀ hashedPassword,
     register_check username password us = None → hashed = Some hashedPassword →
     let user := User.mk username (VStr hashedPassword)
                         (if truthy name then name else username)
                         (currentId_users us) "user" in
     let us' := (register username password name hashed login us).2 in
     (register username password name hashed login us).1
     = (if login then Registered (User.without_password user) else Failed) ∧
     users us' = users us ++ [(currentId_users us, user)] ∧
     currentId_users us' = (currentId_users us + 1)%Z ∧
     getUser (currentId_users us) us' = Some user ∧
     (strict_eq username username = true →
      getUserByUsername username us' = Some user ∧
      ∀ password' name' hashed' login',
        truthy password' = true →
        register username password' name' hashed' login' us'
        = (BadRequest "Username already exists", us'))).
Proof.
  intros Hwf. split; [|split; [|split]].
  - unfold register, register_check. intros [-> | ->]; [done|].
    by rewrite orb_true_r.
  - unfold register, register_check. intros -> -> [u ->]. done.
  - unfold register. by intros -> ->.
  - intros h Hc ->. unfold register. rewrite Hc. unfold register_create.
    apply register_check_None in Hc as (Hu & Hp & Hn).
    set (ins := User.mkInsert username (VStr h) (js_or name username)).
    pose proof (createUser_users ins us (proj2 (proj2 Hwf))) as Hus.
    pose proof (getUserByUsername_created ins us (proj2 (proj2 Hwf)) Hn) as Hfound.
    destruct (createUser ins us) as [user us'] eqn:Ecreate.
    unfold createUser in Ecreate. cbv zeta in Ecreate. injection Ecreate as <- <-.
    cbn [fst snd User.i_username User.i_password User.i_name ins currentId_users] in *.
    cbv zeta. unfold js_or in *.
    split; [done|]. split; [done|]. split; [done|]. split.
    { apply JsMap_get_set_eq. }
    intros Hrefl. specialize (Hfound Hrefl). split; [done|].
    intros password' name' hashed' login' Hp'.
    unfold register, register_check. by rewrite Hu, Hp', Hfound.
Qed.

Lemma register_outcome_witness :
  register (VStr "ann") (VStr "pw") VUndefined (Some "h.s") false newUserStore
  = (Failed,
     mkUserStore
       [(1%Z, User.mk (VStr "admin") (VStr "admin123") (VStr "Admin User") 1 "user");
        (2%Z, User.mk (VStr "ann") (VStr "h.s") (VStr "ann") 2 "user")] 3) ∧
  register (VStr "ann") (VStr "other") VUndefined (Some "h.s") true
    (register (VStr "ann") (VStr "pw") VUndefined (Some "h.s") false newUserStore).2
  = (BadRequest "Username already exists",
     (register (VStr "ann") (VStr "pw") VUndefined (Some "h.s") false newUserStore).2).
Proof.
  destruct (register_outcome (VStr "ann") (VStr "pw") VUndefined (Some "h.s") false
              newUserStore users_wf_newUserStore) as (_ & _ & _ & H).
  destruct (H "h.s" eq_refl eq_refl) as (_ & _ & _ & _ & H5).
  split; [reflexivity|]. apply (H5 eq_refl). reflexivity.
Defined.

(** X25. The check and the creation of [POST /api/register] are separated
    by [await hashPassword]. When two requests for the same username both
    pass the check before either creates its user, both users are stored:
    the usernames are no longer distinct, the username finds the user
    created first, and the other one is reachable by its id only. Had the
    second check run after the first creation it would have been refused. *)
Theorem register_check_then_create_race (username password1 password2 name1 name2 : JsVal)
  (hashed1 hashed2 : string) (login1 login2 : bool) (us : UserStore) :
  users_wf us →
  strict_eq username username = true →
  register_check username password1 us = None →
  register_check username password2 us = None →
  let us1 := (register_create username name1 hashed1 login1 us).2 in
  let us2 := (register_create username name2 hashed2 login2 us1).2 in
  let user1 := User.mk username (VStr hashed1) (js_or name1 username)
                       (currentId_users us) "user" in
  let user2 := User.mk username (VStr hashed2) (js_or name2 username)
                       (currentId_users us + 1) "user" in
  JsMap.values (users us2) = JsMap.values (users us) ++ [user1; user2] ∧
  ¬ usernames_distinct us2 ∧
  getUserByUsername username us2 = Some user1 ∧
  getUser (currentId_users us + 1) us2 = Some user2 ∧
  register_check username password2 us1 = Some "Username already exists".
Proof.
  intros Hwf Hrefl Hc1 Hc2.
  apply register_check_None in Hc1 as (Hu & Hp1 & Hn).
  apply register_check_None in Hc2 as (_ & Hp2 & _).
  destruct Hwf as (Hnd & Hid & Hb).
  cbv [register_create createUser fst snd User.i_username User.i_password User.i_name].
  cbn [users currentId_users].
  set (cur := currentId_users us) in *.
  set (u1 := User.mk username (VStr hashed1) (js_or name1 username) cur "user").
  set (u2 := User.mk username (VStr hashed2) (js_or name2 username) (cur + 1) "user").
  assert (JsMap.set cur u1 (users us) = users us ++ [(cur, u1)]) as E1
    by (apply JsMap_set_absent; by apply keys_below_not_key).
  assert (JsMap.set (cur + 1) u2 (users us ++ [(cur, u1)])
          = (users us ++ [(cur, u1)]) ++ [((cur + 1)%Z, u2)]) as E2.
  { apply JsMap_set_absent, keys_below_not_key. rewrite <- E1.
    by apply keys_below_set_counter. }
  assert (Forall (fun x => strict_eq (User.username x) username = false)
                 (JsMap.values (users us))) as Hnone
    by (by apply find_none_Forall).
  assert (JsMap.values (JsMap.set (cur + 1) u2 (JsMap.set cur u1 (users us)))
          = JsMap.values (users us) ++ [u1; u2]) as Hvals.
  { unfold JsMap.values. rewrite E1, E2, !fmap_app, <- app_assoc. reflexivity. }
  split; [exact Hvals|]. split; [|split; [|split]].
  - intros Hd. unfold usernames_distinct in Hd. cbn [users] in Hd. rewrite Hvals in Hd.
    assert (length (JsMap.values (users us)) = S (length (JsMap.values (users us))))
      as Habs; [|lia].
    apply (Hd _ _ u1 u2).
    + rewrite lookup_app_r by lia. by rewrite Nat.sub_diag.
    + rewrite lookup_app_r by lia.
      by replace (S (length (JsMap.values (users us)))
                  - length (JsMap.values (users us)))%nat with 1%nat by lia.
    + exact Hrefl.
  - unfold getUserByUsername. cbn [users]. rewrite Hvals.
    rewrite find_app_none by done. cbn [List.find u1 User.username]. by rewrite Hrefl.
  - unfold getUser. cbn [users]. apply JsMap_get_set_eq.
  - unfold register_check. rewrite Hu, Hp2. cbn [negb orb].
    unfold getUserByUsername, JsMap.values. cbn [users].
    rewrite E1, fmap_app, find_app_none by done. csimpl.
    cbn [List.find u1 User.username]. by rewrite Hrefl.
Qed.

Lemma register_check_then_create_race_witness :
  getUserByUsername (VStr "ann")
    (register_create (VStr "ann") (VStr "Ann B") "h2.s" true
       (register_create (VStr "ann") VUndefined "h1.s" true newUserStore).2).2
  = Some (User.mk (VStr "ann") (VStr "h1.s") (VStr "ann") 2 "user") ∧
  getUser 3
    (register_create (VStr "ann") (VStr "Ann B") "h2.s" true
       (register_create (VStr "ann") VUndefined "h1.s" true newUserStore).2).2
  = Some (User.mk (VStr "ann") (VStr "h2.s") (VStr "Ann B") 3 "user").
Proof.
  destruct (register_check_then_create_race (VStr "ann") (VStr "a") (VStr "b")
              VUndefined (VStr "Ann B") "h1.s" "h2.s" true true newUserStore
              users_wf_newUserStore eq_refl eq_refl eq_refl)
    as (_ & _ & H3 & H4 & _).
  split; [exact H3 | exact H4].
Defined.

(** ** The dashboard's handler table *)

Lemma handlers_of_insert (type type' : string) (l : list SocketClient.Handler)
  (messageHandlers : SocketClient.t) :
  SocketClient.handlers_of type' (<[type := l]> messageHandlers)
  = if decide (type' = type) then l else SocketClient.handlers_of type' messageHandlers.
Proof.
  unfold SocketClient.handlers_of, SocketClient.t in *.
  destruct (decide (type' = type)) as [->|Hne].
  - by rewrite lookup_insert_eq.
  - by rewrite lookup_insert_ne.
Qed.

Lemma not_handler_filter (handler : SocketClient.Handler) (l : list SocketClient.Handler) :
  handler ∉ List.filter (fun h => negb (Nat.eqb h handler)) l.
Proof.
  intros [_ H]%elem_of_filter_bool. by rewrite Nat.eqb_refl in H.
Qed.

Lemma filter_absent_handler (handler : SocketClient.Handler) (l : list SocketClient.Handler) :
  handler ∉ l → List.filter (fun h => negb (Nat.eqb h handler)) l = l.
Proof.
  induction l as [|x l IH]; simpl; [done|].
  intros [Hne Hl]%not_elem_of_cons.
  destruct (Nat.eqb_spec x handler) as [->|_]; [done|]. simpl. by rewrite IH.
Qed.

(** X26. Subscriptions of the dashboard's socket client. [on(type, handler)]
    puts the handler after those already registered for the type, and
    [handleMessage] calls them in that order; other types are untouched. The
    function [on] returns removes every registration of that handler for the
    type, keeping the others in order: for a handler that was not registered
    before, subscribing and unsubscribing restores the dispatch of every
    type, while for one registered before, the earlier registrations are
    dropped as well. Called after [close()], it registers nothing. *)
Theorem socketClient_subscription (type : string) (handler : SocketClient.Handler)
  (messageHandlers : SocketClient.t) :
  (∀ type',
     SocketClient.handleMessage type' (SocketClient.on type handler messageHandlers)
     = if decide (type' = type)
       then SocketClient.handleMessage type messageHandlers ++ [handler]
       else SocketClient.handleMessage type' messageHandlers) ∧
  (∀ type',
     SocketClient.handleMessage type'
       (SocketClient.unsubscribe type handler messageHandlers)
     = if decide (type' = type)
       then List.filter (fun h => negb (Nat.eqb h handler))
                        (SocketClient.handleMessage type messageHandlers)
       else SocketClient.handleMessage type' messageHandlers) ∧
  (handler ∉ SocketClient.handleMessage type
               (SocketClient.unsubscribe type handler messageHandlers)) ∧
  (handler ∉ SocketClient.handleMessage type messageHandlers →
   ∀ type',
     SocketClient.handleMessage type'
       (SocketClient.unsubscribe type handler
          (SocketClient.on type handler messageHandlers))
     = SocketClient.handleMessage type' messageHandlers) ∧
  (SocketClient.handleMessage type
     (SocketClient.unsubscribe type handler (SocketClient.on type handler messageHandlers))
   = List.filter (fun h => negb (Nat.eqb h handler))
                 (SocketClient.handleMessage type messageHandlers)) ∧
  (∀ type',
     SocketClient.handleMessage type'
       (SocketClient.unsubscribe type handler (SocketClient.close messageHandlers))
     = []).
Proof.
  unfold SocketClient.handleMessage, SocketClient.on, SocketClient.unsubscribe.
  split; [|split; [|split; [|split; [|split]]]].
  - intros type'. apply handlers_of_insert.
  - intros type'. apply handlers_of_insert.
  - rewrite handlers_of_insert. rewrite decide_True by done. apply not_handler_filter.
  - intros Hnot type'. rewrite !handlers_of_insert.
    destruct (decide (type' = type)) as [->|Hne]; [|done].
    rewrite decide_True by done.
    rewrite List.filter_app, filter_absent_handler by done.
    simpl. rewrite Nat.eqb_refl. simpl. apply app_nil_r.
  - rewrite !handlers_of_insert, !decide_True by done.
    rewrite List.filter_app. simpl. rewrite Nat.eqb_refl. simpl. apply app_nil_r.
  - intros type'. rewrite handlers_of_insert. unfold SocketClient.close.
    destruct (decide (type' = type)) as [->|Hne]; [|done].
    unfold SocketClient.handlers_of, SocketClient.t. by rewrite lookup_empty.
Qed.

Lemma socketClient_subscription_witness :
  (7 ∉ SocketClient.handleMessage "COMMAND" (SocketClient.on "COMMAND" 3 ∅)) ∧
  SocketClient.handleMessage "COMMAND"
    (SocketClient.unsubscribe "COMMAND" 7
       (SocketClient.on "COMMAND" 7 (SocketClient.on "COMMAND" 3 ∅)))
  = SocketClient.handleMessage "COMMAND" (SocketClient.on "COMMAND" 3 ∅).
Proof.
  assert (7 ∉ SocketClient.handleMessage "COMMAND" (SocketClient.on "COMMAND" 3 ∅)) as H.
  { vm_compute. intros H. apply list_elem_of_singleton in H. lia. }
  split; [exact H|].
  destruct (socketClient_subscription "COMMAND" 7 (SocketClient.on "COMMAND" 3 ∅))
    as (_ & _ & _ & Hround & _).
  exact (Hround H "COMMAND").
Defined.
